(** * song_classification: predict.py

    A shallow embedding of the configuration-identity scheme, the dataset
    sizer, the sample builder and the prediction runner of [predict.py],
    together with the properties its specification states about them.

    Conventions.
    - Python [int] is [Z]; Python [float] is IEEE-754 binary64, taken from
      the standard library's [SpecFloat] with [prec = 53], [emax = 1024].
    - A Python object with attributes (the [Config] instance) is a finite
      map from attribute names to values.
    - An exception is an explicit [Raise]; a bare [except:] catches all of
      them.
    - numpy arrays of features hold exact rationals extended with the IEEE
      specials (see [npfloat]); the rounding of array arithmetic is not
      modelled. *)

From Stdlib Require Import ZArith List String Lia QArith Bool Permutation.
From Stdlib Require Import SpecFloat.
From stdpp Require Import gmap strings list fin_maps.

Local Open Scope Z_scope.

(** ** Exceptions *)

Inductive pyexn : Type :=
| AttributeError
| TypeError
| ZeroDivisionError
| OverflowError
| ValueError
| IndexError
| FileNotFoundError.

Inductive result (A : Type) : Type :=
| Ok (a : A)
| Raise (e : pyexn).
Arguments Ok {A} a.
Arguments Raise {A} e.

#[global] Instance result_ret : MRet result := fun A a => Ok a.
#[global] Instance result_bind : MBind result := fun A B f m =>
  match m with
  | Ok a => f a
  | Raise e => Raise e
  end.

Definition is_ok {A : Type} (r : result A) : bool :=
  match r with Ok _ => true | Raise _ => false end.

(** ** binary64 *)

Module F64.

Definition prec : Z := 53.
Definition emax : Z := 1024.

Definition add : spec_float -> spec_float -> spec_float := SFadd prec emax.
Definition sub : spec_float -> spec_float -> spec_float := SFsub prec emax.
Definition mul : spec_float -> spec_float -> spec_float := SFmul prec emax.
Definition div : spec_float -> spec_float -> spec_float := SFdiv prec emax.

(** The nearest binary64 to an integer (ties to even), [float(z)] before the
    overflow check. *)
Definition of_Z (z : Z) : spec_float := binary_normalize prec emax z 0 false.

Definition is_zero (f : spec_float) : bool :=
  match f with S754_zero _ => true | _ => false end.

Definition is_nan (f : spec_float) : bool :=
  match f with S754_nan => true | _ => false end.

(** [f] against the integer [z], exactly (CPython compares a float and an
    int by value, without converting the int). [None] when [f] is a NaN. *)
Definition compare_Z (f : spec_float) (z : Z) : option comparison :=
  match f with
  | S754_nan => None
  | S754_infinity s => Some (if s then Lt else Gt)
  | S754_zero _ => Some (0 ?= z)
  | S754_finite s m e =>
      let fm := cond_Zopp s (Zpos m) in
      if 0 <=? e then Some (fm * 2 ^ e ?= z) else Some (fm ?= z * 2 ^ (- e))
  end.

(** [int(f)]: truncation towards zero. *)
Definition trunc (f : spec_float) : result Z :=
  match f with
  | S754_nan => Raise ValueError
  | S754_infinity _ => Raise OverflowError
  | S754_zero _ => Ok 0
  | S754_finite s m e => Ok (cond_Zopp s (Z.shiftl (Zpos m) e))
  end.

(** Half-way cases of [round] go to the even neighbour. *)
Definition half_even (q r d : Z) : Z :=
  match 2 * r ?= d with
  | Lt => q
  | Gt => q + 1
  | Eq => if Z.even q then q else q + 1
  end.

(** [round(f)] with one argument: the nearest integer, ties to even. *)
Definition round (f : spec_float) : result Z :=
  match f with
  | S754_nan => Raise ValueError
  | S754_infinity _ => Raise OverflowError
  | S754_zero _ => Ok 0
  | S754_finite s m e =>
      if 0 <=? e then Ok (cond_Zopp s (Zpos m * 2 ^ e))
      else
        let d := 2 ^ (- e) in
        Ok (cond_Zopp s (half_even (Zpos m / d) (Zpos m mod d) d))
  end.

End F64.

(** ** Python values *)

Inductive pyval : Type :=
| VNone
| VBool (b : bool)
| VInt (z : Z)
| VFloat (f : spec_float).

(** The numeric tower: [bool] is a subclass of [int]. *)
Inductive pynum : Type :=
| NInt (z : Z)
| NFloat (f : spec_float).

Definition as_num (v : pyval) : result pynum :=
  match v with
  | VNone => Raise TypeError
  | VBool b => Ok (NInt (Z.b2z b))
  | VInt z => Ok (NInt z)
  | VFloat f => Ok (NFloat f)
  end.

(** [float(z)] for an int operand of a mixed operation. *)
Definition float_of_int (z : Z) : result spec_float :=
  match F64.of_Z z with
  | S754_infinity _ => Raise OverflowError
  | f => Ok f
  end.

Definition to_float (n : pynum) : result spec_float :=
  match n with
  | NInt z => float_of_int z
  | NFloat f => Ok f
  end.

(** [a / b] on two ints: the correctly rounded quotient. *)
Definition int_truediv (a b : Z) : result spec_float :=
  match b with
  | Z0 => Raise ZeroDivisionError
  | _ =>
      match a with
      | Z0 => Ok (S754_zero (b <? 0))
      | _ =>
          match F64.div (S754_finite (a <? 0) (Z.to_pos (Z.abs a)) 0)
                        (S754_finite (b <? 0) (Z.to_pos (Z.abs b)) 0) with
          | S754_infinity _ => Raise OverflowError
          | f => Ok f
          end
      end
  end.

Definition py_mul (v w : pyval) : result pyval :=
  a ← as_num v; b ← as_num w;
  match a, b with
  | NInt x, NInt y => Ok (VInt (x * y))
  | _, _ => x ← to_float a; y ← to_float b; Ok (VFloat (F64.mul x y))
  end.

Definition py_add (v w : pyval) : result pyval :=
  a ← as_num v; b ← as_num w;
  match a, b with
  | NInt x, NInt y => Ok (VInt (x + y))
  | _, _ => x ← to_float a; y ← to_float b; Ok (VFloat (F64.add x y))
  end.

Definition py_sub (v w : pyval) : result pyval :=
  a ← as_num v; b ← as_num w;
  match a, b with
  | NInt x, NInt y => Ok (VInt (x - y))
  | _, _ => x ← to_float a; y ← to_float b; Ok (VFloat (F64.sub x y))
  end.

Definition py_truediv (v w : pyval) : result pyval :=
  a ← as_num v; b ← as_num w;
  match a, b with
  | NInt x, NInt y => f ← int_truediv x y; Ok (VFloat f)
  | _, _ =>
      x ← to_float a; y ← to_float b;
      if F64.is_zero y then Raise ZeroDivisionError
      else Ok (VFloat (F64.div x y))
  end.

Definition num_compare (a b : pynum) : option comparison :=
  match a, b with
  | NInt x, NInt y => Some (x ?= y)
  | NFloat f, NInt y => F64.compare_Z f y
  | NInt x, NFloat g => option_map CompOpp (F64.compare_Z g x)
  | NFloat f, NFloat g => SFcompare f g
  end.

(** [v == w]; never raises. *)
Definition py_eq (v w : pyval) : bool :=
  match as_num v, as_num w with
  | Ok a, Ok b =>
      match num_compare a b with Some Eq => true | _ => false end
  | Raise _, Raise _ => true
  | _, _ => false
  end.

(** [v > w]. *)
Definition py_gt (v w : pyval) : result bool :=
  a ← as_num v; b ← as_num w;
  Ok (match num_compare a b with Some Gt => true | _ => false end).

(** [int(v)]. *)
Definition py_int (v : pyval) : result Z :=
  a ← as_num v;
  match a with
  | NInt z => Ok z
  | NFloat f => F64.trunc f
  end.

(** [round(v)]. *)
Definition py_round (v : pyval) : result Z :=
  a ← as_num v;
  match a with
  | NInt z => Ok z
  | NFloat f => F64.round f
  end.

(** [len(s)] of a string. *)
Definition len (s : string) : Z := Z.of_nat (String.length s).

(** ** Objects, and statements that read and write them *)

(** A Python object is the finite map of its attributes; the [Config]
    instance and every unpickled snapshot are such maps. *)
Abbreviation Config := (gmap string pyval).

(** The two objects [getTemporaryData] works on: the snapshot read from the
    file ([conf]) and the global of the running program ([config]). *)
Record store : Type := Store { conf : Config; config : Config }.

Inductive obj : Type := TheConf | TheConfig.

Definition sel (o : obj) (s : store) : Config :=
  match o with TheConf => conf s | TheConfig => config s end.

Definition upd (o : obj) (c : Config) (s : store) : store :=
  match o with
  | TheConf => Store c (config s)
  | TheConfig => Store (conf s) c
  end.

(** A statement: it may raise, and what it wrote before raising stays. *)
Definition M (A : Type) : Type := store -> result A * store.

#[global] Instance M_ret : MRet M := fun A a s => (Ok a, s).
#[global] Instance M_bind : MBind M := fun A B f m s =>
  match m s with
  | (Ok a, s') => f a s'
  | (Raise e, s') => (Raise e, s')
  end.

Definition lift {A : Type} (r : result A) : M A := fun s => (r, s).

Definition lookup_attr (c : Config) (name : string) : result pyval :=
  match c !! name with
  | Some v => Ok v
  | None => Raise AttributeError
  end.

(** [getattr(o, name)], also written [o.name]. *)
Definition getattr (o : obj) (name : string) : M pyval :=
  fun s => (lookup_attr (sel o s) name, s).

(** [o.name = v]. *)
Definition setattr (o : obj) (name : string) (v : pyval) : M unit :=
  fun s => (Ok tt, upd o (<[name := v]> (sel o s)) s).

(** [try: body except: handler] with a bare [except]. *)
Definition try_except (body handler : M unit) : M unit :=
  fun s =>
    match body s with
    | (Ok a, s') => (Ok a, s')
    | (Raise _, s') => handler s'
    end.

Fixpoint for_each {A : Type} (l : list A) (body : A -> M unit) : M unit :=
  match l with
  | [] => mret tt
  | x :: l' => _ ← body x; for_each l' body
  end.

(** ** ConfigIdentity and ConfigStore: [getTemporaryData] *)

Definition importance : list string :=
  ["use_random_in_feat"; "nfilt"; "nfeat"; "nfft"; "frame_rate";
   "sample_length"; "audio_length"; "audio_startpoint";
   "validation_data_mult"; "cat"; "max_class_files"]%string.

(** The right-hand side chosen by the [if]/[elif]/[else] of lines 96-101
    (for [conf]) and 103-108 (for [config]): the new id, from the field's
    value [v] and the current id [i]. [==] is Python's, so [0] and [0.0]
    take the first branch and [1] and [1.0] the second. *)
Definition field_rule (prop : string) (v i : pyval) : result pyval :=
  if py_eq v (VBool false) then py_mul i (VInt (len prop))
  else if py_eq v (VBool true) then py_truediv i (VInt (len prop))
  else t ← py_mul v (VInt 10); py_add i t.

(** The same from the object's attributes: reading the field may raise
    [AttributeError], the arithmetic [TypeError] or [OverflowError]. *)
Definition eval_field (c : Config) (prop : string) (i : pyval) : result pyval :=
  v ← lookup_attr c prop; field_rule prop v i.

(** Lines 96-101 with [o = conf], 103-108 with [o = config]. The source
    reads [getattr(o, prop)] again in each test and [o.id] in each branch;
    nothing is written in between, so each is read once here. *)
Definition update_id (o : obj) (prop : string) : M unit :=
  v ← getattr o prop;
  i ← getattr o "id";
  r ← lift (field_rule prop v i);
  setattr o "id" r.

(** [o.id = round(o.id)+1] *)
Definition round_id (o : obj) : M unit :=
  i ← getattr o "id";
  r ← lift (py_round i);
  setattr o "id" (VInt (r + 1)).

(** [o.id = o.id * len(prop)] *)
Definition scale_id (o : obj) (prop : string) : M unit :=
  i ← getattr o "id";
  r ← lift (py_mul i (VInt (len prop)));
  setattr o "id" r.

Definition try_block (prop : string) : M unit :=
  _ ← update_id TheConf prop;
  _ ← update_id TheConfig prop;
  _ ← round_id TheConf;
  round_id TheConfig.

Definition except_block (prop : string) : M unit :=
  _ ← scale_id TheConfig prop;
  scale_id TheConf prop.

Definition field_step (prop : string) : M unit :=
  try_except (try_block prop) (except_block prop).

(** Lines 89-114: both ids are set to 1, then the fields are run through. *)
Definition compute_ids : M unit :=
  _ ← setattr TheConfig "id" (VInt 1);
  _ ← setattr TheConf "id" (VInt 1);
  for_each importance field_step.

(** What the program prints. *)
Inductive line : Type :=
| LoadedConfig (id : pyval)
| YourConfigId (id : pyval)
| ErrorLine
| TooLarge (field : string) (given : pyval) (expected : Z)
| Summary (cat files : pyval) (h1 m1 h2 m2 : Z)
          (samples sample_length records : pyval).

(** [getTemporaryData], over the snapshots in the order [glob] lists them.
    It returns what the function returns, the global [config] as it leaves
    it, and the lines printed. *)
Fixpoint getTemporaryData (files : list Config) (cfg : Config)
  : result (option Config) * Config * list line :=
  match files with
  | [] =>
      match lookup_attr cfg "id" with
      | Ok i => (Ok None, cfg, [YourConfigId i])
      | Raise e => (Raise e, cfg, [])
      end
  | file :: rest =>
      match compute_ids (Store file cfg) with
      | (Raise e, s) => (Raise e, config s, [])
      | (Ok _, s) =>
          match lookup_attr (conf s) "id", lookup_attr (config s) "id" with
          | Ok i, Ok j =>
              if py_eq i j then (Ok (Some (conf s)), config s, [LoadedConfig i])
              else getTemporaryData rest (config s)
          | Raise e, _ | _, Raise e => (Raise e, config s, [])
          end
      end
  end.

(** *** Notions used to state the properties of the identity *)

Definition is_num (v : pyval) : bool :=
  match v with VInt _ | VFloat _ => true | _ => false end.

(** The store in which [conf.id = i] and [config.id = j]. *)
Definition with_ids (a b : Config) (i j : pyval) : store :=
  Store (<["id" := i]> a) (<["id" := j]> b).

(** The identity of one configuration on its own, when every field
    evaluates: seed 1, the fields in list order, [field_rule], then
    [round(...) + 1]. *)
Definition identity_step (c : Config) (acc : result pyval) (prop : string)
  : result pyval :=
  i ← acc; v ← lookup_attr c prop; r ← field_rule prop v i;
  x ← py_round r; Ok (VInt (x + 1)).

Definition identity (c : Config) : result pyval :=
  fold_left (identity_step c) importance (Ok (VInt 1)).

(** Whether the snapshot [file] is found compatible with [cfg]: the test of
    line 115 after lines 89-114. *)
Definition compatible (file cfg : Config) : bool :=
  let '(r, s) := compute_ids (Store file cfg) in
  match r, conf s !! "id", config s !! "id" with
  | Ok _, Some i, Some j => py_eq i j
  | _, _, _ => false
  end.

(** The id [config] carries after it was compared with [file]. *)
Definition config_id_after (file cfg : Config) : option pyval :=
  config (snd (compute_ids (Store file cfg))) !! "id".

(** The effect of one field on the two ids, as a function of the pair
    (proved equal to [field_step] below). *)
Definition scaled (prop : string) (ij : pyval * pyval)
  : result unit * (pyval * pyval) :=
  let '(i, j) := ij in
  match py_mul j (VInt (len prop)) with
  | Ok j' =>
      match py_mul i (VInt (len prop)) with
      | Ok i' => (Ok tt, (i', j'))
      | Raise e => (Raise e, (i, j'))
      end
  | Raise e => (Raise e, (i, j))
  end.

Definition step_ids (a b : Config) (prop : string) (ij : pyval * pyval)
  : result unit * (pyval * pyval) :=
  let '(i, j) := ij in
  match eval_field a prop i with
  | Raise _ => scaled prop (i, j)
  | Ok i1 =>
      match eval_field b prop j with
      | Raise _ => scaled prop (i1, j)
      | Ok j1 =>
          match py_round i1 with
          | Raise _ => scaled prop (i1, j1)
          | Ok x =>
              match py_round j1 with
              | Raise _ => scaled prop (VInt (x + 1), j1)
              | Ok y => (Ok tt, (VInt (x + 1), VInt (y + 1)))
              end
          end
      end
  end.

Fixpoint loop_ids (a b : Config) (l : list string) (ij : pyval * pyval)
  : result unit * (pyval * pyval) :=
  match l with
  | [] => (Ok tt, ij)
  | p :: l' =>
      match step_ids a b p ij with
      | (Ok _, ij') => loop_ids a b l' ij'
      | (Raise e, ij') => (Raise e, ij')
      end
  end.

(** A result over the pair of ids, put back into the store. *)
Definition in_store (a b : Config) (r : result unit * (pyval * pyval))
  : result unit * store :=
  (fst r, with_ids a b (fst (snd r)) (snd (snd r))).

(** The identity as claim C1 words it, for one configuration: a boolean
    false multiplies, a boolean true divides, a number adds ten times
    itself, a field that cannot be evaluated multiplies, and after each
    field the accumulator is rounded and incremented. *)
Definition claimed_rule (prop : string) (v : option pyval) (i : pyval)
  : result pyval :=
  match v with
  | Some (VBool false) => py_mul i (VInt (len prop))
  | Some (VBool true) => py_truediv i (VInt (len prop))
  | Some (VInt z) => py_add i (VInt (z * 10))
  | Some (VFloat f) => t ← py_mul (VFloat f) (VInt 10); py_add i t
  | Some VNone | None => py_mul i (VInt (len prop))
  end.

Definition claimed_step (c : Config) (acc : result pyval) (prop : string)
  : result pyval :=
  i ← acc; r ← claimed_rule prop (c !! prop) i;
  x ← py_round r; Ok (VInt (x + 1)).

Definition claimed_identity (c : Config) : result pyval :=
  fold_left (claimed_step c) importance (Ok (VInt 1)).

(** The same with the other reading of the failure clause: a field that
    cannot be evaluated multiplies and is not followed by the rounding and
    the increment. *)
Definition claimed_step' (c : Config) (acc : result pyval) (prop : string)
  : result pyval :=
  i ← acc;
  match c !! prop with
  | Some VNone | None => py_mul i (VInt (len prop))
  | v => r ← claimed_rule prop v i; x ← py_round r; Ok (VInt (x + 1))
  end.

Definition claimed_identity' (c : Config) : result pyval :=
  fold_left (claimed_step' c) importance (Ok (VInt 1)).

(** [c] and [c'] differ at most in their [id]. *)
Definition same_off_id (c c' : Config) : Prop :=
  forall p, p <> "id"%string -> c !! p = c' !! p.

(** The id [conf] carries after it was compared with [cfg]. *)
Definition conf_id_after (file cfg : Config) : option pyval :=
  conf (snd (compute_ids (Store file cfg))) !! "id".

(** *** Configurations used in the examples *)

(** A configuration with every importance field set; [sample_length] is
    the float 0.5. *)
Definition example_config : Config :=
  list_to_map
    [("use_random_in_feat", VBool false); ("nfilt", VInt 26);
     ("nfeat", VInt 13); ("nfft", VInt 512); ("frame_rate", VInt 16000);
     ("sample_length", VFloat (S754_finite false 4503599627370496 (-53)));
     ("audio_length", VInt 30); ("audio_startpoint", VInt 0);
     ("validation_data_mult", VInt 1); ("cat", VInt 3);
     ("max_class_files", VInt 2)]%string.

(** A snapshot of an older schema that only knows [nfilt]. *)
Definition snapshot_nfilt : Config := {["nfilt"%string := VInt 26]}.

(** ** DatasetSizer *)

(** The class table [df]: one row per file, its name and its label, in the
    order of the CSV. *)
Definition ClassTable : Type := list (string * string).

(** [df[df.label == c].index]: the files of class [c], in table order. *)
Definition files_of (df : ClassTable) (c : string) : list string :=
  map fst (List.filter (fun row => String.eqb (snd row) c) df).

(** [sys.maxsize] on a 64-bit build. *)
Definition maxsize : Z := 2 ^ 63 - 1.

(** [len(l)] of a list. *)
Definition llen {A : Type} (l : list A) : Z := Z.of_nat (List.length l).

Definition getMaximumData (cfg : Config) : result Z :=
  a ← lookup_attr cfg "max_class_files";
  b ← lookup_attr cfg "cat";
  ab ← py_mul a b;
  c ← lookup_attr cfg "max_tack_samples";
  data ← py_mul ab c;
  py_int data.

Definition getMaximumSamples (cfg : Config) : result Z :=
  a ← lookup_attr cfg "audio_length";
  s ← lookup_attr cfg "sample_length";
  q ← py_truediv a s;
  py_int q.

Definition getRefactoredData (cfg : Config) (data : pyval) : result Z :=
  c ← lookup_attr cfg "cat";
  data_x1 ← py_truediv data c;
  data_x2 ← py_int data_x1;
  c' ← lookup_attr cfg "cat";
  data_x3 ← py_mul (VInt data_x2) c';
  py_int data_x3.

Definition getSmallestDataset (df : ClassTable) (classes : list string) : Z :=
  fold_left
    (fun minorityFiles class_name =>
       let files := llen (files_of df class_name) in
       if minorityFiles >? files then files else minorityFiles)
    classes maxsize.

(** [v is False] *)
Definition is_False (v : pyval) : bool :=
  match v with VBool false => true | _ => false end.

(** One of the four blocks of [calculateConfigData]: the attribute [name]
    against its computed maximum. The source calls the getter of the
    maximum again for the message and for the assignment; it is a pure
    function of a configuration that is not written in between. *)
Definition clamp (name : string) (maximum : result Z) (cfg : Config)
  : result (Config * list line) :=
  v ← lookup_attr cfg name;
  m ← maximum;
  if is_False v then Ok (<[name := VInt m]> cfg, [])
  else
    g ← py_gt v (VInt m);
    if (g : bool) then Ok (<[name := VInt m]> cfg, [TooLarge name v m])
    else Ok (cfg, []).

(** Lines 412-442. *)
Definition calculate_overrides (df : ClassTable) (classes : list string)
    (cfg : Config) : result (Config * list line) :=
  r1 ← clamp "cat" (Ok (llen classes)) cfg;
  r2 ← clamp "max_class_files" (Ok (getSmallestDataset df classes)) (fst r1);
  r3 ← clamp "max_tack_samples" (getMaximumSamples (fst r2)) (fst r2);
  r4 ← clamp "max_data" (getMaximumData (fst r3)) (fst r3);
  Ok (fst r4, snd r1 ++ snd r2 ++ snd r3 ++ snd r4).

(** [x*60-(int(x)*60)] *)
Definition minutes_part (x : pyval) : result pyval :=
  a ← py_mul x (VInt 60);
  i ← py_int x;
  py_sub a (VInt (i * 60)).

(** Lines 444-455: the summary that is printed. *)
Definition summary (cfg : Config) : result (list line) :=
  start ← lookup_attr cfg "audio_startpoint";
  h1 ← py_truediv start (VInt 60);
  m1 ← minutes_part h1;
  start' ← lookup_attr cfg "audio_startpoint";
  length ← lookup_attr cfg "audio_length";
  stop ← py_add start' length;
  h2 ← py_truediv stop (VInt 60);
  m2 ← minutes_part h2;
  cat ← lookup_attr cfg "cat";
  files ← lookup_attr cfg "max_class_files";
  ih1 ← py_int h1; im1 ← py_int m1; ih2 ← py_int h2; im2 ← py_int m2;
  samples ← lookup_attr cfg "max_tack_samples";
  sl ← lookup_attr cfg "sample_length";
  records ← lookup_attr cfg "max_data";
  Ok [Summary cat files ih1 im1 ih2 im2 samples sl records].

Definition calculateConfigData (df : ClassTable) (classes : list string)
    (cfg : Config) : result (Config * list line) :=
  r ← calculate_overrides df classes cfg;
  s ← summary (fst r);
  Ok (fst r, snd r ++ s).

(** *** Notions used to state the properties of the sizer *)

(** An override is a count: an [int], or a [bool] ([False] is the
    sentinel of an unset value). *)
Definition is_override (v : pyval) : bool :=
  match v with VBool _ | VInt _ => true | _ => false end.

Definition override_value (v : pyval) : Z :=
  match v with VBool b => Z.b2z b | VInt z => z | _ => 0 end.

(** What a block leaves in the attribute, and what it prints. *)
Definition clamped (v : pyval) (maximum : Z) : pyval :=
  if is_False v then VInt maximum
  else if override_value v >? maximum then VInt maximum else v.

Definition warning (name : string) (v : pyval) (maximum : Z) : list line :=
  if is_False v then []
  else if override_value v >? maximum then [TooLarge name v maximum] else [].

(** Where a digit-by-digit remainder stands with respect to one half. *)
Definition loc_spec (l : location) (r d : Z) : Prop :=
  match l with
  | loc_Exact => r = 0
  | loc_Inexact c => 0 < r /\ (2 * r ?= d) = c
  end.

(** *** A class table and configurations used in the examples *)

(** Three files of class [a] and two of class [b]. *)
Definition example_table : ClassTable :=
  [("a1.wav", "a"); ("b1.wav", "b"); ("a2.wav", "a"); ("b2.wav", "b");
   ("a3.wav", "a")]%string.

Definition example_classes : list string := ["a"; "b"]%string.

(** [max_class_files] asks for 5 files per class, the rest is unset; the
    window is 30 seconds and a sample 10. *)
Definition example_overrides : Config :=
  list_to_map
    [("cat", VBool false); ("max_class_files", VInt 5);
     ("max_tack_samples", VBool false); ("max_data", VBool false);
     ("audio_length", VInt 30); ("sample_length", VInt 10);
     ("audio_startpoint", VInt 0)]%string.

(** Three categories. *)
Definition three_categories : Config := {["cat"%string := VInt 3]}.

(** A window of [3 * 2^58 - 1] seconds cut into samples of 3. *)
Definition long_window : Config :=
  list_to_map [("audio_length", VInt 864691128455135231);
               ("sample_length", VInt 3)]%string.

(** A window of [2^60 - 1] seconds, one less than the sample length. *)
Definition short_window : Config :=
  list_to_map [("audio_length", VInt 1152921504606846975);
               ("sample_length", VInt 1152921504606846976)]%string.

(** ** numpy arrays *)

(** An element of a feature array: an exact rational, or one of the IEEE
    specials that array arithmetic produces without raising (division by
    zero gives an infinity or a NaN and a warning). Rounding is not
    modelled. *)
Inductive npfloat : Type :=
| NFin (q : Q)
| NPosInf
| NNegInf
| NNaN.

Definition np_is_nan (a : npfloat) : bool :=
  match a with NNaN => true | _ => false end.

(** [a < b] *)
Definition np_lt (a b : npfloat) : bool :=
  match a, b with
  | NNaN, _ | _, NNaN => false
  | NFin x, NFin y => negb (Qle_bool y x)
  | NNegInf, NNegInf => false
  | NNegInf, _ => true
  | _, NNegInf => false
  | NPosInf, _ => false
  | NFin _, NPosInf => true
  end.

Definition np_neg (a : npfloat) : npfloat :=
  match a with
  | NFin x => NFin (- x)
  | NPosInf => NNegInf
  | NNegInf => NPosInf
  | NNaN => NNaN
  end.

Definition np_add (a b : npfloat) : npfloat :=
  match a, b with
  | NNaN, _ | _, NNaN => NNaN
  | NFin x, NFin y => NFin (x + y)
  | NPosInf, NNegInf | NNegInf, NPosInf => NNaN
  | NPosInf, _ | _, NPosInf => NPosInf
  | NNegInf, _ | _, NNegInf => NNegInf
  end.

Definition np_sub (a b : npfloat) : npfloat := np_add a (np_neg b).

(** The sign of a rational: [Lt] negative, [Eq] zero, [Gt] positive. *)
Definition Qsign (x : Q) : comparison := (Qnum x ?= 0)%Z.

Definition np_div (a b : npfloat) : npfloat :=
  match a, b with
  | NNaN, _ | _, NNaN => NNaN
  | NFin x, NFin y =>
      match Qsign y with
      | Eq =>
          match Qsign x with
          | Eq => NNaN
          | Lt => NNegInf
          | Gt => NPosInf
          end
      | _ => NFin (x / y)
      end
  | NFin _, _ => NFin 0
  | NPosInf, NFin y =>
      match Qsign y with Lt => NNegInf | _ => NPosInf end
  | NNegInf, NFin y =>
      match Qsign y with Lt => NPosInf | _ => NNegInf end
  | _, _ => NNaN
  end.

(** Python's builtin [min(a, b)] and [max(a, b)]: the first argument is
    kept unless the second is strictly smaller (larger). *)
Definition py_min (a b : npfloat) : npfloat := if np_lt b a then b else a.
Definition py_max (a b : npfloat) : npfloat := if np_lt a b then b else a.

(** [np.minimum] and [np.maximum] of two elements: a NaN wins. *)
Definition np_minimum (a b : npfloat) : npfloat :=
  if np_is_nan a then a else if np_is_nan b then b
  else if np_lt b a then b else a.
Definition np_maximum (a b : npfloat) : npfloat :=
  if np_is_nan a then a else if np_is_nan b then b
  else if np_lt a b then b else a.

(** An array: its shape and its elements in row-major order. *)
Record ndarray : Type := NdArray { shape : list nat; data : list npfloat }.

(** [np.amin(a)], [np.amax(a)] *)
Definition np_amin (a : ndarray) : result npfloat :=
  match data a with
  | [] => Raise ValueError
  | x :: l => Ok (fold_left np_minimum l x)
  end.

Definition np_amax (a : ndarray) : result npfloat :=
  match data a with
  | [] => Raise ValueError
  | x :: l => Ok (fold_left np_maximum l x)
  end.

Definition np_map (f : npfloat -> npfloat) (a : ndarray) : ndarray :=
  NdArray (shape a) (map f (data a)).

Definition shape_eqb (s t : list nat) : bool :=
  bool_decide (s = t).

(** [np.array(l)] of a list of arrays: they are stacked along a new first
    axis. A list of arrays of different shapes is refused (numpy 1.24 and
    later). *)
Definition np_stack (l : list ndarray) : result ndarray :=
  match l with
  | [] => Ok (NdArray [0%nat] [])
  | a :: l' =>
      if forallb (fun b => shape_eqb (shape a) (shape b)) l'
      then Ok (NdArray (List.length l :: shape a) (concat (map data l)))
      else Raise ValueError
  end.

Definition size_of (s : list nat) : nat := fold_right Nat.mul 1%nat s.

(** [a.reshape(s)] *)
Definition np_reshape (s : list nat) (a : ndarray) : result ndarray :=
  if Nat.eqb (size_of s) (List.length (data a)) then Ok (NdArray s (data a))
  else Raise ValueError.

(** [a.shape[i]] *)
Definition shape_at (a : ndarray) (i : nat) : result nat :=
  match nth_error (shape a) i with
  | Some n => Ok n
  | None => Raise IndexError
  end.

Fixpoint chunks {A : Type} (n size : nat) (l : list A) : list (list A) :=
  match n with
  | O => []
  | S n' => firstn size l :: chunks n' size (skipn size l)
  end.

(** [for x in a]: the sub-arrays along the first axis. *)
Definition np_iter (a : ndarray) : result (list ndarray) :=
  match shape a with
  | [] => Raise TypeError
  | n :: rest => Ok (map (NdArray rest) (chunks n (size_of rest) (data a)))
  end.

Definition np_sum (l : list npfloat) : npfloat := fold_left np_add l (NFin 0).

(** [np.mean(a)] over all elements; of an empty array it is a NaN. *)
Definition np_mean (a : ndarray) : npfloat :=
  np_div (np_sum (data a)) (NFin (inject_Z (Z.of_nat (List.length (data a))))).

(** A value used as an index or a count ([range], [num_classes]). *)
Definition py_index (v : pyval) : result Z :=
  match v with
  | VInt z => Ok z
  | VBool b => Ok (Z.b2z b)
  | _ => Raise TypeError
  end.

Definition one_hot (num_classes label : nat) : list npfloat :=
  map (fun i => if Nat.eqb i label then NFin 1 else NFin 0) (seq 0 num_classes).

(** keras' [to_categorical(y, num_classes)] on class indices. *)
Definition to_categorical (y : list nat) (num_classes : Z) : result ndarray :=
  if (num_classes <? 0)%Z then Raise ValueError
  else
    let c := Z.to_nat num_classes in
    if forallb (fun label => Nat.ltb label c) y
    then Ok (NdArray [List.length y; c] (concat (map (one_hot c) y)))
    else Raise IndexError.

(** ** SampleBuilder *)

(** The labelled corpus: the class table and, for each file name, what
    [wavfile.read] returns for it (the rate and the samples of the one
    channel). The directory the names are joined to is left out. *)
Record Corpus : Type := { df : ClassTable; wavs : gmap string (Z * list Z) }.

Fixpoint insert_sorted (s : string) (l : list string) : list string :=
  match l with
  | [] => [s]
  | x :: l' =>
      match String.compare s x with
      | Lt => s :: l
      | Eq => l
      | Gt => x :: insert_sorted s l'
      end
  end.

(** [list(np.unique(df.label))], line 470: the labels, sorted, once each. *)
Definition np_unique (l : list string) : list string :=
  fold_right insert_sorted [] l.

Definition classes_of (table : ClassTable) : list string :=
  np_unique (map snd table).

(** [l.index(c)] *)
Fixpoint index_of (c : string) (l : list string) : result nat :=
  match l with
  | [] => Raise ValueError
  | x :: l' => if String.eqb x c then Ok O else n ← index_of c l'; Ok (S n)
  end.

(** [range(n)] *)
Definition range (n : Z) : list Z := map Z.of_nat (seq 0 (Z.to_nat n)).

(** [wav[start:stop]] for [0 <= start]. *)
Definition py_slice (wav : list Z) (start stop : Z) : list Z :=
  let n := llen wav in
  let stop' := if stop <? 0 then Z.max 0 (n + stop) else Z.min stop n in
  let start' := Z.min start n in
  firstn (Z.to_nat (stop' - start')) (skipn (Z.to_nat start') wav).

Fixpoint fold_result {A S : Type} (f : A -> S -> result S) (l : list A) (s : S)
  : result S :=
  match l with
  | [] => Ok s
  | x :: l' => s' ← f x s; fold_result f l' s'
  end.

Fixpoint map_result {A B : Type} (f : A -> result B) (l : list A)
  : result (list B) :=
  match l with
  | [] => Ok []
  | x :: l' => y ← f x; ys ← map_result f l'; Ok (y :: ys)
  end.

(** The generator behind [np.random]: the sequence of its raw draws and how
    many were used. Any run of the program is the run for some sequence. *)
Record rng : Type := Rng { draws : nat -> Z; used : nat }.

Definition next_draw (g : rng) : Z * rng :=
  (draws g (used g), Rng (draws g) (S (used g))).

(** [np.random.choice(l)] *)
Definition random_choice (l : list string) (g : rng) : result (string * rng) :=
  match l with
  | [] => Raise ValueError
  | x :: _ =>
      let '(d, g') := next_draw g in
      Ok (nth (Z.to_nat (d mod llen l)) l x, g')
  end.

(** [np.random.randint(low, high)] *)
Definition random_randint (low high : Z) (g : rng) : result (Z * rng) :=
  if high <=? low then Raise ValueError
  else let '(d, g') := next_draw g in Ok (low + d mod (high - low), g').

(** What the two loops build: [X], [y], [_min], [_max], and what was
    printed. *)
Record acc : Type := Acc {
  acc_X : list ndarray;
  acc_y : list nat;
  acc_min : npfloat;
  acc_max : npfloat;
  acc_out : list line
}.

Definition acc0 : acc := Acc [] [] NPosInf NNegInf [].

Definition skip_file (a : acc) : acc :=
  Acc (acc_X a) (acc_y a) (acc_min a) (acc_max a) (acc_out a ++ [ErrorLine]).

Definition read_wav (C : Corpus) (file : string) : result (Z * list Z) :=
  match wavs C !! file with
  | Some w => Ok w
  | None => Raise FileNotFoundError
  end.

Section Builders.

(** The feature extraction, a black box: [mfcc(sample, rate, numcep=...,
    nfilt=..., nfft=...).T] under a configuration. *)
Variable mfcc : Config -> list Z -> Z -> ndarray.

(** The classifier, a black box: [model.predict]. *)
Variable predict : ndarray -> ndarray.

Variable cfg : Config.
Variable C : Corpus.
Variable classes : list string.

(** Lines 180-186 and 235-241: one sample of class [class_index]. *)
Definition append_sample (rate : Z) (sample : list Z) (class_index : string)
    (a : acc) : result acc :=
  let X_sample := mfcc cfg sample rate in
  lo ← np_amin X_sample;
  hi ← np_amax X_sample;
  label ← index_of class_index classes;
  Ok (Acc (acc_X a ++ [X_sample]) (acc_y a ++ [label])
          (py_min lo (acc_min a)) (py_max hi (acc_max a)) (acc_out a)).

(** [wav[start:start+config.step]] *)
Definition window (wav : list Z) (start : Z) : result (list Z) :=
  step ← lookup_attr cfg "step";
  stop ← py_add (VInt start) step;
  stop' ← py_index stop;
  Ok (py_slice wav start stop').

(** Lines 229-241. *)
Definition fixed_window (rate : Z) (wav : list Z) (class_index : string)
    (audio_index : Z) (a : acc) : result acc :=
  sample ← window wav audio_index;
  append_sample rate sample class_index a.

(** Lines 218-241: the body of the loop over the classes. *)
Definition fixed_file (file_index : nat) (class_index : string) (a : acc)
  : result acc :=
  file ← match nth_error (files_of (df C) class_index) file_index with
         | Some f => Ok f
         | None => Raise IndexError
         end;
  w ← read_wav C file;
  if llen (snd w) =? 0 then Ok (skip_file a)
  else
    m ← lookup_attr cfg "max_tack_samples";
    n ← py_index m;
    fold_result (fixed_window (fst w) (snd w) class_index) (range n) a.

(** Lines 215-241. *)
Definition fixed_loop (files : Z) : result acc :=
  fold_result
    (fun file_index a =>
       fold_result (fixed_file (Z.to_nat file_index)) classes a)
    (range files) acc0.

(** Line 211: [int((datasets / config.max_tack_samples) / config.cat)] *)
Definition fixed_file_count (datasets : Z) : result Z :=
  m ← lookup_attr cfg "max_tack_samples";
  q ← py_truediv (VInt datasets) m;
  c ← lookup_attr cfg "cat";
  q' ← py_truediv q c;
  py_int q'.

(** Lines 164-186: the body of the loop over the classes. *)
Definition random_sample (class_index : string) (s : acc * rng)
  : result (acc * rng) :=
  let '(a, g) := s in
  r ← random_choice (files_of (df C) class_index) g;
  w ← read_wav C (fst r);
  if llen (snd w) =? 0 then Ok (skip_file a, snd r)
  else
    step ← lookup_attr cfg "step";
    high ← py_sub (VInt (llen (snd w))) step;
    high' ← py_index high;
    i ← random_randint 0 high' (snd r);
    sample ← window (snd w) (fst i);
    a' ← append_sample (fst w) sample class_index a;
    Ok (a', snd i).

(** Lines 161-188. *)
Definition random_loop (rounds : Z) (g : rng) : result (acc * rng) :=
  fold_result (fun _ s => fold_result random_sample classes s)
    (range rounds) (acc0, g).

(** Line 161: [int(datasets/3)] *)
Definition random_round_count (datasets : Z) : result Z :=
  q ← py_truediv (VInt datasets) (VInt 3);
  py_int q.

(** What a builder returns and leaves behind: [X], [y], the values written
    to [config.min] and [config.max], and what was printed. *)
Record samples : Type := Samples {
  samples_X : ndarray;
  samples_y : ndarray;
  config_min : npfloat;
  config_max : npfloat;
  printed : list line
}.

(** [(x - _min) / (_max - _min)] *)
Definition normalize (lo hi x : npfloat) : npfloat :=
  np_div (np_sub x lo) (np_sub hi lo).

(** Lines 190-204 and 243-257. *)
Definition assemble (a : acc) : result samples :=
  X ← np_stack (acc_X a);
  let X' := np_map (normalize (acc_min a) (acc_max a)) X in
  n0 ← shape_at X' 0;
  n1 ← shape_at X' 1;
  n2 ← shape_at X' 2;
  X'' ← np_reshape [n0; n1; n2; 1%nat] X';
  c ← lookup_attr cfg "cat";
  num_classes ← py_index c;
  y ← to_categorical (acc_y a) num_classes;
  Ok (Samples X'' y (acc_min a) (acc_max a) (acc_out a)).

Definition getFixedSamples (datasets : pyval) : result samples :=
  d ← getRefactoredData cfg datasets;
  files ← fixed_file_count d;
  a ← fixed_loop files;
  assemble a.

Definition getRandomSamples (datasets : pyval) (g : rng)
  : result (samples * rng) :=
  d ← getRefactoredData cfg datasets;
  rounds ← random_round_count d;
  s ← random_loop rounds g;
  r ← assemble (fst s);
  Ok (r, snd s).

(** ** PredictionRunner *)

(** Lines 286-288: one element of [y_prob]. *)
Definition predict_one (x : ndarray) : result npfloat :=
  h ← shape_at x 0;
  w ← shape_at x 1;
  x' ← np_reshape [1%nat; h; w; 1%nat] x;
  let y_hat := predict x' in
  Ok (np_mean y_hat).

(** [buildPredctions]: it returns [y_true, y_pred, y_prob]. *)
Definition buildPredctions (datasets : pyval)
  : result (ndarray * list npfloat * ndarray) :=
  s ← getFixedSamples datasets;
  let y_prob := samples_X s in
  let y_true := samples_y s in
  xs ← np_iter y_prob;
  y_pred ← map_result predict_one xs;
  Ok (y_true, y_pred, y_prob).

End Builders.

(** *** Notions used to state the properties of the builders *)

(** [a'] is [a] with [k] more samples, all of classes in the set, and with
    nothing more printed. *)
Definition grown (classes : list string) (k : nat) (a a' : acc) : Prop :=
  List.length (acc_X a') = (List.length (acc_X a) + k)%nat /\
  List.length (acc_y a') = (List.length (acc_y a) + k)%nat /\
  acc_out a' = acc_out a /\
  (Forall (fun label => (label < List.length classes)%nat) (acc_y a) ->
   Forall (fun label => (label < List.length classes)%nat) (acc_y a')).

(** The same, and every matrix of [a'] has the property [P] when every
    matrix of [a] has it. *)
Definition grown_keeping (P : ndarray -> Prop) (classes : list string)
    (k : nat) (a a' : acc) : Prop :=
  grown classes k a a' /\ (Forall P (acc_X a) -> Forall P (acc_X a')).

(** All the raw feature values gathered so far, in order. *)
Definition all_values (a : acc) : list npfloat := concat (map data (acc_X a)).

Definition is_fin (v : npfloat) : Prop := exists q, v = NFin q.

(** [v] is a rational between [lo] and [hi]. *)
Definition between (lo hi : Q) (v : npfloat) : Prop :=
  exists q, v = NFin q /\ (lo <= q)%Q /\ (q <= hi)%Q.

(** Every matrix gathered so far has [h] rows and [w] columns. *)
Definition uniform (h w : nat) (a : acc) : Prop :=
  Forall (fun x => shape x = [h; w] /\ List.length (data x) = (h * w)%nat)
    (acc_X a).

(** [_min] and [_max] are the smallest and the largest of the raw values
    gathered so far, and the two infinities before the first sample. *)
Definition tracked (a : acc) : Prop :=
  (acc_X a = [] /\ acc_min a = NPosInf /\ acc_max a = NNegInf) \/
  (exists lo hi,
     acc_min a = NFin lo /\ acc_max a = NFin hi /\
     In (NFin lo) (all_values a) /\ In (NFin hi) (all_values a) /\
     Forall (between lo hi) (all_values a)).

(** The position of a class in the class list, as [classes.index] gives
    it. *)
Definition class_index (classes : list string) (c : string) : nat :=
  match index_of c classes with Ok n => n | Raise _ => O end.

(** The class indices of fixed mode when nothing is skipped: for every
    file index, for every class in list order, one index per window. *)
Definition fixed_labels (classes : list string) (samples_per_file files : nat)
  : list nat :=
  concat (repeat
            (flat_map (fun c => repeat (class_index classes c) samples_per_file)
               classes)
            files).

(** A list of strings in strictly increasing order. *)
Fixpoint increasing (l : list string) : Prop :=
  match l with
  | [] => True
  | x :: l' => Forall (fun y => String.compare x y = Lt) l' /\ increasing l'
  end.

(** An override that is a count or the [False] sentinel, not [True]. *)
Definition is_count (v : pyval) : bool :=
  match v with VBool false | VInt _ => true | _ => false end.

(** *** A small corpus used in the examples *)

(** A stand-in for the feature extraction: a 1 x 2 matrix holding the first
    value of the window and the length of the window. *)
Definition toy_mfcc (_ : Config) (w : list Z) (_ : Z) : ndarray :=
  NdArray [1%nat; 2%nat]
    [NFin (inject_Z (hd 0 w)); NFin (inject_Z (llen w))].

(** A feature extraction that returns the same value for every window. *)
Definition flat_mfcc (_ : Config) (_ : list Z) (_ : Z) : ndarray :=
  NdArray [1%nat; 1%nat] [NFin 5].

(** A classifier that answers [0.25, 0.75] for every input. *)
Definition toy_predict (_ : ndarray) : ndarray :=
  NdArray [1%nat; 2%nat] [NFin (1 # 4); NFin (3 # 4)].

(** Five waveforms of five values each for [example_table]. *)
Definition toy_corpus : Corpus :=
  {| df := example_table;
     wavs := list_to_map
       [("a1.wav", (8000, [1; 2; 3; 4; 5])); ("a2.wav", (8000, [5; 6; 7; 8; 9]));
        ("a3.wav", (8000, [1; 1; 1; 1; 1])); ("b1.wav", (8000, [9; 8; 7; 6; 5]));
        ("b2.wav", (8000, [3; 3; 3; 3; 3]))]%string |}.

(** Two categories, three windows per file, windows of two values. *)
Definition toy_config : Config :=
  list_to_map [("cat", VInt 2); ("max_tack_samples", VInt 3);
               ("step", VInt 2)]%string.

(** The same with one category for the two classes. *)
Definition one_category : Config :=
  list_to_map [("cat", VInt 1); ("max_tack_samples", VInt 3);
               ("step", VInt 2)]%string.

(** Windows as long as the files. *)
Definition wide_window : Config :=
  list_to_map [("cat", VInt 2); ("max_tack_samples", VInt 3);
               ("step", VInt 5)]%string.

(** An audio window shorter than one sample: no window per file. *)
Definition no_window : Config :=
  list_to_map [("cat", VInt 2); ("max_tack_samples", VInt 0);
               ("step", VInt 2)]%string.

Definition toy_rng : rng := Rng (fun n => Z.of_nat n * 7) 0.

(** ** Trainer: [fitModel] *)

(** Code that reads and writes a state of type [S] and may raise; the state
    it leaves is kept when it raises. *)
Definition ST (S A : Type) : Type := S -> result A * S.

#[global] Instance ST_ret {S : Type} : MRet (ST S) := fun A a s => (Ok a, s).
#[global] Instance ST_bind {S : Type} : MBind (ST S) := fun A B f m s =>
  match m s with
  | (Ok a, s') => f a s'
  | (Raise e, s') => (Raise e, s')
  end.

Definition st_lift {S A : Type} (r : result A) : ST S A := fun s => (r, s).

(** [try: body except: handler] *)
Definition st_try {S : Type} (body handler : ST S unit) : ST S unit :=
  fun s =>
    match body s with
    | (Ok a, s') => (Ok a, s')
    | (Raise _, s') => handler s'
    end.

Fixpoint st_for {S A : Type} (l : list A) (body : A -> ST S unit) : ST S unit :=
  match l with
  | [] => mret tt
  | x :: l' => _ ← body x; st_for l' body
  end.

(** The truth value of a number or [None] in an [if]. *)
Definition py_truthy (v : pyval) : bool :=
  match v with
  | VNone => false
  | VBool b => b
  | VInt z => negb (z =? 0)
  | VFloat f => negb (F64.is_zero f)
  end.

(** [v is True] *)
Definition is_True (v : pyval) : bool :=
  match v with VBool true => true | _ => false end.

(** A history attribute of the configuration ([acc_temp] and the three
    others): absent, [None], or a list. *)
Inductive temp (metric : Type) : Type :=
| TMissing
| TNone
| TList (l : list metric).
Arguments TMissing {metric}.
Arguments TNone {metric}.
Arguments TList {metric} l.

(** The rows of [l] at the indices [idx], as [l[idx]] takes them. *)
Definition take {A : Type} (l : list A) (idx : list nat) : list A :=
  flat_map (fun i => match nth_error l i with Some x => [x] | None => [] end) idx.

Section Trainer.

(** The samples, the labels, the model, the values of a metric and the
    score of an evaluation are left abstract. *)
Variables row label model metric score : Type.

(** The order in which [shuffle(..., random_state=0)] puts [n] samples:
    with a fixed seed it depends on [n] only. *)
Variable perm0 : nat -> list nat.

(** [checkpoint.history]: the list under a key, or what looking the key up
    raises. *)
Definition history : Type := string -> result (list metric).

(** [model.fit], [model.evaluate], [load_model], [getLastModelFilename],
    [drawStatistics], [model.save] and [saveConfig] are black boxes that may
    raise. Training is not deterministic: [fit] and [evaluate] also depend
    on the number of the call. The last three are given the configuration,
    from which they build the paths of the files they write. *)
Variable fit :
  nat -> model -> list row -> list label -> list row -> list label ->
  pyval -> pyval -> result (model * history).
Variable evaluate :
  nat -> model -> list row -> list label -> pyval -> result score.
Variable load_model : option string -> result model.
Variable getLastModelFilename : Config -> result (option string).
Variable drawStatistics :
  Config -> temp metric -> temp metric -> temp metric -> temp metric ->
  result unit.
Variable save : Config -> model -> result unit.
Variable saveConfig :
  Config -> temp metric -> temp metric -> temp metric -> temp metric ->
  result unit.

(** sklearn's [shuffle(X, y, random_state=0)]: the same order for both
    arrays, which must be of one length. *)
Definition shuffle (X : list row) (y : list label)
  : result (list row * list label) :=
  if Nat.eqb (List.length X) (List.length y)
  then Ok (take X (perm0 (List.length X)), take y (perm0 (List.length X)))
  else Raise ValueError.

(** What [fitModel] itself prints, and the calls of the black boxes that
    came back. *)
Inductive event : Type :=
| CallLine (index : Z) (calls : option pyval)
| ContinueLine
| DrewStatistics (acc val_acc loss val_loss : temp metric)
| ShuffleLine
| FitCall (X : list row) (y : list label) (val_X : list row)
          (val_y : list label) (epochs batch_size : pyval)
| EvaluateLine
| ScoreLine (s : score)
| SavedModel
| SavedConfig.

(** The global [config] (its numbers and its four histories), the local
    variables [model], [X] and [y], and the events so far. *)
Record trainer : Type := Trainer {
  t_config : Config;
  t_acc : temp metric;
  t_val_acc : temp metric;
  t_loss : temp metric;
  t_val_loss : temp metric;
  t_model : model;
  t_X : list row;
  t_y : list label;
  t_trace : list event
}.

Definition emit (e : event) : ST trainer unit :=
  fun s => (Ok tt,
            Trainer (t_config s) (t_acc s) (t_val_acc s) (t_loss s)
              (t_val_loss s) (t_model s) (t_X s) (t_y s) (t_trace s ++ [e])).

(** [config.name] for a number of the configuration. *)
Definition attr (name : string) : ST trainer pyval :=
  fun s => (lookup_attr (t_config s) name, s).

Definition set_attr (name : string) (v : pyval) : ST trainer unit :=
  fun s => (Ok tt,
            Trainer (<[name := v]> (t_config s)) (t_acc s) (t_val_acc s)
              (t_loss s) (t_val_loss s) (t_model s) (t_X s) (t_y s) (t_trace s)).

(** The four histories, by name. *)
Inductive temp_name : Type := AccTemp | ValAccTemp | LossTemp | ValLossTemp.

Definition get_temp (n : temp_name) (s : trainer) : temp metric :=
  match n with
  | AccTemp => t_acc s
  | ValAccTemp => t_val_acc s
  | LossTemp => t_loss s
  | ValLossTemp => t_val_loss s
  end.

(** [config.acc_temp] and the like, evaluated. *)
Definition read_temp (n : temp_name) : ST trainer (temp metric) :=
  fun s =>
    match get_temp n s with
    | TMissing => (Raise AttributeError, s)
    | t => (Ok t, s)
    end.

Definition write_temp (n : temp_name) (t : temp metric) : ST trainer unit :=
  fun s =>
    (Ok tt,
     match n with
     | AccTemp =>
         Trainer (t_config s) t (t_val_acc s) (t_loss s) (t_val_loss s)
           (t_model s) (t_X s) (t_y s) (t_trace s)
     | ValAccTemp =>
         Trainer (t_config s) (t_acc s) t (t_loss s) (t_val_loss s)
           (t_model s) (t_X s) (t_y s) (t_trace s)
     | LossTemp =>
         Trainer (t_config s) (t_acc s) (t_val_acc s) t (t_val_loss s)
           (t_model s) (t_X s) (t_y s) (t_trace s)
     | ValLossTemp =>
         Trainer (t_config s) (t_acc s) (t_val_acc s) (t_loss s) t
           (t_model s) (t_X s) (t_y s) (t_trace s)
     end).

Definition set_model (m : model) : ST trainer unit :=
  fun s => (Ok tt,
            Trainer (t_config s) (t_acc s) (t_val_acc s) (t_loss s)
              (t_val_loss s) m (t_X s) (t_y s) (t_trace s)).

Definition set_data (X : list row) (y : list label) : ST trainer unit :=
  fun s => (Ok tt,
            Trainer (t_config s) (t_acc s) (t_val_acc s) (t_loss s)
              (t_val_loss s) (t_model s) X y (t_trace s)).

Definition get_model : ST trainer model := fun s => (Ok (t_model s), s).
Definition get_config : ST trainer Config := fun s => (Ok (t_config s), s).
Definition get_data : ST trainer (list row * list label) :=
  fun s => (Ok (t_X s, t_y s), s).

(** Lines 355-358 and 360-363. *)
Definition reset_temps : ST trainer unit :=
  _ ← write_temp AccTemp (TList []);
  _ ← write_temp ValAccTemp (TList []);
  _ ← write_temp LossTemp (TList []);
  write_temp ValLossTemp (TList []).

(** Lines 353-363. *)
Definition init_temps : ST trainer unit :=
  st_try
    (a ← read_temp AccTemp;
     match a with TNone => reset_temps | _ => mret tt end)
    reset_temps.

(** Lines 365-366. *)
Definition init_calls : ST trainer unit :=
  c ← attr "calls";
  if is_False c then set_attr "calls" (VInt maxsize) else mret tt.

(** Lines 368-374. *)
Definition load_checkpoint : ST trainer unit :=
  u ← attr "use_checkpoints";
  if py_truthy u then
    path ← (fun s => (getLastModelFilename (t_config s), s));
    st_try (m ← st_lift (load_model path); _ ← set_model m; emit ContinueLine)
           (mret tt)
  else mret tt.

(** Lines 378-386. *)
Definition announce (index : Z) : ST trainer unit :=
  calls ← attr "calls";
  _ ← (if py_eq calls (VInt maxsize) then emit (CallLine (index + 1) None)
       else calls' ← attr "calls"; emit (CallLine (index + 1) (Some calls')));
  a ← read_temp AccTemp;
  va ← read_temp ValAccTemp;
  l ← read_temp LossTemp;
  vl ← read_temp ValLossTemp;
  cfg ← get_config;
  _ ← st_lift (drawStatistics cfg a va l vl);
  _ ← emit (DrewStatistics a va l vl);
  emit ShuffleLine.

(** Lines 387-391: the two shuffles and the call of [model.fit]. *)
Definition shuffle_and_fit (index : Z) : ST trainer history :=
  d ← get_data;
  xy ← st_lift (shuffle (fst d) (snd d));
  _ ← set_data (fst xy) (snd xy);
  d' ← get_data;
  val ← st_lift (shuffle (fst d') (snd d'));
  epochs ← attr "epochs";
  batch_size ← attr "batch_size";
  _ ← emit (FitCall (fst d') (snd d') (fst val) (snd val) epochs batch_size);
  m ← get_model;
  r ← st_lift (fit (Z.to_nat index) m (fst d') (snd d') (fst val) (snd val)
                 epochs batch_size);
  _ ← set_model (fst r);
  mret (snd r).

(** [config.t = config.t + checkpoint.history[key]] *)
Definition extend_temp (n : temp_name) (h : history) (key : string)
  : ST trainer unit :=
  t ← read_temp n;
  l ← st_lift (h key);
  match t with
  | TList old => write_temp n (TList (old ++ l))
  | _ => st_lift (Raise TypeError)
  end.

(** Lines 393-408. *)
Definition record_and_save (index : Z) (h : history) : ST trainer unit :=
  _ ← extend_temp AccTemp h "acc";
  _ ← extend_temp ValAccTemp h "val_acc";
  _ ← extend_temp LossTemp h "loss";
  _ ← extend_temp ValLossTemp h "val_loss";
  e ← attr "use_evaluate";
  _ ← (if is_True e then
         _ ← emit EvaluateLine;
         m ← get_model;
         d ← get_data;
         batch_size ← attr "batch_size";
         sc ← st_lift (evaluate (Z.to_nat index) m (fst d) (snd d) batch_size);
         emit (ScoreLine sc)
       else mret tt);
  m ← get_model;
  cfg ← get_config;
  _ ← st_lift (save cfg m);
  _ ← emit SavedModel;
  a ← (fun s => (Ok (t_acc s), s));
  va ← (fun s => (Ok (t_val_acc s), s));
  l ← (fun s => (Ok (t_loss s), s));
  vl ← (fun s => (Ok (t_val_loss s), s));
  _ ← st_lift (saveConfig cfg a va l vl);
  emit SavedConfig.

(** Lines 376-408: the body of the loop. *)
Definition fit_call (index : Z) : ST trainer unit :=
  _ ← announce index;
  h ← shuffle_and_fit index;
  record_and_save index h.

(** [fitModel(model, X, y, val_X, val_y)] on a configuration with the
    numbers [cfg] and the four histories: what it raises, if anything, and
    the state it leaves. *)
Definition fitModel (m : model) (X : list row) (y : list label)
    (val_X : list row) (val_y : list label) (cfg : Config)
    (acc val_acc loss val_loss : temp metric) : result unit * trainer :=
  (_ ← init_temps;
   _ ← init_calls;
   _ ← load_checkpoint;
   calls ← attr "calls";
   n ← st_lift (py_index calls);
   st_for (range n) fit_call)
  (Trainer cfg acc val_acc loss val_loss m X y []).

(** *** Notions used to state the properties of the trainer *)

(** The calls of [model.fit] among the events: the training data and the
    validation data of each. *)
Fixpoint fit_calls (tr : list event)
  : list ((list row * list label) * (list row * list label)) :=
  match tr with
  | [] => []
  | FitCall X y val_X val_y _ _ :: tr' =>
      ((X, y), (val_X, val_y)) :: fit_calls tr'
  | _ :: tr' => fit_calls tr'
  end.

(** [k] shuffles in a row. *)
Fixpoint shuffle_times (k : nat) (X : list row) (y : list label)
  : result (list row * list label) :=
  match k with
  | O => Ok (X, y)
  | S k' => d ← shuffle_times k' X y; shuffle (fst d) (snd d)
  end.

(** Code that leaves [X] and [y] alone and does not call [model.fit]. *)
Definition quiet {A : Type} (c : ST trainer A) : Prop :=
  forall s r s', c s = (r, s') ->
  t_X s' = t_X s /\ t_y s' = t_y s /\
  fit_calls (t_trace s') = fit_calls (t_trace s).

(** Every call of [model.fit] in a list of calls trains on the data
    [X0, y0] shuffled once more than the call before it, and validates on
    the shuffle of the data it trains on. *)
Definition validates_on_training_data (X0 : list row) (y0 : list label)
    (calls : list ((list row * list label) * (list row * list label)))
  : Prop :=
  forall j c, nth_error calls j = Some c ->
  shuffle_times (S j) X0 y0 = Ok (fst c) /\
  shuffle (fst (fst c)) (snd (fst c)) = Ok (snd c).

(** What holds between two calls: the calls so far are as above, and [X]
    and [y] are the data shuffled once per call so far. *)
Definition between_calls (X0 : list row) (y0 : list label) (s : trainer)
  : Prop :=
  validates_on_training_data X0 y0 (fit_calls (t_trace s)) /\
  shuffle_times (List.length (fit_calls (t_trace s))) X0 y0 =
    Ok (t_X s, t_y s).

End Trainer.

(** *** A trainer used in the examples *)

(** Reversal as the order of the shuffle. *)
Definition reverse_order (n : nat) : list nat := rev (seq 0 n).

(** A [fit] that returns its model and a history of empty lists. *)
Definition idle_fit (_ : nat) (m : unit) (_ : list Z) (_ : list nat)
    (_ : list Z) (_ : list nat) (_ _ : pyval)
  : result (unit * history Z) :=
  Ok (m, fun _ => Ok []).

Definition idle_evaluate (_ : nat) (_ : unit) (_ : list Z) (_ : list nat)
    (_ : pyval) : result unit := Ok tt.

Definition no_checkpoint (_ : option string) : result unit :=
  Raise FileNotFoundError.

Definition no_model_file (_ : Config) : result (option string) := Ok None.

Definition idle_draw (_ : Config) (_ _ _ _ : temp Z) : result unit := Ok tt.

Definition idle_save (_ : Config) (_ : unit) : result unit := Ok tt.

(** Two calls, no checkpoint, no evaluation. *)
Definition two_calls : Config :=
  list_to_map [("calls", VInt 2); ("use_checkpoints", VBool false);
               ("epochs", VInt 1); ("batch_size", VInt 32);
               ("use_evaluate", VBool false); ("id", VInt 7)]%string.

(** * Properties *)

(** ** The lockstep loop, one statement at a time *)

Lemma importance_not_id (prop : string) :
  In prop importance -> prop <> "id"%string.
Proof. unfold importance. simpl. intros H. intuition (subst; discriminate). Qed.

Section Stepping.

Variables a b : Config.
Variable prop : string.
Hypothesis Hne : prop <> "id"%string.

Ltac run_statement :=
  unfold update_id, round_id, scale_id, with_ids, getattr, setattr, lift,
    mbind, M_bind, result_bind, lookup_attr, upd; simpl;
  rewrite ?(lookup_insert_ne _ "id"%string prop) by congruence;
  rewrite ?lookup_insert_eq.

Lemma run_update_conf i j :
  update_id TheConf prop (with_ids a b i j) =
  match eval_field a prop i with
  | Ok r => (Ok tt, with_ids a b r j)
  | Raise e => (Raise e, with_ids a b i j)
  end.
Proof.
  unfold eval_field. run_statement.
  destruct (a !! prop) as [v|]; [|reflexivity].
  destruct (field_rule prop v i); [|reflexivity].
  rewrite insert_insert_eq. reflexivity.
Qed.

Lemma run_update_config i j :
  update_id TheConfig prop (with_ids a b i j) =
  match eval_field b prop j with
  | Ok r => (Ok tt, with_ids a b i r)
  | Raise e => (Raise e, with_ids a b i j)
  end.
Proof.
  unfold eval_field. run_statement.
  destruct (b !! prop) as [w|]; [|reflexivity].
  destruct (field_rule prop w j); [|reflexivity].
  rewrite insert_insert_eq. reflexivity.
Qed.

Lemma run_round_conf i j :
  round_id TheConf (with_ids a b i j) =
  match py_round i with
  | Ok x => (Ok tt, with_ids a b (VInt (x + 1)) j)
  | Raise e => (Raise e, with_ids a b i j)
  end.
Proof.
  run_statement. destruct (py_round i); [|reflexivity].
  rewrite insert_insert_eq. reflexivity.
Qed.

Lemma run_round_config i j :
  round_id TheConfig (with_ids a b i j) =
  match py_round j with
  | Ok y => (Ok tt, with_ids a b i (VInt (y + 1)))
  | Raise e => (Raise e, with_ids a b i j)
  end.
Proof.
  run_statement. destruct (py_round j); [|reflexivity].
  rewrite insert_insert_eq. reflexivity.
Qed.

Lemma run_scale_conf i j :
  scale_id TheConf prop (with_ids a b i j) =
  match py_mul i (VInt (len prop)) with
  | Ok r => (Ok tt, with_ids a b r j)
  | Raise e => (Raise e, with_ids a b i j)
  end.
Proof.
  run_statement. destruct (py_mul i _); [|reflexivity].
  rewrite insert_insert_eq. reflexivity.
Qed.

Lemma run_scale_config i j :
  scale_id TheConfig prop (with_ids a b i j) =
  match py_mul j (VInt (len prop)) with
  | Ok r => (Ok tt, with_ids a b i r)
  | Raise e => (Raise e, with_ids a b i j)
  end.
Proof.
  run_statement. destruct (py_mul j _); [|reflexivity].
  rewrite insert_insert_eq. reflexivity.
Qed.

Lemma run_except i j :
  except_block prop (with_ids a b i j) = in_store a b (scaled prop (i, j)).
Proof.
  unfold except_block, scaled, in_store, mbind, M_bind.
  rewrite run_scale_config. destruct (py_mul j _); [|reflexivity].
  rewrite run_scale_conf. destruct (py_mul i _); reflexivity.
Qed.

Lemma run_field_step i j :
  field_step prop (with_ids a b i j) = in_store a b (step_ids a b prop (i, j)).
Proof.
  unfold field_step, try_except, try_block, step_ids, mbind at 1 2 3, M_bind.
  rewrite run_update_conf.
  destruct (eval_field a prop i) as [i1|e];
    [|apply run_except].
  rewrite run_update_config.
  destruct (eval_field b prop j) as [j1|e];
    [|apply run_except].
  rewrite run_round_conf.
  destruct (py_round i1) as [x|e]; [|apply run_except].
  rewrite run_round_config.
  destruct (py_round j1) as [y|e]; [|apply run_except].
  reflexivity.
Qed.

End Stepping.

Lemma run_for_each (a b : Config) (l : list string) :
  (forall p, In p l -> In p importance) ->
  forall i j,
  for_each l field_step (with_ids a b i j) = in_store a b (loop_ids a b l (i, j)).
Proof.
  induction l as [|p l IH]; intros Hl i j; [reflexivity|].
  cbn [for_each loop_ids]. unfold mbind, M_bind.
  rewrite run_field_step by (apply importance_not_id, Hl; left; reflexivity).
  destruct (step_ids a b p (i, j)) as [[[]|e] [i1 j1]]; [|reflexivity].
  apply IH. intros q Hq. apply Hl. right. exact Hq.
Qed.

Lemma run_compute_ids (c1 c2 : Config) :
  compute_ids (Store c1 c2) =
  in_store c1 c2 (loop_ids c1 c2 importance (VInt 1, VInt 1)).
Proof.
  change (compute_ids (Store c1 c2))
    with (for_each importance field_step (with_ids c1 c2 (VInt 1) (VInt 1))).
  apply run_for_each. auto.
Qed.

(** ** The ids stay numbers, and the loop never raises *)

Ltac case_results H :=
  repeat match type of H with
         | match ?t with _ => _ end = _ => destruct t; try discriminate
         | (if ?t then _ else _) = _ => destruct t; try discriminate
         end.

Lemma py_mul_num v w r : py_mul v w = Ok r -> is_num r = true.
Proof.
  unfold py_mul, mbind, result_bind.
  destruct (as_num v) as [[x|f]|]; destruct (as_num w) as [[y|g]|]; simpl;
    try discriminate; intros H; case_results H; injection H as <-; reflexivity.
Qed.

Lemma py_add_num v w r : py_add v w = Ok r -> is_num r = true.
Proof.
  unfold py_add, mbind, result_bind.
  destruct (as_num v) as [[x|f]|]; destruct (as_num w) as [[y|g]|]; simpl;
    try discriminate; intros H; case_results H; injection H as <-; reflexivity.
Qed.

Lemma py_truediv_num v w r : py_truediv v w = Ok r -> is_num r = true.
Proof.
  unfold py_truediv, mbind, result_bind.
  destruct (as_num v) as [[x|f]|]; destruct (as_num w) as [[y|g]|]; simpl;
    try discriminate; intros H; case_results H; injection H as <-; reflexivity.
Qed.

Lemma field_rule_num prop v i r :
  field_rule prop v i = Ok r -> is_num r = true.
Proof.
  unfold field_rule. destruct (py_eq v (VBool false)); [apply py_mul_num|].
  destruct (py_eq v (VBool true)); [apply py_truediv_num|].
  unfold mbind, result_bind.
  destruct (py_mul v (VInt 10)); [apply py_add_num|discriminate].
Qed.

Lemma eval_field_num c prop i r :
  eval_field c prop i = Ok r -> is_num r = true.
Proof.
  unfold eval_field, mbind, result_bind.
  destruct (lookup_attr c prop); [apply field_rule_num|discriminate].
Qed.

Lemma len_importance_float prop :
  In prop importance -> exists f, float_of_int (len prop) = Ok f.
Proof.
  unfold importance. simpl. intros H.
  repeat (destruct H as [<-|H]; [eexists; vm_compute; reflexivity|]).
  destruct H.
Qed.

Lemma scale_total prop i :
  In prop importance -> is_num i = true ->
  exists r, py_mul i (VInt (len prop)) = Ok r /\ is_num r = true.
Proof.
  intros Hin Hi. destruct (len_importance_float prop Hin) as [f Hf].
  destruct i as [| |z|g]; try discriminate.
  - eexists. split; reflexivity.
  - unfold py_mul, mbind, result_bind. simpl. rewrite Hf.
    eexists. split; reflexivity.
Qed.

Lemma scaled_total prop i j :
  In prop importance -> is_num i = true -> is_num j = true ->
  exists i' j',
    py_mul i (VInt (len prop)) = Ok i' /\ py_mul j (VInt (len prop)) = Ok j' /\
    scaled prop (i, j) = (Ok tt, (i', j')) /\
    is_num i' = true /\ is_num j' = true.
Proof.
  intros Hin Hi Hj. unfold scaled.
  destruct (scale_total prop i Hin Hi) as (i' & Ei & Hi').
  destruct (scale_total prop j Hin Hj) as (j' & Ej & Hj').
  exists i', j'. rewrite Ei, Ej. auto.
Qed.

Lemma scaled_total' prop i j :
  In prop importance -> is_num i = true -> is_num j = true ->
  exists i' j', scaled prop (i, j) = (Ok tt, (i', j')) /\
                is_num i' = true /\ is_num j' = true.
Proof.
  intros Hin Hi Hj.
  destruct (scaled_total prop i j Hin Hi Hj) as (i' & j' & _ & _ & E & ? & ?).
  eauto.
Qed.

Lemma step_ids_total a b prop i j :
  In prop importance -> is_num i = true -> is_num j = true ->
  exists i' j', step_ids a b prop (i, j) = (Ok tt, (i', j')) /\
                is_num i' = true /\ is_num j' = true.
Proof.
  intros Hin Hi Hj. unfold step_ids.
  destruct (eval_field a prop i) as [i1|e] eqn:E1;
    [|apply scaled_total'; assumption].
  apply eval_field_num in E1.
  destruct (eval_field b prop j) as [j1|e] eqn:E2;
    [|apply scaled_total'; assumption].
  apply eval_field_num in E2.
  destruct (py_round i1) as [x|e]; [|apply scaled_total'; assumption].
  destruct (py_round j1) as [y|e]; [|apply scaled_total'; auto].
  eauto.
Qed.

Lemma loop_ids_total a b l :
  (forall p, In p l -> In p importance) ->
  forall i j, is_num i = true -> is_num j = true ->
  exists i' j', loop_ids a b l (i, j) = (Ok tt, (i', j')) /\
                is_num i' = true /\ is_num j' = true.
Proof.
  induction l as [|p l IH]; intros Hl i j Hi Hj.
  - exists i, j. auto.
  - destruct (step_ids_total a b p i j) as (i1 & j1 & E & Hi1 & Hj1); auto.
    { apply Hl. left. reflexivity. }
    cbn [loop_ids]. rewrite E. apply IH; auto.
    intros q Hq. apply Hl. right. exact Hq.
Qed.

Lemma compute_ids_total c1 c2 :
  exists i j, compute_ids (Store c1 c2) = (Ok tt, with_ids c1 c2 i j) /\
              is_num i = true /\ is_num j = true.
Proof.
  rewrite run_compute_ids.
  destruct (loop_ids_total c1 c2 importance) with (i := VInt 1) (j := VInt 1)
    as (i & j & E & Hi & Hj); auto.
  exists i, j. rewrite E. auto.
Qed.

(** ** When no field fails, each side is the identity of its configuration *)

Lemma identity_fold_raise c l e :
  fold_left (identity_step c) l (Raise e) = Raise e.
Proof. induction l; simpl; auto. Qed.

Lemma identity_step_ok c i p :
  identity_step c (Ok i) p =
  match lookup_attr c p with
  | Ok v => match field_rule p v i with
            | Ok r => match py_round r with
                      | Ok x => Ok (VInt (x + 1))
                      | Raise e => Raise e
                      end
            | Raise e => Raise e
            end
  | Raise e => Raise e
  end.
Proof. reflexivity. Qed.

Lemma loop_ids_identity a b l :
  forall i0 j0 i j,
  fold_left (identity_step a) l (Ok i0) = Ok i ->
  fold_left (identity_step b) l (Ok j0) = Ok j ->
  loop_ids a b l (i0, j0) = (Ok tt, (i, j)).
Proof.
  induction l as [|p l IH]; intros i0 j0 i j Hi Hj;
    cbn [fold_left loop_ids] in *.
  - injection Hi as <-. injection Hj as <-. reflexivity.
  - revert Hi Hj. rewrite !identity_step_ok. unfold step_ids, eval_field, mbind, result_bind.
    destruct (lookup_attr a p) as [v|e]; [|rewrite identity_fold_raise; discriminate].
    destruct (field_rule p v i0) as [i1|e]; [|rewrite identity_fold_raise; discriminate].
    destruct (py_round i1) as [x|e]; [|rewrite identity_fold_raise; discriminate].
    intros Hi.
    destruct (lookup_attr b p) as [w|e]; [|rewrite identity_fold_raise; discriminate].
    destruct (field_rule p w j0) as [j1|e]; [|rewrite identity_fold_raise; discriminate].
    destruct (py_round j1) as [y|e]; [|rewrite identity_fold_raise; discriminate].
    intros Hj. apply IH; auto.
Qed.

(** ** Only the importance fields are read *)

Lemma step_ids_ext a b a' b' prop ij :
  a !! prop = a' !! prop -> b !! prop = b' !! prop ->
  step_ids a b prop ij = step_ids a' b' prop ij.
Proof.
  intros Ha Hb. unfold step_ids, eval_field, lookup_attr. rewrite Ha, Hb. reflexivity.
Qed.

Lemma loop_ids_ext a b a' b' l :
  (forall p, In p l -> a !! p = a' !! p /\ b !! p = b' !! p) ->
  forall ij, loop_ids a b l ij = loop_ids a' b' l ij.
Proof.
  induction l as [|p l IH]; intros Hl ij; [reflexivity|].
  cbn [loop_ids].
  destruct (Hl p) as [Ha Hb]; [left; reflexivity|].
  rewrite (step_ids_ext a b a' b' p ij Ha Hb).
  destruct (step_ids a' b' p ij) as [[[]|e] ij']; [|reflexivity].
  apply IH. intros q Hq. apply Hl. right. exact Hq.
Qed.

Lemma step_ids_agree a b prop i :
  a !! prop = b !! prop ->
  exists r k, step_ids a b prop (i, i) = (r, (k, k)).
Proof.
  intros Hab. unfold step_ids, scaled.
  replace (eval_field a prop i) with (eval_field b prop i)
    by (unfold eval_field, lookup_attr; rewrite Hab; reflexivity).
  destruct (eval_field b prop i) as [i1|e].
  - destruct (py_round i1) as [x|e].
    + eauto.
    + destruct (py_mul i1 (VInt (len prop))); eauto.
  - destruct (py_mul i (VInt (len prop))); eauto.
Qed.

Lemma loop_ids_agree a b l :
  (forall p, In p l -> a !! p = b !! p) ->
  forall i, exists r k, loop_ids a b l (i, i) = (r, (k, k)).
Proof.
  induction l as [|p l IH]; intros Hl i.
  - exists (Ok tt), i. reflexivity.
  - cbn [loop_ids].
    destruct (step_ids_agree a b p i) as (r & k & E).
    { apply Hl. left. reflexivity. }
    rewrite E. destruct r as [[]|e]; [|eauto].
    apply IH. intros q Hq. apply Hl. right. exact Hq.
Qed.

Lemma py_eq_refl k :
  is_num k = true -> k <> VFloat S754_nan -> py_eq k k = true.
Proof.
  destruct k as [| |z|f]; try discriminate; intros _ Hk; unfold py_eq; simpl.
  - rewrite Z.compare_refl. reflexivity.
  - destruct f as [s|s| |s m e]; simpl.
    + reflexivity.
    + destruct s; reflexivity.
    + congruence.
    + rewrite Z.compare_refl, Pos.compare_cont_refl. destruct s; reflexivity.
Qed.

(** ** C1: the per-field update of the identity *)

Lemma field_rule_int prop z i :
  z <> 0 -> z <> 1 ->
  field_rule prop (VInt z) (VInt i) = Ok (VInt (i + z * 10)).
Proof.
  intros H0 H1. unfold field_rule, py_eq. simpl.
  destruct (z ?= 0) eqn:E0; [apply Z.compare_eq in E0; contradiction| |];
  (destruct (z ?= 1) eqn:E1; [apply Z.compare_eq in E1; contradiction| |]);
  reflexivity.
Qed.


(** ** C3: the identity depends only on the importance fields *)

(** C3. Two configurations with the same value, or the same absence of a
    value, on every importance field leave the lockstep computation with
    the same id; unless that id is a NaN, line 115 finds them equal. *)
Theorem identity_depends_on_importance_only (c1 c2 : Config) :
  (forall p, In p importance -> c1 !! p = c2 !! p) ->
  exists k,
    compute_ids (Store c1 c2) = (Ok tt, with_ids c1 c2 k k) /\
    (k <> VFloat S754_nan -> compatible c1 c2 = true).
Proof.
  intros Hagree.
  destruct (compute_ids_total c1 c2) as (i & j & E & Hi & Hj).
  destruct (loop_ids_agree c1 c2 importance Hagree (VInt 1)) as (r & k & Ek).
  assert (Hk : (Ok tt, with_ids c1 c2 i j) = in_store c1 c2 (r, (k, k))).
  { rewrite <- E, run_compute_ids, Ek. reflexivity. }
  unfold in_store, with_ids in Hk. simpl in Hk.
  injection Hk as Hr Hci Hcj.
  assert (i = k).
  { apply (f_equal (fun m : Config => m !! "id"%string)) in Hci.
    rewrite !lookup_insert_eq in Hci. congruence. }
  assert (j = k).
  { apply (f_equal (fun m : Config => m !! "id"%string)) in Hcj.
    rewrite !lookup_insert_eq in Hcj. congruence. }
  subst i j. exists k. split; [exact E|].
  intros Hnan. unfold compatible. rewrite E. unfold with_ids. simpl.
  rewrite !lookup_insert_eq. apply py_eq_refl; assumption.
Qed.

(** ** C2: the scan of the snapshot directory *)

Lemma same_off_id_refl c : same_off_id c c.
Proof. intros p _. reflexivity. Qed.

Lemma same_off_id_insert c c' v : same_off_id c c' -> same_off_id c (<["id" := v]> c').
Proof.
  intros H p Hp. rewrite lookup_insert_ne by congruence. apply H, Hp.
Qed.

Lemma insert_id_same c c' (v : pyval) :
  same_off_id c c' -> <["id" := v]> c' = <["id" := v]> c.
Proof.
  intros H. apply map_eq. intros p.
  destruct (decide (p = "id"%string)) as [->|Hp].
  - rewrite !lookup_insert_eq. reflexivity.
  - rewrite !lookup_insert_ne by congruence. symmetry. apply H, Hp.
Qed.

Lemma compute_ids_same_off_id file file' cfg cfg' :
  same_off_id file file' -> same_off_id cfg cfg' ->
  compute_ids (Store file' cfg') = compute_ids (Store file cfg).
Proof.
  intros Hf Hc. rewrite !run_compute_ids.
  rewrite (loop_ids_ext file' cfg' file cfg importance).
  - unfold in_store, with_ids.
    rewrite (insert_id_same file file'), (insert_id_same cfg cfg') by assumption.
    reflexivity.
  - intros p Hp. apply importance_not_id in Hp.
    split; symmetry; [apply Hf|apply Hc]; exact Hp.
Qed.

Lemma getTemporaryData_cons file rest cfg :
  exists i j,
    compute_ids (Store file cfg) = (Ok tt, with_ids file cfg i j) /\
    compatible file cfg = py_eq i j /\
    config_id_after file cfg = Some j /\
    getTemporaryData (file :: rest) cfg =
      if py_eq i j
      then (Ok (Some (<["id" := i]> file)), <["id" := j]> cfg, [LoadedConfig i])
      else getTemporaryData rest (<["id" := j]> cfg).
Proof.
  destruct (compute_ids_total file cfg) as (i & j & E & _ & _).
  exists i, j. split; [exact E|].
  unfold compatible, config_id_after. cbn [getTemporaryData].
  rewrite E. unfold with_ids, lookup_attr. simpl.
  rewrite !lookup_insert_eq. auto.
Qed.

Lemma compatible_same_off_id file cfg cfg' :
  same_off_id cfg cfg' -> compatible file cfg' = compatible file cfg.
Proof.
  intros H. unfold compatible.
  rewrite (compute_ids_same_off_id file file cfg cfg' (same_off_id_refl _) H).
  reflexivity.
Qed.

Lemma scan_found file after cfg before :
  Forall (fun g => compatible g cfg = false) before ->
  compatible file cfg = true ->
  forall cfg', same_off_id cfg cfg' ->
  exists i j,
    compute_ids (Store file cfg) = (Ok tt, with_ids file cfg i j) /\
    py_eq i j = true /\
    getTemporaryData (before ++ file :: after) cfg' =
      (Ok (Some (<["id" := i]> file)), <["id" := j]> cfg, [LoadedConfig i]).
Proof.
  intros Hbefore Hfile.
  induction Hbefore as [|g before Hg Hbefore IH]; intros cfg' Hsame.
  - destruct (getTemporaryData_cons file after cfg') as (i & j & E & Ec & _ & Eg).
    rewrite (compatible_same_off_id file cfg cfg' Hsame), Hfile in Ec.
    rewrite <- Ec in Eg. exists i, j.
    rewrite <- (compute_ids_same_off_id file file cfg cfg' (same_off_id_refl _) Hsame).
    split; [|split; [auto|]].
    + rewrite E. unfold with_ids. rewrite (insert_id_same cfg cfg' j Hsame). reflexivity.
    + cbn [app]. rewrite Eg. rewrite (insert_id_same cfg cfg' j Hsame). reflexivity.
  - destruct (getTemporaryData_cons g (before ++ file :: after) cfg')
      as (i & j & _ & Ec & _ & Eg).
    rewrite (compatible_same_off_id g cfg cfg' Hsame), Hg in Ec.
    rewrite <- Ec in Eg. cbn [app]. rewrite Eg.
    apply IH. apply same_off_id_insert, Hsame.
Qed.

Lemma scan_not_found last cfg before :
  Forall (fun g => compatible g cfg = false) (before ++ [last]) ->
  forall cfg', same_off_id cfg cfg' ->
  exists j,
    config_id_after last cfg = Some j /\
    getTemporaryData (before ++ [last]) cfg' =
      (Ok None, <["id" := j]> cfg, [YourConfigId j]).
Proof.
  induction before as [|g before IH]; intros Hall cfg' Hsame.
  - apply Forall_inv in Hall.
    destruct (getTemporaryData_cons last [] cfg') as (i & j & E & Ec & Ea & Eg).
    rewrite (compatible_same_off_id last cfg cfg' Hsame), Hall in Ec.
    rewrite <- Ec in Eg. exists j. split.
    + unfold config_id_after in *.
      rewrite <- (compute_ids_same_off_id last last cfg cfg'
                    (same_off_id_refl _) Hsame). exact Ea.
    + cbn [app]. rewrite Eg. cbn [getTemporaryData]. unfold lookup_attr. rewrite lookup_insert_eq.
      rewrite (insert_id_same cfg cfg' j Hsame). reflexivity.
  - cbn [app] in Hall. pose proof (Forall_inv Hall) as Hg.
    apply Forall_inv_tail in Hall.
    destruct (getTemporaryData_cons g (before ++ [last]) cfg')
      as (i & j & _ & Ec & _ & Eg).
    rewrite (compatible_same_off_id g cfg cfg' Hsame), Hg in Ec.
    rewrite <- Ec in Eg. cbn [app]. rewrite Eg.
    apply IH; [exact Hall|]. apply same_off_id_insert, Hsame.
Qed.

(** C2. Before each snapshot is compared, both ids are set back to 1: what
    the comparison computes does not depend on the ids the snapshot and the
    configuration carried. The function returns the first snapshot, in scan
    order, whose id equals the configuration's after that lockstep run.
    When no snapshot of a non-empty scan is compatible it returns [None]
    and prints the id the configuration was left with by the last
    comparison; on an empty directory it prints the id the configuration
    already carries. *)
Theorem getTemporaryData_finds_first_compatible (cfg : Config) :
  (forall file x y,
     compute_ids (Store (<["id" := x]> file) (<["id" := y]> cfg)) =
     compute_ids (Store file cfg)) /\
  (forall before file after,
     Forall (fun g => compatible g cfg = false) before ->
     compatible file cfg = true ->
     exists i j,
       compute_ids (Store file cfg) = (Ok tt, with_ids file cfg i j) /\
       py_eq i j = true /\
       getTemporaryData (before ++ file :: after) cfg =
         (Ok (Some (<["id" := i]> file)), <["id" := j]> cfg, [LoadedConfig i])) /\
  (forall before last,
     Forall (fun g => compatible g cfg = false) (before ++ [last]) ->
     exists j,
       config_id_after last cfg = Some j /\
       getTemporaryData (before ++ [last]) cfg =
         (Ok None, <["id" := j]> cfg, [YourConfigId j])) /\
  (forall i, cfg !! "id" = Some i ->
     getTemporaryData [] cfg = (Ok None, cfg, [YourConfigId i])).
Proof.
  split.
  { intros file x y. apply compute_ids_same_off_id; apply same_off_id_insert,
      same_off_id_refl. }
  split.
  { intros before file after Hb Hf.
    apply (scan_found file after cfg before Hb Hf cfg), same_off_id_refl. }
  split.
  { intros before last Hall.
    apply (scan_not_found last cfg before Hall cfg), same_off_id_refl. }
  intros i Hi. simpl. unfold lookup_attr. rewrite Hi. reflexivity.
Qed.

(** ** C1 to C3 on concrete configurations *)



Lemma identity_depends_on_importance_only_witness :
  exists k,
    compute_ids (Store example_config (<["epochs" := VInt 10]> example_config)) =
      (Ok tt, with_ids example_config (<["epochs" := VInt 10]> example_config) k k) /\
    (k <> VFloat S754_nan ->
     compatible example_config (<["epochs" := VInt 10]> example_config) = true).
Proof.
  apply (identity_depends_on_importance_only example_config
           (<["epochs" := VInt 10]> example_config)).
  intros p Hp. unfold importance in Hp. simpl in Hp.
  repeat (destruct Hp as [<-|Hp]; [vm_compute; reflexivity|]).
  destruct Hp.
Defined.

Lemma getTemporaryData_finds_first_compatible_witness :
  exists i j,
    compute_ids (Store snapshot_nfilt example_config) =
      (Ok tt, with_ids snapshot_nfilt example_config i j) /\
    py_eq i j = true /\
    getTemporaryData
      ([<["nfilt" := VInt 40]> example_config] ++ snapshot_nfilt :: [example_config])
      example_config =
      (Ok (Some (<["id" := i]> snapshot_nfilt)), <["id" := j]> example_config,
       [LoadedConfig i]).
Proof.
  apply (proj1 (proj2 (getTemporaryData_finds_first_compatible example_config))).
  - constructor; [vm_compute; reflexivity|constructor].
  - vm_compute; reflexivity.
Defined.

(** ** binary64 division of integers *)

Section Float_division.

Local Open Scope Z_scope.

Lemma digits2_pos_bounds (p : positive) :
  2 ^ (Zpos (digits2_pos p) - 1) <= Zpos p < 2 ^ Zpos (digits2_pos p).
Proof.
  induction p as [p IH|p IH|]; cbn [digits2_pos].
  - rewrite Pos2Z.inj_succ.
    replace (Z.succ (Zpos (digits2_pos p)) - 1) with (Z.succ (Zpos (digits2_pos p) - 1)) by lia.
    rewrite !Z.pow_succ_r by lia. lia.
  - rewrite Pos2Z.inj_succ.
    replace (Z.succ (Zpos (digits2_pos p)) - 1) with (Z.succ (Zpos (digits2_pos p) - 1)) by lia.
    rewrite !Z.pow_succ_r by lia. lia.
  - simpl. lia.
Qed.

Lemma Zdigits2_unique (m k : Z) :
  0 < k -> 2 ^ (k - 1) <= m < 2 ^ k -> Zdigits2 m = k.
Proof.
  intros Hk [Hlo Hhi].
  assert (0 < m) by (pose proof (Z.pow_pos_nonneg 2 (k - 1)); lia).
  destruct m as [|p|p]; try lia. cbn [Zdigits2].
  pose proof (digits2_pos_bounds p) as [Hl Hh].
  set (d := Zpos (digits2_pos p)) in *.
  assert (0 < d) by (unfold d; lia).
  destruct (Z.lt_trichotomy d k) as [Hlt|[Heq|Hgt]]; [|exact Heq|].
  - assert (2 ^ d <= 2 ^ (k - 1)) by (apply Z.pow_le_mono_r; lia). lia.
  - assert (2 ^ k <= 2 ^ (d - 1)) by (apply Z.pow_le_mono_r; lia). lia.
Qed.

End Float_division.

Section Float_rounding.

Local Open Scope Z_scope.

Lemma new_location_spec (d r : Z) :
  0 < d -> 0 <= r < d -> loc_spec (new_location d r) r d.
Proof.
  intros Hd Hr. unfold new_location, new_location_even, new_location_odd.
  destruct (Z.even d) eqn:Ed.
  - destruct (Z.eqb_spec r 0) as [->|Hr0]; simpl; [reflexivity|]. split; [lia|reflexivity].
  - destruct (Z.eqb_spec r 0) as [->|Hr0]; simpl; [reflexivity|]. split; [lia|].
    assert (Hodd : Z.odd d = true) by (rewrite <- Z.negb_even, Ed; reflexivity).
    apply Z.odd_spec in Hodd. destruct Hodd as [k ->].
    destruct (Z.compare_spec (2 * r + 1) (2 * k + 1)) as [H|H|H];
      [apply Z.compare_lt_iff|apply Z.compare_lt_iff|apply Z.compare_gt_iff]; lia.
Qed.

Lemma loc_roundtrip (m : Z) (l : location) :
  loc_of_shr_record (shr_record_of_loc m l) = l /\
  shr_m (shr_record_of_loc m l) = m.
Proof. destruct l as [|[]]; split; reflexivity. Qed.

Lemma round_nearest_even_spec (q r d : Z) (l : location) :
  0 < d -> 0 <= r < d -> loc_spec l r d ->
  round_nearest_even q l = F64.half_even q r d.
Proof.
  intros Hd Hr Hl. unfold F64.half_even.
  destruct l as [|c]; simpl in Hl.
  - subst r. simpl. destruct d; first [lia|reflexivity].
  - destruct Hl as [_ <-]. reflexivity.
Qed.

Lemma half_even_near (q r d : Z) :
  0 < d -> 0 <= r < d ->
  q <= F64.half_even q r d <= q + 1 /\
  - d <= 2 * (F64.half_even q r d * d - (q * d + r)) <= d.
Proof.
  intros Hd Hr. unfold F64.half_even.
  destruct (Z.compare_spec (2 * r) d) as [H|H|H].
  - destruct (Z.even q); split; nia.
  - split; nia.
  - split; nia.
Qed.

Lemma shr_1_spec (q r d : Z) (l : location) :
  0 <= q -> 0 < d -> 0 <= r < d -> loc_spec l r d ->
  exists q' bit,
    q = 2 * q' + bit /\ 0 <= bit <= 1 /\
    shr_m (shr_1 (shr_record_of_loc q l)) = q' /\
    loc_spec (loc_of_shr_record (shr_1 (shr_record_of_loc q l)))
             (bit * d + r) (2 * d).
Proof.
  intros Hq Hd Hr Hl.
  destruct q as [|p|p]; [| |lia].
  - exists 0, 0. destruct l as [|[]]; simpl in *; repeat split; try lia;
      destruct Hl as [? Hl]; try apply Z.compare_lt_iff; try lia.
  - destruct p as [p|p|].
    + exists (Zpos p), 1. destruct l as [|[]]; simpl in Hl |- *;
        (split; [lia|]); (split; [lia|]); (split; [reflexivity|]).
      * subst r. split; [lia|]. apply Z.compare_eq_iff. lia.
      * destruct Hl as [? Hl]. split; [lia|]. apply Z.compare_gt_iff. lia.
      * destruct Hl as [? Hl]. split; [lia|]. apply Z.compare_gt_iff. lia.
      * destruct Hl as [? Hl]. split; [lia|]. apply Z.compare_gt_iff. lia.
    + exists (Zpos p), 0. destruct l as [|[]]; simpl in Hl |- *;
        (split; [lia|]); (split; [lia|]); (split; [reflexivity|]).
      * lia.
      * destruct Hl as [? Hl]. split; [lia|]. apply Z.compare_lt_iff. lia.
      * destruct Hl as [? Hl]. split; [lia|]. apply Z.compare_lt_iff. lia.
      * destruct Hl as [? Hl]. split; [lia|]. apply Z.compare_lt_iff. lia.
    + exists 0, 1. destruct l as [|[]]; simpl in Hl |- *;
        (split; [lia|]); (split; [lia|]); (split; [reflexivity|]).
      * subst r. split; [lia|]. apply Z.compare_eq_iff. lia.
      * destruct Hl as [? Hl]. split; [lia|]. apply Z.compare_gt_iff. lia.
      * destruct Hl as [? Hl]. split; [lia|]. apply Z.compare_gt_iff. lia.
      * destruct Hl as [? Hl]. split; [lia|]. apply Z.compare_gt_iff. lia.
Qed.

End Float_rounding.

Section Float_round_aux.

Local Open Scope Z_scope.

Lemma shr_fexp_small (q e : Z) (l : location) :
  2 ^ 52 <= q < 2 ^ 54 -> -1074 <= e ->
  shr_fexp 53 1024 q e l =
  if q <? 2 ^ 53 then (shr_record_of_loc q l, e)
  else (shr_1 (shr_record_of_loc q l), e + 1).
Proof.
  intros Hq He. unfold shr_fexp.
  destruct (Z.ltb_spec q (2 ^ 53)) as [Hlt|Hge].
  - rewrite (Zdigits2_unique q 53) by lia.
    unfold fexp, emin.
    replace (Z.max (53 + e - 53) (3 - 1024 - 53) - e) with 0 by lia.
    reflexivity.
  - rewrite (Zdigits2_unique q 54) by lia.
    unfold fexp, emin.
    replace (Z.max (54 + e - 53) (3 - 1024 - 53) - e) with 1 by lia.
    reflexivity.
Qed.

Lemma round_aux_small (q r d e' : Z) (l : location) :
  0 < d -> 0 <= r < d -> loc_spec l r d ->
  2 ^ 52 <= q < 2 ^ 54 -> -1074 <= e' <= 969 ->
  exists m e n m1,
    binary_round_aux 53 1024 false q e' l = S754_finite false m e /\
    0 <= n <= 1 /\
    - (d * 2 ^ n) <= 2 * (m1 * (d * 2 ^ n) - (q * d + r)) <= d * 2 ^ n /\
    2 ^ 52 <= m1 <= 2 ^ 53 /\
    2 ^ 52 * (d * 2 ^ n) <= q * d + r /\
    ((Zpos m = m1 /\ m1 < 2 ^ 53 /\ e = e' + n) \/
     (m1 = 2 ^ 53 /\ Zpos m = 2 ^ 52 /\ e = e' + n + 1)) /\
    (q < 2 ^ 53 -> n = 0).
Proof.
  intros Hd Hr Hl Hq He.
  (* the first shift *)
  assert (Hfirst : exists q1 R n l1 mrs,
             shr_fexp 53 1024 q e' l = (mrs, e' + n) /\
             shr_m mrs = q1 /\ loc_of_shr_record mrs = l1 /\
             0 <= n <= 1 /\ q * d + r = q1 * (d * 2 ^ n) + R /\
             0 <= R < d * 2 ^ n /\ loc_spec l1 R (d * 2 ^ n) /\
             2 ^ 52 <= q1 < 2 ^ 53 /\ (q < 2 ^ 53 -> n = 0)).
  { rewrite shr_fexp_small by lia.
    destruct (Z.ltb_spec q (2 ^ 53)) as [Hlt|Hge].
    - exists q, r, 0, l, (shr_record_of_loc q l).
      destruct (loc_roundtrip q l) as [E1 E2].
      rewrite Z.add_0_r, Z.pow_0_r, Z.mul_1_r. repeat split; auto; try lia.
    - destruct (shr_1_spec q r d l) as (q' & bit & Eq & Hbit & Em & Hl'); auto; try lia.
      exists q', (bit * d + r), 1, (loc_of_shr_record (shr_1 (shr_record_of_loc q l))),
        (shr_1 (shr_record_of_loc q l)).
      change (2 ^ 1) with 2. rewrite (Z.mul_comm d 2).
      repeat split; auto; try lia; nia. }
  destruct Hfirst
    as (q1 & R & n & l1 & mrs & E1 & Em & El & Hn & EN & HR & Hl1 & Hq1 & Hn0).
  assert (HD : 0 < d * 2 ^ n) by (destruct Hn; assert (n = 0 \/ n = 1) as [->| ->] by lia; lia).
  set (D := d * 2 ^ n) in *.
  pose proof (half_even_near q1 R D HD HR) as [Hm1 Hnear].
  assert (Hlow : 2 ^ 52 * D <= q * d + r) by nia.
  set (m1 := F64.half_even q1 R D) in *.
  unfold binary_round_aux. rewrite E1, Em, El.
  rewrite (round_nearest_even_spec q1 R D l1 HD HR Hl1). fold m1.
  rewrite shr_fexp_small by lia.
  destruct (Z.ltb_spec m1 (2 ^ 53)) as [Hlt|Hge].
  - cbn [shr_record_of_loc shr_m].
    destruct m1 as [|pm|pm] eqn:Epm; try lia.
    replace (e' + n <=? 1024 - 53) with true by (symmetry; apply Z.leb_le; lia).
    exists pm, (e' + n), n, (Zpos pm).
    repeat split; first [lia | exact Hn0 | left; repeat split; lia].
  - assert (Em1 : m1 = 2 ^ 53) by lia. rewrite Em1.
    cbn [shr_record_of_loc].
    change (shr_m (shr_1 {| shr_m := 2 ^ 53; shr_r := false; shr_s := false |}))
      with (2 ^ 52).
    change (2 ^ 52) with (Zpos (Z.to_pos (2 ^ 52))) at 1.
    cbv iota.
    replace (e' + n + 1 <=? 1024 - 53) with true by (symmetry; apply Z.leb_le; lia).
    exists (Z.to_pos (2 ^ 52)), (e' + n + 1), n, (2 ^ 53).
    rewrite <- Em1.
    repeat split; first [lia | exact Hn0 | right; rewrite Em1; repeat split].
Qed.

End Float_round_aux.

Section Float_div.

Local Open Scope Z_scope.

(** The quotient of two positive binary floats whose result is a normal
    number: the mantissa [mr] is a nearest integer to
    [m1 * 2 ^ s / (m2 * 2 ^ n)], on the grid [2 ^ ef]. *)
Lemma SFdiv_pos (m1 m2 : positive) (e1 e2 : Z) :
  let d1 := Zpos (digits2_pos m1) in
  let d2 := Zpos (digits2_pos m2) in
  let s := 53 - d1 + d2 in
  d1 - d2 <= 53 ->
  -1074 <= d1 + e1 - d2 - e2 - 53 <= 969 ->
  exists m e n mr,
    SFdiv 53 1024 (S754_finite false m1 e1) (S754_finite false m2 e2) =
      S754_finite false m e /\
    0 <= n <= 1 /\
    - (Zpos m2 * 2 ^ n) <= 2 * (mr * (Zpos m2 * 2 ^ n) - Zpos m1 * 2 ^ s)
      <= Zpos m2 * 2 ^ n /\
    2 ^ 52 <= mr <= 2 ^ 53 /\
    2 ^ 52 * (Zpos m2 * 2 ^ n) <= Zpos m1 * 2 ^ s /\
    ((Zpos m = mr /\ mr < 2 ^ 53 /\ e = d1 + e1 - d2 - e2 - 53 + n) \/
     (mr = 2 ^ 53 /\ Zpos m = 2 ^ 52 /\ e = d1 + e1 - d2 - e2 - 53 + n + 1)).
Proof.
  intros d1 d2 s Hd He.
  pose proof (digits2_pos_bounds m1) as [Hl1 Hh1].
  pose proof (digits2_pos_bounds m2) as [Hl2 Hh2].
  fold d1 in Hl1, Hh1. fold d2 in Hl2, Hh2.
  assert (Hd1 : 0 < d1) by (unfold d1; lia).
  assert (Hd2 : 0 < d2) by (unfold d2; lia).
  assert (Hs : 0 <= s) by (unfold s; lia).
  unfold SFdiv, SFdiv_core_binary. cbn [Zdigits2 xorb]. fold d1 d2.
  set (e' := Z.min (fexp 53 1024 (d1 + e1 - (d2 + e2))) (e1 - e2)).
  assert (Ee' : e' = d1 + e1 - d2 - e2 - 53).
  { unfold e', fexp, emin. lia. }
  assert (Es : e1 - e2 - e' = s) by (unfold s; lia).
  rewrite Es.
  set (m' := match s with
             | 0 => Zpos m1
             | Zpos _ => Z.shiftl (Zpos m1) s
             | Zneg _ => 0
             end).
  assert (Em' : m' = Zpos m1 * 2 ^ s).
  { unfold m'. destruct s as [|ps|ps] eqn:Eps; [simpl; lia| |lia].
    apply Z.shiftl_mul_pow2. lia. }
  pose proof (Z_div_mod m' (Zpos m2) eq_refl) as Hdiv.
  destruct (Z.div_eucl m' (Zpos m2)) as [q r]. destruct Hdiv as [Hqr Hr].
  (* the quotient has 53 or 54 bits *)
  assert (Hpow1 : 2 ^ (d1 - 1) * 2 ^ s = 2 ^ 52 * 2 ^ d2).
  { rewrite <- !Z.pow_add_r by lia. f_equal. unfold s. lia. }
  assert (Hpow2 : 2 ^ d1 * 2 ^ s = 2 ^ 54 * 2 ^ (d2 - 1)).
  { rewrite <- !Z.pow_add_r by lia. f_equal. unfold s. lia. }
  assert (Hps : 0 < 2 ^ s) by (apply Z.pow_pos_nonneg; lia).
  assert (Hq : 2 ^ 52 <= q < 2 ^ 54).
  { split.
    - assert (2 ^ 52 * Zpos m2 < Zpos m2 * (q + 1)); [|nia].
      assert (2 ^ 52 * 2 ^ d2 <= m') by (rewrite Em', <- Hpow1; nia). nia.
    - assert (Zpos m2 * q < 2 ^ 54 * Zpos m2); [|nia].
      assert (m' < 2 ^ 54 * 2 ^ (d2 - 1)) by (rewrite Em', <- Hpow2; nia). nia. }
  destruct (round_aux_small q r (Zpos m2) e' (new_location (Zpos m2) r))
    as (m & e & n & mr & E & Hn & Hnear & Hmr & Hlow & Hme & _); try lia.
  { apply new_location_spec; lia. }
  exists m, e, n, mr. rewrite E. split; [reflexivity|]. split; [exact Hn|].
  rewrite <- Em', Hqr, (Z.mul_comm (Zpos m2) q).
  split; [exact Hnear|]. split; [exact Hmr|]. split; [exact Hlow|].
  rewrite <- Ee'. exact Hme.
Qed.

End Float_div.

Section Int_truediv.

Local Open Scope Z_scope.

Lemma digits_le_53 (p : positive) :
  Zpos p < 2 ^ 53 -> Zpos (digits2_pos p) <= 53.
Proof.
  intros Hp. pose proof (digits2_pos_bounds p) as [Hl _].
  destruct (Z.le_gt_cases (Zpos (digits2_pos p)) 53) as [H|H]; [exact H|].
  assert (2 ^ 53 <= 2 ^ (Zpos (digits2_pos p) - 1)) by (apply Z.pow_le_mono_r; lia).
  lia.
Qed.

(** From "nearest on the grid [1/G]" to the integer part. *)
Lemma floor_of_nearest (a b G mr : Z) :
  0 <= a -> 0 < b -> 0 < G -> b < 2 * G ->
  - b <= 2 * (mr * b - a * G) <= b ->
  (a / b) * G <= mr < (a / b + 1) * G.
Proof.
  intros Ha Hb HG HbG Hnear.
  pose proof (Z_div_mod_eq_full a b) as Ea.
  pose proof (Z.mod_pos_bound a b Hb) as Hrho.
  set (k := a / b) in *. set (rho := a mod b) in *.
  split.
  - assert (b * (2 * (k * G) - 1) <= b * (2 * mr)) by nia.
    apply Z.mul_le_mono_pos_l in H; lia.
  - assert (b * (2 * mr) < b * (2 * ((k + 1) * G))) by nia.
    apply Z.mul_lt_mono_pos_l in H; lia.
Qed.

(** The quotient of two positive integers below [2^53], as a float: a
    53-bit mantissa, an exponent that is not positive, and the integer part
    of the exact quotient. *)
Lemma int_truediv_value (a b : Z) :
  0 < a < 2 ^ 53 -> 0 < b < 2 ^ 53 ->
  exists m e,
    int_truediv a b = Ok (S754_finite false m e) /\
    2 ^ 52 <= Zpos m < 2 ^ 53 /\ -105 <= e <= 0 /\
    Zpos m / 2 ^ (- e) = a / b.
Proof.
  intros Ha Hb.
  destruct b as [|pb|pb]; try lia.
  destruct a as [|pa|pa]; try lia.
  unfold int_truediv. cbn [Z.ltb Z.compare].
  change (Z.to_pos (Z.abs (Zpos pa))) with pa.
  change (Z.to_pos (Z.abs (Zpos pb))) with pb.
  pose proof (digits_le_53 pa ltac:(lia)) as Hd1.
  pose proof (digits_le_53 pb ltac:(lia)) as Hd2.
  assert (Hd1' : 0 < Zpos (digits2_pos pa)) by lia.
  assert (Hd2' : 0 < Zpos (digits2_pos pb)) by lia.
  destruct (SFdiv_pos pa pb 0 0) as (m & e & n & mr & E & Hn & Hnear & Hmr & Hlow & Hme);
    try lia.
  unfold F64.div, F64.prec, F64.emax. rewrite E.
  exists m, e. split; [reflexivity|].
  set (d1 := Zpos (digits2_pos pa)) in *. set (d2 := Zpos (digits2_pos pb)) in *.
  set (s := 53 - d1 + d2) in *.
  assert (Hsn : 0 <= s - n) by (unfold s; lia).
  assert (Epow : 2 ^ s = 2 ^ (s - n) * 2 ^ n).
  { rewrite <- Z.pow_add_r by lia. f_equal. lia. }
  set (G := 2 ^ (s - n)) in *.
  assert (HG : 0 < G) by (apply Z.pow_pos_nonneg; lia).
  assert (Hpn : 0 < 2 ^ n) by (apply Z.pow_pos_nonneg; lia).
  rewrite Epow in Hnear, Hlow.
  assert (HbG : Zpos pb < 2 * G).
  { assert (2 ^ n * (2 ^ 52 * Zpos pb) < 2 ^ n * (2 ^ 53 * G)) by nia.
    apply Z.mul_lt_mono_pos_l in H; lia. }
  assert (Hnear' : - Zpos pb <= 2 * (mr * Zpos pb - Zpos pa * G) <= Zpos pb).
  { split.
    - assert (2 ^ n * (- Zpos pb) <= 2 ^ n * (2 * (mr * Zpos pb - Zpos pa * G))) by nia.
      apply Z.mul_le_mono_pos_l in H; lia.
    - assert (2 ^ n * (2 * (mr * Zpos pb - Zpos pa * G)) <= 2 ^ n * Zpos pb) by nia.
      apply Z.mul_le_mono_pos_l in H; lia. }
  destruct (floor_of_nearest (Zpos pa) (Zpos pb) G mr) as [Hk1 Hk2]; try lia.
  set (k := Zpos pa / Zpos pb) in *.
  assert (Hk : 0 <= k) by (apply Z.div_pos; lia).
  destruct Hme as [(Em & Hlt & Ee)|(Emr & Em & Ee)].
  - rewrite Em, Ee. split; [lia|]. split; [unfold s in *; lia|].
    replace (- (d1 + 0 - d2 - 0 - 53 + n)) with (s - n) by (unfold s; lia).
    fold G. symmetry. apply (Z.div_unique mr G k (mr - k * G)); lia.
  - rewrite Em, Ee.
    assert (Hkb : k < 2 ^ 53).
    { assert (k * Zpos pb <= Zpos pa)
        by (unfold k; rewrite Z.mul_comm; apply Z.mul_div_le; lia). nia. }
    assert (Hs1 : 1 <= s - n).
    { destruct (Z.eq_dec (s - n) 0) as [E0|]; [|lia].
      unfold G in Hk1, Hk2. rewrite E0 in Hk1, Hk2. simpl in Hk1, Hk2. lia. }
    split; [lia|]. split; [unfold s in *; lia|].
    replace (- (d1 + 0 - d2 - 0 - 53 + n + 1)) with (s - n - 1) by (unfold s; lia).
    assert (EG : G = 2 * 2 ^ (s - n - 1)).
    { unfold G. replace (s - n) with (Z.succ (s - n - 1)) at 1 by lia.
      apply Z.pow_succ_r. lia. }
    assert (0 < 2 ^ (s - n - 1)) by (apply Z.pow_pos_nonneg; lia).
    symmetry.
    apply (Z.div_unique (2 ^ 52) (2 ^ (s - n - 1)) k (2 ^ 52 - k * 2 ^ (s - n - 1))); nia.
Qed.

Lemma int_truediv_floor (a b : Z) :
  0 <= a < 2 ^ 53 -> 0 < b < 2 ^ 53 ->
  exists f, int_truediv a b = Ok f /\ F64.trunc f = Ok (a / b).
Proof.
  intros Ha Hb.
  destruct (Z.eq_dec a 0) as [->|Hne].
  { destruct b; try lia. eexists. split; reflexivity. }
  destruct (int_truediv_value a b) as (m & e & E & _ & He & Ev); try lia.
  exists (S754_finite false m e). split; [exact E|].
  cbn [F64.trunc cond_Zopp]. f_equal. rewrite <- Ev.
  apply Z.shiftl_div_pow2. lia.
Qed.

End Int_truediv.

(** ** binary64: integers as floats, and a float divided by an integer *)

Section Float_of_int.

Local Open Scope Z_scope.

Lemma iter_xO (p k : positive) : Zpos (Pos.iter xO p k) = Zpos p * 2 ^ Zpos k.
Proof.
  induction k as [|k IH] using Pos.peano_ind.
  - simpl. lia.
  - rewrite Pos.iter_succ, Pos2Z.inj_succ, Z.pow_succ_r by lia.
    rewrite Pos2Z.inj_xO, IH. lia.
Qed.

(** An integer below [2^53] is a float: its mantissa is the integer
    shifted left to 53 bits. *)
Lemma of_Z_small (c : Z) :
  0 < c < 2 ^ 53 ->
  exists mc ec,
    F64.of_Z c = S754_finite false mc ec /\
    -52 <= ec <= 0 /\ Zpos mc = c * 2 ^ (- ec) /\
    2 ^ 52 <= Zpos mc < 2 ^ 53.
Proof.
  intros Hc. destruct c as [|p|p]; try lia.
  pose proof (digits2_pos_bounds p) as [Hl Hh].
  pose proof (digits_le_53 p ltac:(lia)) as Hd.
  set (d := Zpos (digits2_pos p)) in *.
  assert (Hd0 : 0 < d) by (unfold d; lia).
  unfold F64.of_Z, F64.prec, F64.emax, binary_normalize, binary_round.
  assert (Efexp : fexp 53 1024 (Zpos (digits2_pos p) + 0) = d - 53).
  { unfold fexp, emin. fold d. lia. }
  rewrite Efexp.
  assert (Hal : exists mz,
             shl_align p 0 (d - 53) = (mz, d - 53) /\
             Zpos mz = Zpos p * 2 ^ (53 - d)).
  { unfold shl_align. destruct (d - 53 - 0) as [|k|k] eqn:Ek; try lia.
    - exists p. split; [f_equal; lia|].
      replace (53 - d) with 0 by lia. simpl. lia.
    - exists (Pos.iter xO p k). split; [reflexivity|].
      rewrite iter_xO. f_equal. f_equal. lia. }
  destruct Hal as (mz & -> & Emz).
  assert (Hpow : 2 ^ (d - 1) * 2 ^ (53 - d) = 2 ^ 52).
  { rewrite <- Z.pow_add_r by lia. f_equal. lia. }
  assert (Hpow' : 2 ^ d * 2 ^ (53 - d) = 2 ^ 53).
  { rewrite <- Z.pow_add_r by lia. f_equal. lia. }
  assert (Hps : 0 < 2 ^ (53 - d)) by (apply Z.pow_pos_nonneg; lia).
  assert (Hmz : 2 ^ 52 <= Zpos mz < 2 ^ 53) by (rewrite Emz; nia).
  destruct (round_aux_small (Zpos mz) 0 1 (d - 53) loc_Exact)
    as (m & e & n & m1 & E & Hn & Hnear & Hm1 & _ & Hme & Hn0); try lia.
  { reflexivity. }
  rewrite E. assert (n = 0) by (apply Hn0; lia). subst n.
  rewrite Z.pow_0_r in Hnear.
  assert (m1 = Zpos mz) by lia.
  destruct Hme as [(Em & _ & Ee)|(Em1 & _)]; [|lia].
  exists m, e. split; [reflexivity|]. subst e.
  split; [lia|]. split; [|lia].
  rewrite Em, H, Emz. f_equal. f_equal. lia.
Qed.

Lemma float_of_int_small (c : Z) :
  0 < c < 2 ^ 53 ->
  exists mc ec,
    float_of_int c = Ok (S754_finite false mc ec) /\
    -52 <= ec <= 0 /\ Zpos mc = c * 2 ^ (- ec) /\
    2 ^ 52 <= Zpos mc < 2 ^ 53.
Proof.
  intros Hc. destruct (of_Z_small c Hc) as (mc & ec & E & H).
  exists mc, ec. unfold float_of_int. rewrite E. auto.
Qed.

Lemma digits_53 (m : positive) :
  2 ^ 52 <= Zpos m < 2 ^ 53 -> Zpos (digits2_pos m) = 53.
Proof. intros H. apply (Zdigits2_unique (Zpos m) 53); lia. Qed.

(** The integer part of a float below [2^53] divided by an integer is the
    integer part of the exact quotient. *)
Lemma float_div_int_floor (mx : positive) (ex c : Z) :
  2 ^ 52 <= Zpos mx < 2 ^ 53 -> -1000 <= ex <= 0 -> 0 < c < 2 ^ 53 ->
  exists f,
    py_truediv (VFloat (S754_finite false mx ex)) (VInt c) = Ok (VFloat f) /\
    F64.trunc f = Ok (Zpos mx / (c * 2 ^ (- ex))).
Proof.
  intros Hmx Hex Hc.
  destruct (float_of_int_small c Hc) as (mc & ec & Ec & Hec & Emc & Hmc).
  unfold py_truediv. cbn [as_num mbind result_bind to_float].
  rewrite Ec. cbn [mbind result_bind F64.is_zero].
  pose proof (digits_53 mx Hmx) as Dx. pose proof (digits_53 mc Hmc) as Dc.
  destruct (SFdiv_pos mx mc ex ec)
    as (m & e & n & mr & E & Hn & Hnear & Hmr & Hlow & Hme);
    rewrite ?Dx, ?Dc; try lia.
  rewrite Dx, Dc in Hnear, Hlow, Hme.
  replace (53 - 53 + 53) with 53 in Hnear, Hlow by lia.
  unfold F64.div, F64.prec, F64.emax. rewrite E.
  eexists. split; [reflexivity|]. cbn [F64.trunc cond_Zopp]. f_equal.
  (* scales *)
  set (Gx := 2 ^ (- ex)). set (Gc := 2 ^ (- ec)) in *.
  set (ef := 53 + ex - 53 - ec - 53 + n) in *.
  assert (Hef : ef <= 0) by (unfold ef; lia).
  set (G := 2 ^ (- ef)).
  assert (HGx : 0 < Gx) by (apply Z.pow_pos_nonneg; lia).
  assert (HGc : 0 < Gc) by (apply Z.pow_pos_nonneg; lia).
  assert (HG : 0 < G) by (apply Z.pow_pos_nonneg; lia).
  assert (Hpn : 0 < 2 ^ n) by (apply Z.pow_pos_nonneg; lia).
  assert (Escale : 2 ^ 53 * Gx = G * Gc * 2 ^ n).
  { unfold Gx, G, Gc. rewrite <- !Z.pow_add_r by lia. f_equal. unfold ef. lia. }
  set (B := c * Gx).
  assert (HB : 0 < B) by (unfold B; nia).
  (* the mantissa is a nearest integer to mx * G / B *)
  assert (Hnear' : - B <= 2 * (mr * B - Zpos mx * G) <= B).
  { assert (K : Gc * 2 ^ n * (2 * (mr * B - Zpos mx * G)) =
                Gx * (2 * (mr * (Zpos mc * 2 ^ n) - Zpos mx * 2 ^ 53))).
    { unfold B. rewrite Emc. fold Gc. nia. }
    assert (K' : Gc * 2 ^ n * B = Gx * (Zpos mc * 2 ^ n)).
    { unfold B. rewrite Emc. fold Gc. nia. }
    assert (P : 0 < Gc * 2 ^ n) by nia.
    split.
    - assert (Gc * 2 ^ n * (- B) <= Gc * 2 ^ n * (2 * (mr * B - Zpos mx * G))) by nia.
      apply Z.mul_le_mono_pos_l in H; lia.
    - assert (Gc * 2 ^ n * (2 * (mr * B - Zpos mx * G)) <= Gc * 2 ^ n * B) by nia.
      apply Z.mul_le_mono_pos_l in H; lia. }
  assert (HBG : B < 2 * G).
  { assert (K : Gc * 2 ^ n * (2 ^ 52 * B) <= Gc * 2 ^ n * (Zpos mx * G)).
    { unfold B. rewrite Emc in Hlow. fold Gc in Hlow. nia. }
    apply Z.mul_le_mono_pos_l in K; [|nia]. nia. }
  destruct (floor_of_nearest (Zpos mx) B G mr) as [Hk1 Hk2]; try lia.
  fold B. set (k := Zpos mx / B) in *.
  destruct Hme as [(Em & _ & Ee)|(Emr & Em & Ee)].
  - rewrite Em, Ee. fold ef.
    replace ef with (- - ef) by lia.
    rewrite Z.shiftl_div_pow2, Z.opp_involutive by lia. fold G.
    symmetry. apply (Z.div_unique mr G k (mr - k * G)); lia.
  - rewrite Em, Ee. fold ef.
    destruct (Z.eq_dec ef 0) as [E0|Hne].
    + rewrite E0. change (Z.shiftl (2 ^ 52) (0 + 1)) with (2 ^ 53).
      unfold G in Hk1, Hk2. rewrite E0 in Hk1, Hk2. simpl in Hk1, Hk2. lia.
    + replace (ef + 1) with (- (- ef - 1)) by lia.
      rewrite Z.shiftl_div_pow2, Z.opp_involutive by lia.
      assert (EG : G = 2 * 2 ^ (- ef - 1)).
      { unfold G. replace (- ef) with (Z.succ (- ef - 1)) at 1 by lia.
        apply Z.pow_succ_r. lia. }
      assert (0 < 2 ^ (- ef - 1)) by (apply Z.pow_pos_nonneg; lia).
      symmetry.
      apply (Z.div_unique (2 ^ 52) (2 ^ (- ef - 1)) k (2 ^ 52 - k * 2 ^ (- ef - 1)));
        nia.
Qed.

End Float_of_int.

(** ** DatasetSizer: [getRefactoredData] and [getMaximumSamples] *)

Lemma truediv_int_floor (a b : Z) :
  0 <= a < 2 ^ 53 -> 0 < b < 2 ^ 53 ->
  (q ← py_truediv (VInt a) (VInt b); py_int q) = Ok (a / b).
Proof.
  intros Ha Hb.
  destruct (int_truediv_floor a b Ha Hb) as (f & E & Et).
  unfold py_truediv, py_int, mbind, result_bind. simpl. rewrite E. exact Et.
Qed.

Lemma getRefactoredData_floor (cfg : Config) (cat n : Z) :
  cfg !! "cat" = Some (VInt cat) ->
  0 < cat < 2 ^ 53 -> 0 <= n < 2 ^ 53 ->
  getRefactoredData cfg (VInt n) = Ok (n / cat * cat).
Proof.
  intros Hc Hcat Hn. unfold getRefactoredData, lookup_attr. rewrite Hc.
  pose proof (truediv_int_floor n cat Hn Hcat) as E.
  unfold mbind, result_bind in *.
  destruct (py_truediv (VInt n) (VInt cat)) as [q|e]; [|discriminate].
  rewrite E. reflexivity.
Qed.

Lemma refactored_bounds (cat n : Z) :
  0 < cat -> 0 <= n -> 0 <= n / cat * cat <= n.
Proof.
  intros Hcat Hn. pose proof (Z.mul_div_le n cat Hcat).
  assert (0 <= n / cat) by (apply Z.div_pos; lia). nia.
Qed.



(** ** DatasetSizer: the overrides *)

Lemma override_as_num (v : pyval) :
  is_override v = true -> as_num v = Ok (NInt (override_value v)).
Proof. destruct v; try discriminate; reflexivity. Qed.

Lemma clamped_override (v : pyval) (m : Z) :
  is_override v = true -> is_override (clamped v m) = true.
Proof.
  intros Hv. unfold clamped. destruct (is_False v); [reflexivity|].
  destruct (override_value v >? m); [reflexivity|exact Hv].
Qed.

Lemma override_gt (v : pyval) (m : Z) :
  is_override v = true -> py_gt v (VInt m) = Ok (override_value v >? m).
Proof.
  intros Hv. unfold py_gt, mbind, result_bind.
  rewrite (override_as_num v Hv). reflexivity.
Qed.

Lemma clamp_spec (name : string) (cfg : Config) (v : pyval) (m : Z) :
  cfg !! name = Some v -> is_override v = true ->
  clamp name (Ok m) cfg = Ok (<[name := clamped v m]> cfg, warning name v m).
Proof.
  intros Hl Hv. unfold clamp, lookup_attr, clamped, warning, mbind, result_bind.
  rewrite Hl. destruct (is_False v); [reflexivity|].
  rewrite (override_gt v m Hv).
  destruct (override_value v >? m); [reflexivity|].
  rewrite (insert_id cfg name v Hl). reflexivity.
Qed.

Lemma override_product (a b c : pyval) :
  is_override a = true -> is_override b = true -> is_override c = true ->
  (ab ← py_mul a b; data ← py_mul ab c; py_int data) =
  Ok (override_value a * override_value b * override_value c).
Proof.
  intros Ha Hb Hc. unfold py_mul, py_int, mbind, result_bind.
  rewrite (override_as_num a Ha), (override_as_num b Hb). simpl.
  rewrite (override_as_num c Hc). reflexivity.
Qed.


(** ** DatasetSizer on concrete inputs *)






(** ** SampleBuilder: how many samples the loops produce *)

Lemma index_of_In (c : string) (l : list string) :
  In c l -> exists n, index_of c l = Ok n /\ (n < List.length l)%nat.
Proof.
  induction l as [|x l IH]; intros Hin; [destruct Hin|].
  cbn [index_of]. destruct (String.eqb_spec x c) as [->|Hne].
  - exists O. split; [reflexivity|simpl; lia].
  - destruct Hin as [->|Hin]; [congruence|].
    destruct (IH Hin) as (n & -> & Hn). exists (S n).
    split; [reflexivity|simpl; lia].
Qed.

Lemma grown_refl classes a : grown classes 0 a a.
Proof. unfold grown. rewrite !Nat.add_0_r. auto. Qed.

Lemma grown_trans classes j k a a' a'' :
  grown classes j a a' -> grown classes k a' a'' -> grown classes (j + k) a a''.
Proof.
  intros (H1 & H2 & H3 & H4) (K1 & K2 & K3 & K4).
  unfold grown. rewrite K1, K2, K3, H1, H2, H3.
  repeat split; try lia. auto.
Qed.

Lemma grown_keeping_refl P classes a : grown_keeping P classes 0 a a.
Proof. split; [apply grown_refl|auto]. Qed.

Lemma grown_keeping_trans P classes j k a a' a'' :
  grown_keeping P classes j a a' -> grown_keeping P classes k a' a'' ->
  grown_keeping P classes (j + k) a a''.
Proof.
  intros (G1 & K1) (G2 & K2). split; [eapply grown_trans; eassumption|auto].
Qed.

Lemma fold_result_grown {A S : Type} (P : ndarray -> Prop)
    (classes : list string) (k : nat)
    (proj : S -> acc) (f : A -> S -> result S) (l : list A) :
  (forall x s, In x l ->
     exists s', f x s = Ok s' /\ grown_keeping P classes k (proj s) (proj s')) ->
  forall s, exists s',
    fold_result f l s = Ok s' /\
    grown_keeping P classes (List.length l * k) (proj s) (proj s').
Proof.
  induction l as [|x l IH]; intros Hf s.
  - exists s. split; [reflexivity|apply grown_keeping_refl].
  - destruct (Hf x s) as (s1 & E1 & G1); [left; reflexivity|].
    destruct (IH (fun y t Hy => Hf y t (or_intror Hy)) s1) as (s2 & E2 & G2).
    exists s2. split.
    + cbn [fold_result]. rewrite E1. exact E2.
    + cbn [List.length Nat.mul]. eapply grown_keeping_trans; eassumption.
Qed.

Lemma length_range (n : Z) : List.length (range n) = Z.to_nat n.
Proof. unfold range. rewrite length_map, length_seq. reflexivity. Qed.

Lemma In_range (x n : Z) : In x (range n) -> 0 <= x < n.
Proof.
  unfold range. intros H. apply in_map_iff in H. destruct H as (k & <- & Hk).
  apply in_seq in Hk. lia.
Qed.

Section Loop_counts.

Variable mfcc : Config -> list Z -> Z -> ndarray.
Variable cfg : Config.
Variable C : Corpus.
Variable classes : list string.

(** What is known of the windows that are cut, [good], and of the feature
    matrix of such a window, [P]; it is never empty. *)
Variable good : list Z -> Prop.
Variable P : ndarray -> Prop.
Hypothesis mfcc_good :
  forall sample rate, good sample ->
  data (mfcc cfg sample rate) <> [] /\ P (mfcc cfg sample rate).

Variable step : Z.
Hypothesis cfg_step : cfg !! "step" = Some (VInt step).

Lemma append_sample_grown rate sample c a :
  In c classes -> good sample ->
  exists a', append_sample mfcc cfg classes rate sample c a = Ok a' /\
             grown_keeping P classes 1 a a'.
Proof.
  intros Hc Hgood. unfold append_sample, np_amin, np_amax.
  destruct (mfcc_good sample rate Hgood) as [Hne HP].
  destruct (data (mfcc cfg sample rate)) as [|x l]; [congruence|].
  destruct (index_of_In c classes Hc) as (n & En & Hn).
  cbn [mbind result_bind]. rewrite En. cbn [mbind result_bind].
  eexists. split; [reflexivity|].
  unfold grown_keeping, grown. cbn [acc_X acc_y acc_out].
  rewrite !length_app. cbn [List.length].
  repeat split.
  - intros Hall. apply Forall_app. split; [exact Hall|].
    constructor; [exact Hn|constructor].
  - intros Hall. apply Forall_app. split; [exact Hall|].
    constructor; [exact HP|constructor].
Qed.

Lemma window_ok wav start :
  window cfg wav start = Ok (py_slice wav start (start + step)).
Proof. unfold window, lookup_attr. rewrite cfg_step. reflexivity. Qed.

Section Fixed.

Variable samples_per_file : Z.
Hypothesis cfg_samples : cfg !! "max_tack_samples" = Some (VInt samples_per_file).

Variable files : Z.

(** Every class has [files] files, each readable and not empty, and the
    windows cut from them are good. *)
Hypothesis files_present :
  forall c i, In c classes -> (i < Z.to_nat files)%nat ->
  exists f rate wav,
    nth_error (files_of (df C) c) i = Some f /\
    wavs C !! f = Some (rate, wav) /\ wav <> [] /\
    forall k, 0 <= k < samples_per_file -> good (py_slice wav k (k + step)).

Lemma fixed_file_grown i c a :
  In c classes -> (i < Z.to_nat files)%nat ->
  exists a', fixed_file mfcc cfg C classes i c a = Ok a' /\
             grown_keeping P classes (Z.to_nat samples_per_file) a a'.
Proof.
  intros Hc Hi.
  destruct (files_present c i Hc Hi) as (f & rate & wav & Ef & Ew & Hne & Hgood).
  unfold fixed_file, read_wav, lookup_attr. rewrite Ef. cbn [mbind result_bind].
  rewrite Ew. cbn [mbind result_bind fst snd].
  replace (llen wav =? 0) with false.
  2:{ symmetry. apply Z.eqb_neq. unfold llen. destruct wav; [congruence|simpl; lia]. }
  rewrite cfg_samples. cbn [mbind result_bind py_index].
  destruct (fold_result_grown P classes 1 (fun s => s)
              (fixed_window mfcc cfg classes rate wav c)
              (range samples_per_file)) with (s := a) as (a' & E & G).
  { intros x s Hx. unfold fixed_window. rewrite window_ok. cbn [mbind result_bind].
    apply append_sample_grown; [exact Hc|]. apply Hgood, In_range, Hx. }
  exists a'. split; [exact E|].
  rewrite length_range, Nat.mul_1_r in G. exact G.
Qed.

Lemma fixed_loop_grown :
  exists a, fixed_loop mfcc cfg C classes files = Ok a /\
    grown_keeping P classes
      (Z.to_nat files * (List.length classes * Z.to_nat samples_per_file)) acc0 a.
Proof.
  unfold fixed_loop.
  destruct (fold_result_grown P classes
              (List.length classes * Z.to_nat samples_per_file) (fun s => s)
              (fun file_index a =>
                 fold_result (fixed_file mfcc cfg C classes (Z.to_nat file_index))
                   classes a)
              (range files)) with (s := acc0) as (a & E & G).
  { intros x s Hx.
    apply (fold_result_grown P classes (Z.to_nat samples_per_file) (fun s => s)).
    intros c t Hc. apply fixed_file_grown; [exact Hc|].
    apply In_range in Hx. lia. }
  exists a. split; [exact E|]. rewrite length_range in G. exact G.
Qed.

End Fixed.

Section Random.

(** Every class has a file, and every file of a class is readable and
    longer than one window, and the windows cut from it are good. *)
Hypothesis class_files :
  forall c, In c classes -> files_of (df C) c <> [].
Hypothesis files_readable :
  forall c f, In c classes -> In f (files_of (df C) c) ->
  exists rate wav,
    wavs C !! f = Some (rate, wav) /\ step < llen wav /\ 0 < llen wav /\
    forall k, 0 <= k < llen wav - step -> good (py_slice wav k (k + step)).

Lemma random_choice_In l g :
  l <> [] -> exists f g', random_choice l g = Ok (f, g') /\ In f l.
Proof.
  intros Hl. destruct l as [|x l']; [congruence|].
  unfold random_choice, next_draw. eexists _, _. split; [reflexivity|].
  set (l := x :: l'). set (d := draws g (used g)).
  apply nth_In.
  assert (0 < llen l) by (unfold llen, l; simpl; lia).
  pose proof (Z.mod_pos_bound d (llen l) H). unfold llen in *. lia.
Qed.

Lemma random_sample_grown c a g :
  In c classes ->
  exists a' g', random_sample mfcc cfg C classes c (a, g) = Ok (a', g') /\
                grown_keeping P classes 1 a a'.
Proof.
  intros Hc. unfold random_sample.
  destruct (random_choice_In (files_of (df C) c) g (class_files c Hc))
    as (f & g1 & E1 & Hf).
  rewrite E1. cbn [mbind result_bind fst snd].
  destruct (files_readable c f Hc Hf) as (rate & wav & Ew & Hlen & Hpos & Hgood).
  unfold read_wav. rewrite Ew. cbn [mbind result_bind fst snd].
  replace (llen wav =? 0) with false by (symmetry; apply Z.eqb_neq; lia).
  unfold lookup_attr. rewrite cfg_step. cbn [mbind result_bind].
  unfold py_sub. cbn [as_num mbind result_bind py_index].
  unfold random_randint.
  replace (llen wav - step <=? 0) with false by (symmetry; apply Z.leb_gt; lia).
  unfold next_draw. cbn [mbind result_bind fst snd].
  rewrite window_ok. cbn [mbind result_bind].
  match goal with
  | |- context [append_sample _ _ _ ?r (py_slice wav ?k _) _ _] =>
      assert (Hk : 0 <= k < llen wav - step)
        by (pose proof (Z.mod_pos_bound (draws g1 (used g1)) (llen wav - step - 0));
            lia);
      destruct (append_sample_grown r (py_slice wav k (k + step)) c a Hc
                  (Hgood k Hk)) as (a' & E & G)
  end.
  rewrite E. cbn [mbind result_bind]. eexists _, _. split; [reflexivity|exact G].
Qed.

Lemma random_loop_grown rounds g :
  exists a g', random_loop mfcc cfg C classes rounds g = Ok (a, g') /\
    grown_keeping P classes (Z.to_nat rounds * List.length classes) acc0 a.
Proof.
  unfold random_loop.
  destruct (fold_result_grown P classes (List.length classes * 1) fst
              (fun (_ : Z) s => fold_result (random_sample mfcc cfg C classes) classes s)
              (range rounds)) with (s := (acc0, g)) as ([a g'] & E & G).
  { intros x s _. apply (fold_result_grown P classes 1 fst).
    intros c [t h] Hc.
    destruct (random_sample_grown c t h Hc) as (a' & g' & E & G).
    exists (a', g'). split; [exact E|exact G]. }
  exists a, g'. split; [exact E|].
  rewrite length_range, Nat.mul_1_r in G. exact G.
Qed.

End Random.

End Loop_counts.

(** ** SampleBuilder: the number of files and of rounds *)

Lemma two_divisions_floor (d b c : Z) :
  0 <= d < 2 ^ 53 -> 0 < b < 2 ^ 53 -> 0 < c < 2 ^ 53 ->
  (q ← py_truediv (VInt d) (VInt b); q' ← py_truediv q (VInt c); py_int q') =
  Ok (d / b / c).
Proof.
  intros Hd Hb Hc.
  destruct (Z.eq_dec d 0) as [->|Hne].
  - destruct (float_of_int_small c Hc) as (mc & ec & Ec & _).
    destruct b as [|pb|pb]; try lia.
    assert (E1 : py_truediv (VInt 0) (VInt (Zpos pb)) = Ok (VFloat (S754_zero false)))
      by reflexivity.
    rewrite E1. cbn [mbind result_bind].
    unfold py_truediv. cbn [as_num mbind result_bind to_float].
    rewrite Ec. reflexivity.
  - destruct (int_truediv_value d b) as (m & e & E & Hm & He & Ev); try lia.
    destruct (float_div_int_floor m e c Hm ltac:(lia) Hc) as (f & Ef & Et).
    assert (E1 : py_truediv (VInt d) (VInt b) = Ok (VFloat (S754_finite false m e))).
    { unfold py_truediv. cbn [as_num mbind result_bind]. rewrite E. reflexivity. }
    rewrite E1. cbn [mbind result_bind]. rewrite Ef.
    cbn [mbind result_bind py_int as_num]. rewrite Et. f_equal.
    assert (0 < 2 ^ (- e)) by (apply Z.pow_pos_nonneg; lia).
    rewrite (Z.mul_comm c), <- Z.div_div by lia. rewrite Ev. reflexivity.
Qed.

Lemma fixed_file_count_floor (cfg : Config) (d samples_per_file cat : Z) :
  cfg !! "max_tack_samples" = Some (VInt samples_per_file) ->
  cfg !! "cat" = Some (VInt cat) ->
  0 <= d < 2 ^ 53 -> 0 < samples_per_file < 2 ^ 53 -> 0 < cat < 2 ^ 53 ->
  fixed_file_count cfg d = Ok (d / samples_per_file / cat).
Proof.
  intros Hs Hc Hd Hsp Hcat. unfold fixed_file_count, lookup_attr.
  rewrite Hs, Hc. cbn [mbind result_bind].
  pose proof (two_divisions_floor d samples_per_file cat Hd Hsp Hcat) as E.
  unfold mbind, result_bind in E |- *.
  destruct (py_truediv (VInt d) (VInt samples_per_file)); [exact E|discriminate].
Qed.

Lemma random_round_count_floor (d : Z) :
  0 <= d < 2 ^ 53 -> random_round_count d = Ok (d / 3).
Proof.
  intros Hd. unfold random_round_count.
  apply (truediv_int_floor d 3); lia.
Qed.

(** ** SampleBuilder: the number of samples of the two builders *)

(** X1. Fixed mode, for a request [n] and a configuration whose [cat] and
    [max_tack_samples] are positive integers below [2^53]: with
    [d = floor(n / cat) * cat] the refactored request, the loop enumerates
    [files = floor(d / max_tack_samples / cat)] file indices; when every
    class has that many readable files that are not empty, it ends with
    [files * classCount * max_tack_samples] pairs, prints nothing, and
    every class index is an index into the class list. That number is [d]
    when the class count is [cat] and [max_tack_samples * cat] divides
    [d]. *)
Theorem fixed_mode_sample_count
    (mfcc : Config -> list Z -> Z -> ndarray) (cfg : Config) (C : Corpus)
    (classes : list string) (step samples_per_file cat n : Z) :
  (forall sample rate, data (mfcc cfg sample rate) <> []) ->
  cfg !! "step" = Some (VInt step) ->
  cfg !! "max_tack_samples" = Some (VInt samples_per_file) ->
  cfg !! "cat" = Some (VInt cat) ->
  0 < samples_per_file < 2 ^ 53 -> 0 < cat < 2 ^ 53 -> 0 <= n < 2 ^ 53 ->
  let d := n / cat * cat in
  let files := d / samples_per_file / cat in
  (forall c i, In c classes -> (i < Z.to_nat files)%nat ->
     exists f rate wav,
       nth_error (files_of (df C) c) i = Some f /\
       wavs C !! f = Some (rate, wav) /\ wav <> []) ->
  getFixedSamples mfcc cfg C classes (VInt n) =
    (a ← fixed_loop mfcc cfg C classes files; assemble cfg a) /\
  exists a,
    fixed_loop mfcc cfg C classes files = Ok a /\
    grown classes
      (Z.to_nat files * (List.length classes * Z.to_nat samples_per_file))
      acc0 a /\
    (llen classes = cat -> d mod (samples_per_file * cat) = 0 ->
     llen (acc_X a) = d).
Proof.
  intros Hmfcc Hstep Hsamples Hcat Hsp Hc Hn d files Hfiles.
  pose proof (refactored_bounds cat n ltac:(lia) ltac:(lia)) as Hd. fold d in Hd.
  assert (Ed : getRefactoredData cfg (VInt n) = Ok d)
    by (apply getRefactoredData_floor; assumption).
  assert (Ef : fixed_file_count cfg d = Ok files)
    by (apply fixed_file_count_floor; try assumption; lia).
  split.
  { unfold getFixedSamples. rewrite Ed. cbn [mbind result_bind]. rewrite Ef.
    reflexivity. }
  destruct (fixed_loop_grown mfcc cfg C classes (fun _ => True) (fun _ => True)
              (fun sample rate _ => conj (Hmfcc sample rate) I) step Hstep
              samples_per_file Hsamples files) as (a & E & G & _).
  { intros c i Hc' Hi. destruct (Hfiles c i Hc' Hi) as (f & rate & wav & H1 & H2 & H3).
    exists f, rate, wav. auto. }
  exists a. split; [exact E|]. split; [exact G|].
  intros Hclasses Hdiv. destruct G as (GX & _).
  unfold llen in *. rewrite GX. cbn [acc0 acc_X List.length].
  assert (Hfiles0 : 0 <= files).
  { unfold files. apply Z.div_pos; [apply Z.div_pos|]; lia. }
  rewrite Nat.add_0_l, !Nat2Z.inj_mul, !Z2Nat.id, Hclasses by lia.
  apply Z.mod_divide in Hdiv; [|lia]. destruct Hdiv as [k Hk].
  unfold files. rewrite Z.div_div by lia. rewrite Hk, Z.div_mul by lia. lia.
Qed.

(** X2. Random mode runs [floor(d / 3)] rounds, whatever the category
    count is, with [d = floor(n / cat) * cat], and draws one sample of
    every class in each round: when every class has a file and every file
    is longer than one window, it ends with [floor(d / 3) * classCount]
    pairs and prints nothing. *)
Theorem random_mode_sample_count
    (mfcc : Config -> list Z -> Z -> ndarray) (cfg : Config) (C : Corpus)
    (classes : list string) (step cat n : Z) (g : rng) :
  (forall sample rate, data (mfcc cfg sample rate) <> []) ->
  cfg !! "step" = Some (VInt step) ->
  cfg !! "cat" = Some (VInt cat) ->
  0 < cat < 2 ^ 53 -> 0 <= n < 2 ^ 53 ->
  (forall c, In c classes -> files_of (df C) c <> []) ->
  (forall c f, In c classes -> In f (files_of (df C) c) ->
     exists rate wav,
       wavs C !! f = Some (rate, wav) /\ step < llen wav /\ 0 < llen wav) ->
  let d := n / cat * cat in
  getRandomSamples mfcc cfg C classes (VInt n) g =
    (s ← random_loop mfcc cfg C classes (d / 3) g;
     r ← assemble cfg (fst s); Ok (r, snd s)) /\
  exists a g',
    random_loop mfcc cfg C classes (d / 3) g = Ok (a, g') /\
    grown classes (Z.to_nat (d / 3) * List.length classes) acc0 a.
Proof.
  intros Hmfcc Hstep Hcat Hc Hn Hclass Hread d.
  pose proof (refactored_bounds cat n ltac:(lia) ltac:(lia)) as Hd. fold d in Hd.
  split.
  - unfold getRandomSamples.
    rewrite (getRefactoredData_floor cfg cat n Hcat Hc Hn). fold d.
    cbn [mbind result_bind].
    rewrite (random_round_count_floor d) by lia. reflexivity.
  - destruct (random_loop_grown mfcc cfg C classes (fun _ => True) (fun _ => True)
                (fun sample rate _ => conj (Hmfcc sample rate) I) step Hstep Hclass)
      with (rounds := d / 3) (g := g) as (a & g' & E & G & _).
    { intros c f Hc' Hf. destruct (Hread c f Hc' Hf) as (rate & wav & H1 & H2 & H3).
      exists rate, wav. auto. }
    exists a, g'. split; assumption.
Qed.

(** ** SampleBuilder: what the loops keep *)

Lemma fold_result_inv {A S : Type} (P : S -> Prop) (f : A -> S -> result S)
    (l : list A) :
  (forall x s s', In x l -> P s -> f x s = Ok s' -> P s') ->
  forall s s', P s -> fold_result f l s = Ok s' -> P s'.
Proof.
  induction l as [|x l IH]; intros Hf s s' Hs E.
  - cbn [fold_result] in E. injection E as <-. exact Hs.
  - cbn [fold_result] in E. destruct (f x s) as [s1|e] eqn:E1; [|discriminate].
    cbn [mbind result_bind] in E.
    apply (IH (fun y t t' Hy => Hf y t t' (or_intror Hy)) s1 s'); [|exact E].
    apply (Hf x s s1); [left; reflexivity|exact Hs|exact E1].
Qed.

Lemma fold_result_app {A S B : Type} (proj : S -> list B) (g : A -> list B)
    (f : A -> S -> result S) (l : list A) :
  (forall x s s', In x l -> f x s = Ok s' -> proj s' = proj s ++ g x) ->
  forall s s', fold_result f l s = Ok s' -> proj s' = proj s ++ flat_map g l.
Proof.
  induction l as [|x l IH]; intros Hf s s' E.
  - cbn [fold_result] in E. injection E as <-. cbn [flat_map].
    rewrite app_nil_r. reflexivity.
  - cbn [fold_result] in E. destruct (f x s) as [s1|e] eqn:E1; [|discriminate].
    cbn [mbind result_bind] in E.
    rewrite (IH (fun y t t' Hy => Hf y t t' (or_intror Hy)) s1 s' E).
    rewrite (Hf x s s1 (or_introl eq_refl) E1). cbn [flat_map].
    rewrite app_assoc. reflexivity.
Qed.

(** *** The smallest and the largest element of a matrix *)

Lemma np_lt_fin (x y : Q) : np_lt (NFin x) (NFin y) = negb (Qle_bool y x).
Proof. reflexivity. Qed.

Lemma Qle_bool_false (x y : Q) : Qle_bool x y = false -> (y <= x)%Q.
Proof.
  intros E. apply Qlt_le_weak, Qnot_le_lt. intros Hle.
  apply Qle_bool_iff in Hle. congruence.
Qed.

Lemma fold_minimum (l : list npfloat) (x : Q) :
  Forall is_fin l ->
  exists m,
    fold_left np_minimum l (NFin x) = NFin m /\
    In (NFin m) (NFin x :: l) /\
    (m <= x)%Q /\
    Forall (fun v => exists q, v = NFin q /\ (m <= q)%Q) l.
Proof.
  revert x. induction l as [|v l IH]; intros x Hl.
  - exists x. repeat split; [left; reflexivity|apply Qle_refl|constructor].
  - inversion Hl as [|? ? [y ->] Hl']; subst.
    cbn [fold_left]. unfold np_minimum at 2. cbn [np_is_nan].
    rewrite np_lt_fin. destruct (Qle_bool x y) eqn:E; cbn [negb].
    + apply Qle_bool_iff in E.
      destruct (IH x Hl') as (m & Em & Hin & Hx & Hall).
      exists m. split; [exact Em|]. split.
      { destruct Hin as [Hin|Hin]; [left; exact Hin|right; right; exact Hin]. }
      split; [exact Hx|]. constructor; [|exact Hall].
      exists y. split; [reflexivity|]. eapply Qle_trans; eassumption.
    + apply Qle_bool_false in E.
      destruct (IH y Hl') as (m & Em & Hin & Hy & Hall).
      exists m. split; [exact Em|]. split; [right; exact Hin|].
      split; [eapply Qle_trans; eassumption|].
      constructor; [|exact Hall]. exists y. split; [reflexivity|exact Hy].
Qed.

Lemma fold_maximum (l : list npfloat) (x : Q) :
  Forall is_fin l ->
  exists m,
    fold_left np_maximum l (NFin x) = NFin m /\
    In (NFin m) (NFin x :: l) /\
    (x <= m)%Q /\
    Forall (fun v => exists q, v = NFin q /\ (q <= m)%Q) l.
Proof.
  revert x. induction l as [|v l IH]; intros x Hl.
  - exists x. repeat split; [left; reflexivity|apply Qle_refl|constructor].
  - inversion Hl as [|? ? [y ->] Hl']; subst.
    cbn [fold_left]. unfold np_maximum at 2. cbn [np_is_nan].
    rewrite np_lt_fin. destruct (Qle_bool y x) eqn:E; cbn [negb].
    + apply Qle_bool_iff in E.
      destruct (IH x Hl') as (m & Em & Hin & Hx & Hall).
      exists m. split; [exact Em|]. split.
      { destruct Hin as [Hin|Hin]; [left; exact Hin|right; right; exact Hin]. }
      split; [exact Hx|]. constructor; [|exact Hall].
      exists y. split; [reflexivity|]. eapply Qle_trans; eassumption.
    + apply Qle_bool_false in E.
      destruct (IH y Hl') as (m & Em & Hin & Hy & Hall).
      exists m. split; [exact Em|]. split; [right; exact Hin|].
      split; [eapply Qle_trans; eassumption|].
      constructor; [|exact Hall]. exists y. split; [reflexivity|exact Hy].
Qed.

(** [np.amin] and [np.amax] of a matrix of rationals: an element of the
    matrix that bounds all of them. *)
Lemma amin_amax_fin (X : ndarray) :
  Forall is_fin (data X) -> data X <> [] ->
  exists lo hi,
    np_amin X = Ok (NFin lo) /\ np_amax X = Ok (NFin hi) /\
    In (NFin lo) (data X) /\ In (NFin hi) (data X) /\
    Forall (between lo hi) (data X).
Proof.
  intros Hfin Hne. unfold np_amin, np_amax.
  destruct (data X) as [|v l]; [congruence|].
  inversion Hfin as [|? ? [x ->] Hl]; subst.
  destruct (fold_minimum l x Hl) as (lo & Elo & Ilo & Hlo & Alo).
  destruct (fold_maximum l x Hl) as (hi & Ehi & Ihi & Hhi & Ahi).
  exists lo, hi. rewrite Elo, Ehi. repeat split; try assumption.
  constructor.
  - exists x. repeat split; assumption.
  - rewrite Forall_forall in *. intros v Hv.
    destruct (Alo v Hv) as (q & -> & Hq1). destruct (Ahi _ Hv) as (q' & Eq & Hq2).
    injection Eq as <-. exists q. repeat split; assumption.
Qed.

Lemma between_weaken (lo hi lo' hi' : Q) (v : npfloat) :
  (lo' <= lo)%Q -> (hi <= hi')%Q -> between lo hi v -> between lo' hi' v.
Proof.
  intros Hlo Hhi (q & -> & H1 & H2). exists q.
  repeat split; eapply Qle_trans; eassumption.
Qed.

Lemma all_values_snoc (a : acc) (X : ndarray) l m M o :
  all_values (Acc (acc_X a ++ [X]) l m M o) = all_values a ++ data X.
Proof.
  unfold all_values. cbn [acc_X]. rewrite map_app, concat_app. cbn [map concat].
  rewrite app_nil_r. reflexivity.
Qed.

Section Kept.

Variable mfcc : Config -> list Z -> Z -> ndarray.
Variable cfg : Config.
Variable C : Corpus.
Variable classes : list string.

Lemma append_sample_inv rate sample c a a' :
  append_sample mfcc cfg classes rate sample c a = Ok a' ->
  exists lo hi label,
    np_amin (mfcc cfg sample rate) = Ok lo /\
    np_amax (mfcc cfg sample rate) = Ok hi /\
    index_of c classes = Ok label /\
    a' = Acc (acc_X a ++ [mfcc cfg sample rate]) (acc_y a ++ [label])
             (py_min lo (acc_min a)) (py_max hi (acc_max a)) (acc_out a).
Proof.
  unfold append_sample. intros E.
  destruct (np_amin (mfcc cfg sample rate)) as [lo|]; [|discriminate].
  destruct (np_amax (mfcc cfg sample rate)) as [hi|]; [|discriminate].
  cbn [mbind result_bind] in E.
  destruct (index_of c classes) as [label|]; [|discriminate].
  cbn [mbind result_bind] in E. injection E as <-.
  exists lo, hi, label. repeat split.
Qed.

(** The loops of both builders keep every property of the accumulator that
    skipping a file and appending a sample keep. *)
Lemma fixed_loop_inv (P : acc -> Prop) :
  (forall a, P a -> P (skip_file a)) ->
  (forall rate sample c a a',
     P a -> append_sample mfcc cfg classes rate sample c a = Ok a' -> P a') ->
  forall files a,
    P acc0 -> fixed_loop mfcc cfg C classes files = Ok a -> P a.
Proof.
  intros Hskip Happ files a H0 E. unfold fixed_loop in E.
  revert E. apply fold_result_inv; [|exact H0].
  intros i s s' _ Hs. apply fold_result_inv; [|exact Hs].
  clear s s' Hs. intros c t t' _ Ht E. unfold fixed_file in E.
  destruct (nth_error _ _) as [f|]; [|discriminate].
  cbn [mbind result_bind] in E.
  destruct (read_wav C f) as [w|]; [|discriminate].
  cbn [mbind result_bind] in E.
  destruct (llen (snd w) =? 0); [injection E as <-; apply Hskip, Ht|].
  destruct (lookup_attr cfg "max_tack_samples") as [m|]; [|discriminate].
  cbn [mbind result_bind] in E.
  destruct (py_index m) as [n|]; [|discriminate].
  cbn [mbind result_bind] in E.
  revert E. apply fold_result_inv; [|exact Ht].
  intros k u u' _ Hu E. unfold fixed_window in E.
  destruct (window cfg (snd w) k) as [sample|]; [|discriminate].
  cbn [mbind result_bind] in E. eapply Happ; eassumption.
Qed.

Lemma random_loop_inv (P : acc -> Prop) :
  (forall a, P a -> P (skip_file a)) ->
  (forall rate sample c a a',
     P a -> append_sample mfcc cfg classes rate sample c a = Ok a' -> P a') ->
  forall rounds g a g',
    P acc0 -> random_loop mfcc cfg C classes rounds g = Ok (a, g') -> P a.
Proof.
  intros Hskip Happ rounds g a g' H0 E. unfold random_loop in E.
  change (P (fst (a, g'))).
  revert E. apply (fold_result_inv (fun s => P (fst s))); [|exact H0].
  intros i s s' _ Hs. apply (fold_result_inv (fun s => P (fst s))); [|exact Hs].
  clear s s' Hs. intros c [t h] s' _ Ht E. cbn [fst] in Ht.
  unfold random_sample in E.
  destruct (random_choice _ h) as [r|]; [|discriminate].
  cbn [mbind result_bind] in E.
  destruct (read_wav C (fst r)) as [w|]; [|discriminate].
  cbn [mbind result_bind] in E.
  destruct (llen (snd w) =? 0); [injection E as <-; apply Hskip, Ht|].
  destruct (lookup_attr cfg "step") as [step|]; [|discriminate].
  cbn [mbind result_bind] in E.
  destruct (py_sub _ step) as [high|]; [|discriminate].
  cbn [mbind result_bind] in E.
  destruct (py_index high) as [high'|]; [|discriminate].
  cbn [mbind result_bind] in E.
  destruct (random_randint 0 high' (snd r)) as [i'|]; [|discriminate].
  cbn [mbind result_bind] in E.
  destruct (window cfg (snd w) (fst i')) as [sample|]; [|discriminate].
  cbn [mbind result_bind] in E.
  destruct (append_sample _ _ _ _ _ _ _) as [a'|] eqn:Ea; [|discriminate].
  cbn [mbind result_bind] in E. injection E as <-. cbn [fst].
  eapply Happ; eassumption.
Qed.

(** *** The running minimum and maximum *)

Hypothesis mfcc_fin :
  forall sample rate, Forall is_fin (data (mfcc cfg sample rate)).

Lemma tracked_append rate sample c a a' :
  tracked a -> append_sample mfcc cfg classes rate sample c a = Ok a' ->
  tracked a'.
Proof.
  intros Ht E.
  destruct (append_sample_inv _ _ _ _ _ E) as (lo & hi & label & Elo & Ehi & _ & ->).
  set (X := mfcc cfg sample rate) in *.
  assert (Hne : data X <> []).
  { unfold np_amin in Elo. destruct (data X); [discriminate|congruence]. }
  destruct (amin_amax_fin X (mfcc_fin sample rate) Hne)
    as (m & M & Em & EM & Im & IM & Hall).
  rewrite Em in Elo. rewrite EM in Ehi. injection Elo as <-. injection Ehi as <-.
  right. unfold tracked in Ht. rewrite all_values_snoc. cbn [acc_min acc_max].
  destruct Ht as [(EX & -> & ->)|(l & h & -> & -> & Il & Ih & Hold)].
  - exists m, M.
    assert (Ev : all_values a = []) by (unfold all_values; rewrite EX; reflexivity).
    rewrite Ev. cbn [app]. repeat split; assumption.
  - unfold py_min, py_max. rewrite !np_lt_fin.
    destruct (Qle_bool m l) eqn:E1; destruct (Qle_bool h M) eqn:E2; cbn [negb];
      [apply Qle_bool_iff in E1; apply Qle_bool_iff in E2
      |apply Qle_bool_iff in E1; apply Qle_bool_false in E2
      |apply Qle_bool_false in E1; apply Qle_bool_iff in E2
      |apply Qle_bool_false in E1; apply Qle_bool_false in E2];
      eexists _, _; (split; [reflexivity|]); (split; [reflexivity|]);
      (split; [apply in_or_app; first [left; assumption | right; assumption]|]);
      (split; [apply in_or_app; first [left; assumption | right; assumption]|]);
      apply Forall_app; split;
      (eapply List.Forall_impl; [|eassumption]); intros v;
      apply between_weaken; first [assumption | apply Qle_refl].
Qed.

Lemma tracked_acc0 : tracked acc0.
Proof. left. repeat split. Qed.

End Kept.

(** ** SampleBuilder: the assembled arrays *)

Lemma np_stack_uniform (h w : nat) (l : list ndarray) :
  l <> [] ->
  Forall (fun x => shape x = [h; w] /\ List.length (data x) = (h * w)%nat) l ->
  np_stack l = Ok (NdArray [List.length l; h; w] (concat (map data l))) /\
  List.length (concat (map data l)) = (List.length l * (h * w))%nat.
Proof.
  intros Hne Hall. split.
  - destruct l as [|x l']; [congruence|]. unfold np_stack.
    inversion Hall as [|? ? [Hx _] Hl']; subst.
    replace (forallb (fun b => shape_eqb (shape x) (shape b)) l') with true.
    + rewrite Hx. reflexivity.
    + symmetry. apply forallb_forall. intros b Hb.
      rewrite List.Forall_forall in Hl'. destruct (Hl' b Hb) as [Hb' _].
      unfold shape_eqb. apply bool_decide_eq_true. congruence.
  - clear Hne. induction Hall as [|x l' [_ Hx] _ IH]; [reflexivity|].
    cbn [map concat List.length]. rewrite length_app, Hx, IH. lia.
Qed.

Lemma assemble_ok (cfg : Config) (a : acc) (h w : nat) (cat : Z) :
  uniform h w a -> acc_X a <> [] ->
  cfg !! "cat" = Some (VInt cat) -> 0 <= cat ->
  Forall (fun label => (label < Z.to_nat cat)%nat) (acc_y a) ->
  assemble cfg a =
  Ok (Samples
        (NdArray [List.length (acc_X a); h; w; 1%nat]
           (map (normalize (acc_min a) (acc_max a)) (all_values a)))
        (NdArray [List.length (acc_y a); Z.to_nat cat]
           (concat (map (one_hot (Z.to_nat cat)) (acc_y a))))
        (acc_min a) (acc_max a) (acc_out a)).
Proof.
  intros Hu Hne Hcat Hpos Hy. unfold assemble.
  destruct (np_stack_uniform h w (acc_X a) Hne Hu) as [-> Hlen].
  cbn [mbind result_bind]. unfold shape_at, np_map. cbn [shape data nth_error].
  cbn [mbind result_bind]. unfold np_reshape. cbn [data size_of fold_right].
  rewrite length_map, Hlen.
  replace (List.length (acc_X a) * (h * (w * (1 * 1))))%nat
    with (List.length (acc_X a) * (h * w))%nat by lia.
  rewrite Nat.eqb_refl. cbn [mbind result_bind].
  unfold lookup_attr. rewrite Hcat. cbn [mbind result_bind py_index].
  unfold to_categorical.
  replace (cat <? 0) with false by (symmetry; apply Z.ltb_ge; lia).
  replace (forallb (fun label => (label <? Z.to_nat cat)%nat) (acc_y a)) with true.
  - reflexivity.
  - symmetry. apply forallb_forall. intros label Hl.
    rewrite List.Forall_forall in Hy. apply Nat.ltb_lt, Hy, Hl.
Qed.

Lemma assemble_inv (cfg : Config) (a : acc) (s : samples) :
  assemble cfg a = Ok s ->
  acc_X a <> [] /\
  data (samples_X s) = map (normalize (acc_min a) (acc_max a)) (all_values a) /\
  config_min s = acc_min a /\ config_max s = acc_max a /\
  printed s = acc_out a.
Proof.
  unfold assemble. intros E.
  destruct (np_stack (acc_X a)) as [X|] eqn:EX; [|discriminate].
  cbn [mbind result_bind] in E.
  assert (HX : acc_X a <> [] /\ data X = all_values a).
  { unfold np_stack in EX. destruct (acc_X a) as [|x l] eqn:Ea.
    - injection EX as <-. discriminate E.
    - split; [discriminate|].
      destruct (forallb _ l); [|discriminate]. injection EX as <-.
      unfold all_values. rewrite Ea. reflexivity. }
  destruct HX as [Hne HX].
  destruct (shape_at _ 0) as [n0|]; [|discriminate]. cbn [mbind result_bind] in E.
  destruct (shape_at _ 1) as [n1|]; [|discriminate]. cbn [mbind result_bind] in E.
  destruct (shape_at _ 2) as [n2|]; [|discriminate]. cbn [mbind result_bind] in E.
  unfold np_reshape in E.
  destruct (Nat.eqb _ _); [|discriminate]. cbn [mbind result_bind] in E.
  destruct (lookup_attr cfg "cat") as [c|]; [|discriminate].
  cbn [mbind result_bind] in E.
  destruct (py_index c) as [k|]; [|discriminate]. cbn [mbind result_bind] in E.
  destruct (to_categorical (acc_y a) k) as [y|]; [|discriminate].
  cbn [mbind result_bind] in E. injection E as <-.
  cbn [samples_X config_min config_max printed data np_map].
  rewrite HX. repeat split. exact Hne.
Qed.

(** *** Normalisation *)

Lemma Qsign_pos (q : Q) : (0 < q)%Q -> Qsign q = Gt.
Proof.
  unfold Qlt, Qsign. cbn [Qnum Qden]. intros H. apply Z.compare_gt_iff. lia.
Qed.

Lemma Qsign_zero (q : Q) : (q == 0)%Q -> Qsign q = Eq.
Proof.
  unfold Qeq, Qsign. cbn [Qnum Qden]. intros H. apply Z.compare_eq_iff. lia.
Qed.

Lemma normalize_fin (lo hi q : Q) :
  normalize (NFin lo) (NFin hi) (NFin q) = np_div (NFin (q - lo)) (NFin (hi - lo)).
Proof. reflexivity. Qed.

Lemma normalize_unit (lo hi : Q) (v : npfloat) :
  (lo < hi)%Q -> between lo hi v ->
  between 0 1 (normalize (NFin lo) (NFin hi) v).
Proof.
  intros Hlt (q & -> & H1 & H2). rewrite normalize_fin. unfold np_div.
  assert (Hd : (0 < hi - lo)%Q) by (apply (Qlt_minus_iff lo hi); exact Hlt).
  rewrite (Qsign_pos _ Hd).
  exists ((q - lo) / (hi - lo))%Q. split; [reflexivity|]. split.
  - apply Qle_shift_div_l; [exact Hd|]. rewrite Qmult_0_l.
    apply (Qle_minus_iff lo q). exact H1.
  - apply Qle_shift_div_r; [exact Hd|]. rewrite Qmult_1_l.
    apply Qplus_le_l. exact H2.
Qed.

Lemma normalize_nan (lo hi : Q) (v : npfloat) :
  (lo == hi)%Q -> between lo hi v -> normalize (NFin lo) (NFin hi) v = NNaN.
Proof.
  intros Heq (q & -> & H1 & H2). rewrite normalize_fin. unfold np_div.
  assert (Hq : (q == lo)%Q).
  { apply Qle_antisym; [rewrite Heq; exact H2|exact H1]. }
  rewrite (Qsign_zero (hi - lo)), (Qsign_zero (q - lo)); [reflexivity| |].
  - rewrite Hq. unfold Qminus. apply Qplus_opp_r.
  - rewrite Heq. unfold Qminus. apply Qplus_opp_r.
Qed.

(** ** SampleBuilder: normalisation *)

Lemma getFixedSamples_inv mfcc cfg C classes datasets s :
  getFixedSamples mfcc cfg C classes datasets = Ok s ->
  exists d files a,
    getRefactoredData cfg datasets = Ok d /\
    fixed_file_count cfg d = Ok files /\
    fixed_loop mfcc cfg C classes files = Ok a /\
    assemble cfg a = Ok s.
Proof.
  unfold getFixedSamples. intros E.
  destruct (getRefactoredData cfg datasets) as [d|] eqn:E1; [|discriminate].
  cbn [mbind result_bind] in E.
  destruct (fixed_file_count cfg d) as [files|] eqn:E2; [|discriminate].
  cbn [mbind result_bind] in E.
  destruct (fixed_loop mfcc cfg C classes files) as [a|] eqn:E3; [|discriminate].
  cbn [mbind result_bind] in E. exists d, files, a. repeat split; assumption.
Qed.

Lemma getRandomSamples_inv mfcc cfg C classes datasets g s g' :
  getRandomSamples mfcc cfg C classes datasets g = Ok (s, g') ->
  exists d rounds a,
    getRefactoredData cfg datasets = Ok d /\
    random_round_count d = Ok rounds /\
    random_loop mfcc cfg C classes rounds g = Ok (a, g') /\
    assemble cfg a = Ok s.
Proof.
  unfold getRandomSamples. intros E.
  destruct (getRefactoredData cfg datasets) as [d|] eqn:E1; [|discriminate].
  cbn [mbind result_bind] in E.
  destruct (random_round_count d) as [rounds|] eqn:E2; [|discriminate].
  cbn [mbind result_bind] in E.
  destruct (random_loop mfcc cfg C classes rounds g) as [[a h]|] eqn:E3;
    [|discriminate].
  cbn [mbind result_bind fst snd] in E.
  destruct (assemble cfg a) as [r|] eqn:Er; [|discriminate].
  cbn [mbind result_bind] in E. injection E as <- <-.
  exists d, rounds, a. repeat split; assumption.
Qed.

Lemma assembled_normalized (cfg : Config) (a : acc) (s : samples) :
  tracked a -> assemble cfg a = Ok s ->
  exists lo hi,
    config_min s = NFin lo /\ config_max s = NFin hi /\
    In (NFin lo) (all_values a) /\ In (NFin hi) (all_values a) /\
    Forall (between lo hi) (all_values a) /\
    data (samples_X s) = map (normalize (NFin lo) (NFin hi)) (all_values a) /\
    ((lo < hi)%Q -> Forall (between 0 1) (data (samples_X s))) /\
    ((lo == hi)%Q -> Forall (eq NNaN) (data (samples_X s))).
Proof.
  intros Ht E.
  destruct (assemble_inv cfg a s E) as (Hne & Hd & Hmin & Hmax & _).
  destruct Ht as [(EX & _)|(lo & hi & Elo & Ehi & Ilo & Ihi & Hall)];
    [congruence|].
  exists lo, hi. rewrite Hmin, Hmax, Hd, Elo, Ehi.
  repeat split; try assumption.
  - intros Hlt. apply Forall_map.
    eapply List.Forall_impl; [|exact Hall]. intros v. apply normalize_unit, Hlt.
  - intros Heq. apply Forall_map.
    eapply List.Forall_impl; [|exact Hall]. intros v Hv.
    symmetry. apply normalize_nan; assumption.
Qed.


(** ** SampleBuilder: what fixed mode returns *)

Lemma py_slice_full (wav : list Z) (k step : Z) :
  0 <= k -> 0 <= step -> k + step <= llen wav ->
  List.length (py_slice wav k (k + step)) = Z.to_nat step.
Proof.
  intros Hk Hs Hlen. unfold py_slice.
  replace (k + step <? 0) with false by (symmetry; apply Z.ltb_ge; lia).
  rewrite (Z.min_l (k + step)), (Z.min_l k) by lia.
  rewrite length_firstn, length_skipn. unfold llen in Hlen. lia.
Qed.

Section Fixed_mode.

Variable mfcc : Config -> list Z -> Z -> ndarray.
Variable cfg : Config.
Variable C : Corpus.
Variable classes : list string.
Variables step samples_per_file cat : Z.
Variables h w : nat.

(** A window of [step] values gives a matrix of [h] rows and [w] columns
    that is not empty. *)
Hypothesis mfcc_shape :
  forall sample rate, List.length sample = Z.to_nat step ->
  shape (mfcc cfg sample rate) = [h; w] /\
  List.length (data (mfcc cfg sample rate)) = (h * w)%nat.
Hypothesis matrix_not_empty : (0 < h * w)%nat.

Hypothesis cfg_step : cfg !! "step" = Some (VInt step).
Hypothesis step_nonneg : 0 <= step.
Hypothesis cfg_samples : cfg !! "max_tack_samples" = Some (VInt samples_per_file).
Hypothesis cfg_cat : cfg !! "cat" = Some (VInt cat).
Hypothesis samples_range : 0 < samples_per_file < 2 ^ 53.
Hypothesis cat_range : 0 < cat < 2 ^ 53.

Variable files : Z.

(** Every class has [files] files, each readable and long enough for all
    its windows to be full. *)
Hypothesis files_long :
  forall c i, In c classes -> (i < Z.to_nat files)%nat ->
  exists f rate wav,
    nth_error (files_of (df C) c) i = Some f /\
    wavs C !! f = Some (rate, wav) /\
    0 < llen wav /\ samples_per_file - 1 + step <= llen wav.

Lemma fixed_loop_uniform :
  exists a,
    fixed_loop mfcc cfg C classes files = Ok a /\
    grown classes
      (Z.to_nat files * (List.length classes * Z.to_nat samples_per_file))
      acc0 a /\
    uniform h w a.
Proof.
  destruct (fixed_loop_grown mfcc cfg C classes
              (fun sample => List.length sample = Z.to_nat step)
              (fun x => shape x = [h; w] /\ List.length (data x) = (h * w)%nat))
    with (step := step) (samples_per_file := samples_per_file) (files := files)
    as (a & E & G & K); try assumption.
  - intros sample rate Hlen. split; [|apply mfcc_shape, Hlen].
    destruct (mfcc_shape sample rate Hlen) as [_ Hd].
    destruct (data (mfcc cfg sample rate)); [simpl in Hd; lia|discriminate].
  - intros c i Hc Hi.
    destruct (files_long c i Hc Hi) as (f & rate & wav & Ef & Ew & Hpos & Hlen).
    exists f, rate, wav. repeat split; try assumption.
    + destruct wav; [unfold llen in Hpos; simpl in Hpos; lia|discriminate].
    + intros k Hk. apply py_slice_full; lia.
  - exists a. repeat split; try assumption; try apply G.
    apply K. constructor.
Qed.

End Fixed_mode.

(** X4. Fixed mode returns, and with the expected shapes, under these
    conditions: the feature matrix of a full window is [h] by [w] and not
    empty; [max_tack_samples] and [cat] are positive integers below [2^53];
    at least one file index is enumerated; there are classes, not more
    than [cat]; every class has that many files, each with at least
    [max_tack_samples - 1 + step] values. Then [X] has the shape
    [(N, h, w, 1)] and [y] the shape [(N, cat)] with
    [N = files * classCount * max_tack_samples], and nothing is printed. *)
Theorem getFixedSamples_returns
    (mfcc : Config -> list Z -> Z -> ndarray) (cfg : Config) (C : Corpus)
    (classes : list string) (step samples_per_file cat n : Z) (h w : nat) :
  (forall sample rate, List.length sample = Z.to_nat step ->
     shape (mfcc cfg sample rate) = [h; w] /\
     List.length (data (mfcc cfg sample rate)) = (h * w)%nat) ->
  (0 < h * w)%nat ->
  cfg !! "step" = Some (VInt step) -> 0 <= step ->
  cfg !! "max_tack_samples" = Some (VInt samples_per_file) ->
  cfg !! "cat" = Some (VInt cat) ->
  0 < samples_per_file < 2 ^ 53 -> 0 < cat < 2 ^ 53 -> 0 <= n < 2 ^ 53 ->
  let files := n / cat * cat / samples_per_file / cat in
  let N := (Z.to_nat files * (List.length classes * Z.to_nat samples_per_file))%nat in
  0 < files -> classes <> [] -> llen classes <= cat ->
  (forall c i, In c classes -> (i < Z.to_nat files)%nat ->
     exists f rate wav,
       nth_error (files_of (df C) c) i = Some f /\
       wavs C !! f = Some (rate, wav) /\
       0 < llen wav /\ samples_per_file - 1 + step <= llen wav) ->
  exists s,
    getFixedSamples mfcc cfg C classes (VInt n) = Ok s /\
    shape (samples_X s) = [N; h; w; 1%nat] /\
    shape (samples_y s) = [N; Z.to_nat cat] /\
    printed s = [].
Proof.
  intros Hshape Hhw Hstep Hs0 Hsamples Hcat Hsp Hc Hn files N Hfiles Hclasses
    Hle Hlong.
  pose proof (refactored_bounds cat n ltac:(lia) ltac:(lia)) as Hd.
  destruct (fixed_loop_uniform mfcc cfg C classes step samples_per_file h w
              Hshape Hhw Hstep Hs0 Hsamples files Hlong)
    as (a & E & (GX & Gy & Gout & Glab) & Hu).
  fold N in GX, Gy. cbn [acc0 acc_X acc_y acc_out List.length Nat.add] in *.
  assert (HN : (0 < N)%nat).
  { unfold N. destruct classes; [congruence|]. cbn [List.length].
    apply Nat.mul_pos_pos; [lia|]. apply Nat.mul_pos_pos; lia. }
  assert (Hne : acc_X a <> []).
  { intros Ha. rewrite Ha in GX. simpl in GX. lia. }
  assert (Hy : Forall (fun label => (label < Z.to_nat cat)%nat) (acc_y a)).
  { eapply List.Forall_impl; [|apply Glab; constructor].
    intros label Hl. unfold llen in Hle. cbn beta in Hl. lia. }
  eexists. split.
  { unfold getFixedSamples.
    rewrite (getRefactoredData_floor cfg cat n Hcat Hc Hn).
    cbn [mbind result_bind].
    rewrite (fixed_file_count_floor cfg _ samples_per_file cat Hsamples Hcat)
      by lia.
    cbn [mbind result_bind]. fold files. rewrite E. cbn [mbind result_bind].
    apply (assemble_ok cfg a h w cat Hu Hne Hcat); [lia|exact Hy]. }
  cbn [samples_X samples_y printed shape]. rewrite GX, Gy, Gout.
  repeat split.
Qed.

(** X5. A request too small for one file per class makes both builders
    raise: with no sample gathered, [X] is an array of shape [(0,)] and
    [X.shape[1]] is an [IndexError]. Fixed mode needs
    [max_tack_samples * cat] samples for that, random mode 3. *)
Theorem small_request_raises
    (mfcc : Config -> list Z -> Z -> ndarray) (cfg : Config) (C : Corpus)
    (classes : list string) (samples_per_file cat n : Z) :
  cfg !! "max_tack_samples" = Some (VInt samples_per_file) ->
  cfg !! "cat" = Some (VInt cat) ->
  0 < samples_per_file < 2 ^ 53 -> 0 < cat < 2 ^ 53 -> 0 <= n < 2 ^ 53 ->
  (n < samples_per_file * cat ->
   getFixedSamples mfcc cfg C classes (VInt n) = Raise IndexError) /\
  (n / cat * cat < 3 ->
   forall g, getRandomSamples mfcc cfg C classes (VInt n) g = Raise IndexError).
Proof.
  intros Hsamples Hcat Hsp Hc Hn.
  pose proof (refactored_bounds cat n ltac:(lia) ltac:(lia)) as Hd.
  split.
  - intros Hsmall. unfold getFixedSamples.
    rewrite (getRefactoredData_floor cfg cat n Hcat Hc Hn).
    cbn [mbind result_bind].
    rewrite (fixed_file_count_floor cfg _ samples_per_file cat Hsamples Hcat)
      by lia.
    cbn [mbind result_bind].
    rewrite Z.div_div, Z.div_small by lia. reflexivity.
  - intros Hsmall g. unfold getRandomSamples.
    rewrite (getRefactoredData_floor cfg cat n Hcat Hc Hn).
    cbn [mbind result_bind].
    rewrite (random_round_count_floor (n / cat * cat)) by lia.
    cbn [mbind result_bind].
    rewrite Z.div_small by lia. reflexivity.
Qed.

(** ** SampleBuilder: the class indices *)

Lemma class_index_ok (classes : list string) (c : string) (n : nat) :
  index_of c classes = Ok n -> class_index classes c = n.
Proof. unfold class_index. intros ->. reflexivity. Qed.

Lemma index_of_app (pre rest : list string) (c : string) :
  ~ In c pre -> index_of c (pre ++ c :: rest) = Ok (List.length pre).
Proof.
  induction pre as [|x pre IH]; intros Hnot.
  - cbn [app index_of List.length]. rewrite String.eqb_refl. reflexivity.
  - cbn [app index_of List.length].
    destruct (String.eqb_spec x c) as [->|Hne]; [exfalso; apply Hnot; left; reflexivity|].
    rewrite IH; [reflexivity|]. intros Hin. apply Hnot. right. exact Hin.
Qed.

Lemma class_index_positions (pre post : list string) :
  List.NoDup (pre ++ post) ->
  map (class_index (pre ++ post)) post = seq (List.length pre) (List.length post).
Proof.
  revert pre. induction post as [|c post IH]; intros pre Hnd; [reflexivity|].
  cbn [map seq List.length]. f_equal.
  - apply class_index_ok, index_of_app.
    apply List.NoDup_remove_2 in Hnd. intros Hin. apply Hnd.
    apply in_or_app. left. exact Hin.
  - specialize (IH (pre ++ [c])). rewrite <- app_assoc in IH. cbn [app] in IH.
    rewrite IH by exact Hnd. rewrite length_app. cbn [List.length].
    f_equal. lia.
Qed.

Lemma flat_map_singleton {A B : Type} (x : B) (l : list A) :
  flat_map (fun _ => [x]) l = repeat x (List.length l).
Proof. induction l as [|y l IH]; [reflexivity|]. cbn. rewrite IH. reflexivity. Qed.

Lemma flat_map_constant {A B : Type} (x : list B) (l : list A) :
  flat_map (fun _ => x) l = concat (repeat x (List.length l)).
Proof. induction l as [|y l IH]; [reflexivity|]. cbn. rewrite IH. reflexivity. Qed.

Lemma fixed_loop_labels
    (mfcc : Config -> list Z -> Z -> ndarray) (cfg : Config) (C : Corpus)
    (classes : list string) (samples_per_file files : Z) (a : acc) :
  cfg !! "max_tack_samples" = Some (VInt samples_per_file) ->
  (forall c i, In c classes -> (i < Z.to_nat files)%nat ->
     exists f rate wav,
       nth_error (files_of (df C) c) i = Some f /\
       wavs C !! f = Some (rate, wav) /\ wav <> []) ->
  fixed_loop mfcc cfg C classes files = Ok a ->
  acc_y a = fixed_labels classes (Z.to_nat samples_per_file) (Z.to_nat files).
Proof.
  intros Hsamples Hfiles E.
  assert (Hwindow : forall rate wav c k s s',
            fixed_window mfcc cfg classes rate wav c k s = Ok s' ->
            acc_y s' = acc_y s ++ [class_index classes c]).
  { intros rate wav c k s s' Ew. unfold fixed_window in Ew.
    destruct (window cfg wav k) as [sample|]; [|discriminate].
    cbn [mbind result_bind] in Ew.
    destruct (append_sample_inv _ _ _ _ _ _ _ _ Ew)
      as (lo & hi & label & _ & _ & El & ->).
    cbn [acc_y]. rewrite (class_index_ok _ _ _ El). reflexivity. }
  assert (Hfile : forall i c s s', In i (range files) -> In c classes ->
            fixed_file mfcc cfg C classes (Z.to_nat i) c s = Ok s' ->
            acc_y s' =
            acc_y s ++ repeat (class_index classes c) (Z.to_nat samples_per_file)).
  { intros i c s s' Hi Hc Ef0. apply In_range in Hi.
    destruct (Hfiles c (Z.to_nat i) Hc ltac:(lia))
      as (f & rate & wav & Ef & Ew & Hne).
    unfold fixed_file, read_wav, lookup_attr in Ef0. rewrite Ef in Ef0.
    cbn [mbind result_bind] in Ef0. rewrite Ew in Ef0.
    cbn [mbind result_bind fst snd] in Ef0.
    replace (llen wav =? 0) with false in Ef0.
    2:{ symmetry. apply Z.eqb_neq. unfold llen.
        destruct wav; [congruence|simpl; lia]. }
    rewrite Hsamples in Ef0. cbn [mbind result_bind py_index] in Ef0.
    rewrite (fold_result_app acc_y (fun _ => [class_index classes c])
               (fixed_window mfcc cfg classes rate wav c) (range samples_per_file)
               (fun k t t' _ => Hwindow rate wav c k t t') s s' Ef0).
    rewrite flat_map_singleton, length_range. reflexivity. }
  unfold fixed_loop in E. unfold fixed_labels.
  rewrite (fold_result_app acc_y
             (fun _ : Z => flat_map
                (fun c => repeat (class_index classes c) (Z.to_nat samples_per_file))
                classes)
             (fun file_index a =>
                fold_result (fixed_file mfcc cfg C classes (Z.to_nat file_index))
                  classes a)
             (range files)) with (s := acc0) (s' := a); [| |exact E].
  - cbn [acc0 acc_y app]. rewrite flat_map_constant, length_range. reflexivity.
  - intros i s s' Hi Ei.
    apply (fold_result_app acc_y
             (fun c => repeat (class_index classes c) (Z.to_nat samples_per_file))
             (fixed_file mfcc cfg C classes (Z.to_nat i)) classes
             (fun c t t' Hc => Hfile i c t t' Hi Hc) s s' Ei).
Qed.

(** X6. Fixed mode orders its samples by file index, then by class in the
    order of the class list, then by window: when no file is skipped and
    the loop over [files] file indices ends, [y] holds, once per file
    index, for every class in list order, [max_tack_samples] copies of the
    position of that class. For a class list without duplicates these
    positions are [0, 1, ..., classCount - 1]. *)
Theorem fixed_mode_label_order
    (mfcc : Config -> list Z -> Z -> ndarray) (cfg : Config) (C : Corpus)
    (classes : list string) (samples_per_file files : Z) (a : acc) :
  cfg !! "max_tack_samples" = Some (VInt samples_per_file) ->
  (forall c i, In c classes -> (i < Z.to_nat files)%nat ->
     exists f rate wav,
       nth_error (files_of (df C) c) i = Some f /\
       wavs C !! f = Some (rate, wav) /\ wav <> []) ->
  fixed_loop mfcc cfg C classes files = Ok a ->
  acc_y a = fixed_labels classes (Z.to_nat samples_per_file) (Z.to_nat files) /\
  (List.NoDup classes ->
   map (class_index classes) classes = seq 0 (List.length classes)).
Proof.
  intros Hsamples Hfiles E. split.
  - apply (fixed_loop_labels mfcc cfg C); assumption.
  - apply (class_index_positions [] classes).
Qed.

Lemma assemble_bad_label (cfg : Config) (a : acc) (h w : nat) (cat : Z) (label : nat) :
  uniform h w a -> acc_X a <> [] ->
  cfg !! "cat" = Some (VInt cat) -> 0 <= cat ->
  In label (acc_y a) -> (Z.to_nat cat <= label)%nat ->
  assemble cfg a = Raise IndexError.
Proof.
  intros Hu Hne Hcat Hpos Hin Hbad. unfold assemble.
  destruct (np_stack_uniform h w (acc_X a) Hne Hu) as [-> Hlen].
  cbn [mbind result_bind]. unfold shape_at, np_map. cbn [shape data nth_error].
  cbn [mbind result_bind]. unfold np_reshape. cbn [data size_of fold_right].
  rewrite length_map, Hlen.
  replace (List.length (acc_X a) * (h * (w * (1 * 1))))%nat
    with (List.length (acc_X a) * (h * w))%nat by lia.
  rewrite Nat.eqb_refl. cbn [mbind result_bind].
  unfold lookup_attr. rewrite Hcat. cbn [mbind result_bind py_index].
  unfold to_categorical.
  replace (cat <? 0) with false by (symmetry; apply Z.ltb_ge; lia).
  replace (forallb (fun l => (l <? Z.to_nat cat)%nat) (acc_y a)) with false;
    [reflexivity|].
  symmetry. apply not_true_is_false. intros Hall.
  rewrite forallb_forall in Hall. specialize (Hall label Hin).
  apply Nat.ltb_lt in Hall. lia.
Qed.


(** ** PredictionRunner *)

Lemma assemble_shape (cfg : Config) (a : acc) (s : samples) :
  assemble cfg a = Ok s ->
  exists n0 n1 n2,
    shape (samples_X s) = [n0; n1; n2; 1%nat] /\
    List.length (data (samples_X s)) = (n0 * (n1 * n2))%nat.
Proof.
  unfold assemble. intros E.
  destruct (np_stack (acc_X a)) as [X|]; [|discriminate].
  cbn [mbind result_bind] in E.
  destruct (shape_at _ 0) as [n0|]; [|discriminate]. cbn [mbind result_bind] in E.
  destruct (shape_at _ 1) as [n1|]; [|discriminate]. cbn [mbind result_bind] in E.
  destruct (shape_at _ 2) as [n2|]; [|discriminate]. cbn [mbind result_bind] in E.
  unfold np_reshape in E.
  destruct (Nat.eqb _ _) eqn:Es; [|discriminate]. cbn [mbind result_bind] in E.
  destruct (lookup_attr cfg "cat") as [c|]; [|discriminate].
  cbn [mbind result_bind] in E.
  destruct (py_index c) as [k|]; [|discriminate]. cbn [mbind result_bind] in E.
  destruct (to_categorical (acc_y a) k) as [y|]; [|discriminate].
  cbn [mbind result_bind] in E. injection E as <-.
  exists n0, n1, n2. cbn [samples_X shape data]. split; [reflexivity|].
  apply Nat.eqb_eq in Es. unfold np_map in Es.
  cbn [size_of fold_right data] in Es. lia.
Qed.

Lemma chunks_lengths {A : Type} (n size : nat) (l : list A) :
  List.length l = (n * size)%nat ->
  Forall (fun c => List.length c = size) (chunks n size l).
Proof.
  revert l. induction n as [|n IH]; intros l Hl; [constructor|].
  cbn [chunks]. constructor.
  - rewrite length_firstn. lia.
  - apply IH. rewrite length_skipn. lia.
Qed.

Lemma length_chunks {A : Type} (n size : nat) (l : list A) :
  List.length (chunks n size l) = n.
Proof.
  revert l. induction n as [|n IH]; intros l; [reflexivity|].
  cbn [chunks List.length]. rewrite IH. reflexivity.
Qed.

Lemma map_result_total {A B : Type} (f : A -> result B) (g : A -> B) (l : list A) :
  Forall (fun x => f x = Ok (g x)) l -> map_result f l = Ok (map g l).
Proof.
  induction 1 as [|x l Hx _ IH]; [reflexivity|].
  cbn [map_result map]. rewrite Hx. cbn [mbind result_bind]. rewrite IH.
  reflexivity.
Qed.

Lemma predict_one_row (predict : ndarray -> ndarray) (n1 n2 : nat)
    (row : list npfloat) :
  List.length row = (n1 * n2)%nat ->
  predict_one predict (NdArray [n1; n2; 1%nat] row) =
  Ok (np_mean (predict (NdArray [1%nat; n1; n2; 1%nat] row))).
Proof.
  intros Hlen. unfold predict_one, shape_at. cbn [shape nth_error].
  cbn [mbind result_bind]. unfold np_reshape. cbn [data size_of fold_right].
  replace (1 * (n1 * (n2 * (1 * 1))))%nat with (List.length row) by lia.
  rewrite Nat.eqb_refl. reflexivity.
Qed.


(** ** SampleBuilder and PredictionRunner on the small corpus *)

Lemma toy_mfcc_nonempty (cfg : Config) (sample : list Z) (rate : Z) :
  data (toy_mfcc cfg sample rate) <> [].
Proof. discriminate. Qed.

Lemma toy_mfcc_fin (cfg : Config) (sample : list Z) (rate : Z) :
  Forall is_fin (data (toy_mfcc cfg sample rate)).
Proof. repeat constructor; eexists; reflexivity. Qed.

Lemma toy_mfcc_shape (cfg : Config) (sample : list Z) (rate : Z) :
  shape (toy_mfcc cfg sample rate) = [1%nat; 2%nat] /\
  List.length (data (toy_mfcc cfg sample rate)) = (1 * 2)%nat.
Proof. split; reflexivity. Qed.

(** Both classes of the small corpus have two files of five values. *)
Lemma toy_files (c : string) (i : nat) :
  In c example_classes -> (i < 2)%nat ->
  exists f rate wav,
    nth_error (files_of (df toy_corpus) c) i = Some f /\
    wavs toy_corpus !! f = Some (rate, wav) /\ llen wav = 5.
Proof.
  intros Hc Hi. destruct Hc as [<-|[<-|[]]];
    (destruct i as [|[|i]]; [| |lia]); eexists _, _, _;
    (split; [reflexivity|]); split; reflexivity.
Qed.

Lemma toy_files_readable (c f : string) :
  In c example_classes -> In f (files_of (df toy_corpus) c) ->
  exists rate wav, wavs toy_corpus !! f = Some (rate, wav) /\ llen wav = 5.
Proof.
  intros Hc Hf. destruct Hc as [<-|[<-|[]]]; cbv [files_of df toy_corpus] in Hf;
    simpl in Hf; repeat (destruct Hf as [<-|Hf]; [eexists _, _; split; reflexivity|]);
    destruct Hf.
Qed.

Lemma fixed_mode_sample_count_witness :
  exists a,
    fixed_loop toy_mfcc toy_config toy_corpus example_classes 2 = Ok a /\
    grown example_classes 12 acc0 a /\ llen (acc_X a) = 12.
Proof.
  destruct (fixed_mode_sample_count toy_mfcc toy_config toy_corpus
              example_classes 2 3 2 12) as [_ (a & E & G & Hd)];
    try reflexivity; try lia.
  - intros sample rate. apply toy_mfcc_nonempty.
  - intros c i Hc Hi.
    destruct (toy_files c i Hc Hi) as (f & rate & wav & Ef & Ew & Hlen).
    exists f, rate, wav. repeat split; try assumption.
    intros ->. discriminate Hlen.
  - exists a. split; [exact E|]. split; [exact G|].
    apply Hd; reflexivity.
Defined.

Lemma random_mode_sample_count_witness :
  exists a g',
    random_loop toy_mfcc toy_config toy_corpus example_classes 4 toy_rng = Ok (a, g') /\
    grown example_classes 8 acc0 a.
Proof.
  destruct (random_mode_sample_count toy_mfcc toy_config toy_corpus
              example_classes 2 2 12 toy_rng) as [_ (a & g' & E & G)];
    try reflexivity; try lia.
  - intros sample rate. apply toy_mfcc_nonempty.
  - intros c Hc. destruct Hc as [<-|[<-|[]]]; discriminate.
  - intros c f Hc Hf.
    destruct (toy_files_readable c f Hc Hf) as (rate & wav & Ew & Hlen).
    exists rate, wav. split; [exact Ew|]. lia.
  - exists a, g'. split; [exact E|exact G].
Defined.

Lemma flat_mfcc_fin (cfg : Config) (sample : list Z) (rate : Z) :
  Forall is_fin (data (flat_mfcc cfg sample rate)).
Proof. repeat constructor; eexists; reflexivity. Qed.


Lemma getFixedSamples_returns_witness :
  exists s,
    getFixedSamples toy_mfcc toy_config toy_corpus example_classes (VInt 12) = Ok s /\
    shape (samples_X s) = [12%nat; 1%nat; 2%nat; 1%nat] /\
    shape (samples_y s) = [12%nat; 2%nat] /\
    printed s = [].
Proof.
  apply (getFixedSamples_returns toy_mfcc toy_config toy_corpus example_classes
           2 3 2 12 1 2); try reflexivity; try lia; try discriminate.
  - intros sample rate _. apply toy_mfcc_shape.
  - intros c i Hc Hi.
    destruct (toy_files c i Hc Hi) as (f & rate & wav & Ef & Ew & Hlen).
    exists f, rate, wav. repeat split; try assumption; lia.
Defined.

Lemma small_request_raises_witness :
  getFixedSamples toy_mfcc toy_config toy_corpus example_classes (VInt 5) =
    Raise IndexError /\
  getRandomSamples toy_mfcc toy_config toy_corpus example_classes (VInt 2) toy_rng =
    Raise IndexError.
Proof.
  split.
  - apply (small_request_raises toy_mfcc toy_config toy_corpus example_classes
             3 2 5); try reflexivity; lia.
  - apply (small_request_raises toy_mfcc toy_config toy_corpus example_classes
             3 2 2); try reflexivity; lia.
Defined.

Lemma fixed_mode_label_order_witness :
  exists a,
    fixed_loop toy_mfcc toy_config toy_corpus example_classes 2 = Ok a /\
    acc_y a = fixed_labels example_classes 3 2 /\
    fixed_labels example_classes 3 2 =
      [0; 0; 0; 1; 1; 1; 0; 0; 0; 1; 1; 1]%nat.
Proof.
  destruct (fixed_loop toy_mfcc toy_config toy_corpus example_classes 2)
    as [a|e] eqn:E; [|vm_compute in E; discriminate E].
  exists a. split; [reflexivity|]. split; [|reflexivity].
  apply (fixed_mode_label_order toy_mfcc toy_config toy_corpus example_classes
           3 2 a); [reflexivity| |exact E].
  intros c i Hc Hi.
  destruct (toy_files c i Hc Hi) as (f & rate & wav & Ef & Ew & Hlen).
  exists f, rate, wav. repeat split; try assumption.
  intros ->. discriminate Hlen.
Defined.



(** ** DatasetSizer: the smallest class and a second run *)

Lemma smallest_fold (df : ClassTable) (classes : list string) (m : Z) :
  let r := fold_left
             (fun minorityFiles class_name =>
                let files := llen (files_of df class_name) in
                if minorityFiles >? files then files else minorityFiles)
             classes m in
  r <= m /\
  (forall c, In c classes -> r <= llen (files_of df c)) /\
  (r = m \/ exists c, In c classes /\ r = llen (files_of df c)).
Proof.
  revert m. induction classes as [|c classes IH]; intros m; cbn [fold_left].
  - split; [lia|]. split; [intros c []|left; reflexivity].
  - set (n := llen (files_of df c)).
    specialize (IH (if m >? n then n else m)). cbv zeta in IH.
    destruct IH as (H1 & H2 & H3).
    destruct (Z.gtb_spec m n) as [Hgt|Hle].
    + split; [lia|]. split.
      * intros c' [<-|Hc']; [exact H1|apply H2, Hc'].
      * right. destruct H3 as [->|(c' & Hc' & ->)].
        -- exists c. split; [left; reflexivity|reflexivity].
        -- exists c'. split; [right; exact Hc'|reflexivity].
    + split; [lia|]. split.
      * intros c' [<-|Hc']; [fold n; lia|apply H2, Hc'].
      * destruct H3 as [->|(c' & Hc' & ->)]; [left; reflexivity|].
        right. exists c'. split; [right; exact Hc'|reflexivity].
Qed.

Lemma smallest_le (df : ClassTable) (classes : list string) (c : string) :
  In c classes -> getSmallestDataset df classes <= llen (files_of df c).
Proof.
  intros Hc. unfold getSmallestDataset.
  apply (smallest_fold df classes maxsize), Hc.
Qed.

(** X9. [getSmallestDataset] is the smallest number of files of a class of
    the class list: it is at most the number of files of every class and
    it is the number of files of one of them, unless it is still
    [sys.maxsize], the value it starts from and the value it returns for an
    empty class list. It is never negative. *)
Theorem getSmallestDataset_minimum (df : ClassTable) (classes : list string) :
  getSmallestDataset df [] = maxsize /\
  (forall c, In c classes ->
     getSmallestDataset df classes <= llen (files_of df c)) /\
  (getSmallestDataset df classes = maxsize \/
   exists c, In c classes /\
             getSmallestDataset df classes = llen (files_of df c)) /\
  0 <= getSmallestDataset df classes <= maxsize.
Proof.
  pose proof (smallest_fold df classes maxsize) as H.
  unfold getSmallestDataset. cbv zeta in H |- *.
  destruct H as (H1 & H2 & H3).
  split; [reflexivity|]. split; [exact H2|]. split; [exact H3|].
  split; [|exact H1].
  destruct H3 as [E|(c & _ & E)]; rewrite E; [unfold maxsize; lia|unfold llen; lia].
Qed.

(** Lines 412-442 on overrides that are counts: what they leave and what
    they print. *)
Lemma calculate_overrides_run (df : ClassTable) (classes : list string)
    (cfg : Config) (vcat vfiles vsamples vdata : pyval) (M : Z) :
  cfg !! "cat" = Some vcat ->
  cfg !! "max_class_files" = Some vfiles ->
  cfg !! "max_tack_samples" = Some vsamples ->
  cfg !! "max_data" = Some vdata ->
  is_override vcat = true -> is_override vfiles = true ->
  is_override vsamples = true -> is_override vdata = true ->
  getMaximumSamples cfg = Ok M ->
  let cat' := clamped vcat (llen classes) in
  let files' := clamped vfiles (getSmallestDataset df classes) in
  let samples' := clamped vsamples M in
  let D := override_value files' * override_value cat' * override_value samples' in
  calculate_overrides df classes cfg =
  Ok (<["max_data" := clamped vdata D]>
        (<["max_tack_samples" := samples']>
           (<["max_class_files" := files']> (<["cat" := cat']> cfg))),
      warning "cat" vcat (llen classes) ++
      warning "max_class_files" vfiles (getSmallestDataset df classes) ++
      warning "max_tack_samples" vsamples M ++
      warning "max_data" vdata D).
Proof.
  intros Hcat Hfiles Hsamples Hdata Ocat Ofiles Osamples Odata HM
    cat' files' samples' D.
  unfold calculate_overrides.
  rewrite (clamp_spec "cat" cfg vcat _ Hcat Ocat). fold cat'.
  cbn [mbind result_bind fst snd].
  set (cfg1 := <["cat" := cat']> cfg).
  assert (H1 : cfg1 !! "max_class_files" = Some vfiles).
  { unfold cfg1. rewrite lookup_insert_ne by done. exact Hfiles. }
  rewrite (clamp_spec "max_class_files" cfg1 vfiles _ H1 Ofiles). fold files'.
  cbn [mbind result_bind fst snd].
  set (cfg2 := <["max_class_files" := files']> cfg1).
  assert (H2 : cfg2 !! "max_tack_samples" = Some vsamples).
  { unfold cfg2, cfg1. rewrite !lookup_insert_ne by done. exact Hsamples. }
  assert (HM2 : getMaximumSamples cfg2 = Ok M).
  { rewrite <- HM. unfold getMaximumSamples, lookup_attr, cfg2, cfg1.
    rewrite !lookup_insert_ne by done. reflexivity. }
  rewrite HM2, (clamp_spec "max_tack_samples" cfg2 vsamples _ H2 Osamples).
  fold samples'. cbn [mbind result_bind fst snd].
  set (cfg3 := <["max_tack_samples" := samples']> cfg2).
  assert (H3 : cfg3 !! "max_data" = Some vdata).
  { unfold cfg3, cfg2, cfg1. rewrite !lookup_insert_ne by done. exact Hdata. }
  assert (HD : getMaximumData cfg3 = Ok D).
  { assert (L1 : cfg3 !! "max_class_files" = Some files').
    { unfold cfg3, cfg2. rewrite lookup_insert_ne by done. apply lookup_insert_eq. }
    assert (L2 : cfg3 !! "cat" = Some cat').
    { unfold cfg3, cfg2, cfg1. rewrite !lookup_insert_ne by done.
      apply lookup_insert_eq. }
    assert (L3 : cfg3 !! "max_tack_samples" = Some samples').
    { unfold cfg3. apply lookup_insert_eq. }
    unfold getMaximumData, lookup_attr. rewrite L1, L2, L3.
    cbn [mbind result_bind].
    pose proof (override_product files' cat' samples'
                  (clamped_override _ _ Ofiles) (clamped_override _ _ Ocat)
                  (clamped_override _ _ Osamples)) as E.
    unfold mbind, result_bind in E |- *.
    destruct (py_mul files' cat') as [ab|e]; [|discriminate]. exact E. }
  rewrite HD, (clamp_spec "max_data" cfg3 vdata _ H3 Odata).
  reflexivity.
Qed.

Lemma clamped_twice (name : string) (v : pyval) (m : Z) :
  clamped (clamped v m) m = clamped v m /\ warning name (clamped v m) m = [].
Proof.
  unfold clamped, warning. destruct (is_False v) eqn:Ef.
  - cbn [is_False override_value]. rewrite (Z.gtb_ltb m m), Z.ltb_irrefl.
    split; reflexivity.
  - destruct (override_value v >? m) eqn:Eg.
    + cbn [is_False override_value]. rewrite (Z.gtb_ltb m m), Z.ltb_irrefl.
      split; reflexivity.
    + rewrite Ef, Eg. split; reflexivity.
Qed.

(** X10. A second run of [calculateConfigData] changes nothing and warns
    about nothing: when the four overrides are counts (or the [False]
    sentinel) and a first run returns, a run on the configuration it left
    returns the same configuration and prints only the summary. *)
Theorem calculateConfigData_idempotent (df : ClassTable) (classes : list string)
    (cfg : Config) (vcat vfiles vsamples vdata : pyval) (M : Z)
    (cfg' : Config) (out : list line) :
  cfg !! "cat" = Some vcat ->
  cfg !! "max_class_files" = Some vfiles ->
  cfg !! "max_tack_samples" = Some vsamples ->
  cfg !! "max_data" = Some vdata ->
  is_override vcat = true -> is_override vfiles = true ->
  is_override vsamples = true -> is_override vdata = true ->
  getMaximumSamples cfg = Ok M ->
  calculateConfigData df classes cfg = Ok (cfg', out) ->
  exists s,
    summary cfg' = Ok s /\
    calculateConfigData df classes cfg' = Ok (cfg', s).
Proof.
  intros Hcat Hfiles Hsamples Hdata Ocat Ofiles Osamples Odata HM E.
  pose proof (calculate_overrides_run df classes cfg vcat vfiles vsamples vdata M
                Hcat Hfiles Hsamples Hdata Ocat Ofiles Osamples Odata HM) as R.
  cbv zeta in R.
  set (cat' := clamped vcat (llen classes)) in *.
  set (files' := clamped vfiles (getSmallestDataset df classes)) in *.
  set (samples' := clamped vsamples M) in *.
  set (D := override_value files' * override_value cat' * override_value samples') in *.
  set (data' := clamped vdata D) in *.
  set (cfgC := <["max_data" := data']>
                 (<["max_tack_samples" := samples']>
                    (<["max_class_files" := files']> (<["cat" := cat']> cfg)))) in *.
  unfold calculateConfigData in E. rewrite R in E.
  cbn [mbind result_bind fst snd] in E.
  destruct (summary cfgC) as [s|] eqn:Es; [|discriminate].
  cbn [mbind result_bind] in E. injection E as <- _.
  exists s. split; [exact Es|].
  assert (L1 : cfgC !! "cat" = Some cat').
  { unfold cfgC. rewrite !lookup_insert_ne by done. apply lookup_insert_eq. }
  assert (L2 : cfgC !! "max_class_files" = Some files').
  { unfold cfgC. rewrite !lookup_insert_ne by done. apply lookup_insert_eq. }
  assert (L3 : cfgC !! "max_tack_samples" = Some samples').
  { unfold cfgC. rewrite lookup_insert_ne by done. apply lookup_insert_eq. }
  assert (L4 : cfgC !! "max_data" = Some data').
  { unfold cfgC. apply lookup_insert_eq. }
  assert (HM' : getMaximumSamples cfgC = Ok M).
  { rewrite <- HM. unfold getMaximumSamples, lookup_attr, cfgC.
    rewrite !lookup_insert_ne by done. reflexivity. }
  pose proof (calculate_overrides_run df classes cfgC cat' files' samples' data' M
                L1 L2 L3 L4 (clamped_override _ _ Ocat) (clamped_override _ _ Ofiles)
                (clamped_override _ _ Osamples) (clamped_override _ _ Odata) HM')
    as R'.
  cbv zeta in R'. unfold cat', files', samples' in R'.
  rewrite !(proj1 (clamped_twice "cat" _ _)) in R'.
  rewrite !(proj2 (clamped_twice _ _ _)) in R'.
  fold cat' files' samples' D in R'. unfold data' in R'.
  rewrite (proj1 (clamped_twice "max_data" _ _)),
    (proj2 (clamped_twice "max_data" _ _)) in R'.
  fold data' in R'.
  rewrite (insert_id cfgC "cat" cat' L1), (insert_id cfgC _ files' L2),
    (insert_id cfgC _ samples' L3), (insert_id cfgC _ data' L4) in R'.
  unfold calculateConfigData. rewrite R'. cbn [mbind result_bind fst snd app].
  rewrite Es. reflexivity.
Qed.

Lemma count_is_override (v : pyval) : is_count v = true -> is_override v = true.
Proof. destruct v as [|[]| |]; try discriminate; reflexivity. Qed.

Lemma clamped_count (v : pyval) (m : Z) :
  is_count v = true ->
  clamped v m = VInt (override_value (clamped v m)) /\
  override_value (clamped v m) <= m.
Proof.
  destruct v as [|[]|z|]; try discriminate; intros _; unfold clamped;
    cbn [is_False override_value].
  - split; [reflexivity|lia].
  - destruct (Z.gtb_spec z m); cbn [override_value]; split; try reflexivity; lia.
Qed.

Lemma same_off_id_lookup (c c' : Config) (name : string) :
  same_off_id c c' -> name <> "id"%string ->
  lookup_attr c' name = lookup_attr c name.
Proof. intros H Hn. unfold lookup_attr. rewrite (H name Hn). reflexivity. Qed.

(** X11. The overrides as [calculateConfigData] leaves them keep fixed
    mode inside every class: for overrides that are counts (or the [False]
    sentinel) and that come out positive and below [2^53], fixed mode
    called with [config.max_data], as the script calls it, enumerates at
    most [max_class_files] file indices, which is at most the number of
    files of the smallest class, so [df[df.label == c].index[file_index]]
    exists for every class and every enumerated index. This holds for the
    configuration as left, and whatever [getTemporaryData] then does to
    its [id]. *)
Theorem clamped_request_stays_in_range (df : ClassTable) (classes : list string)
    (cfg : Config) (vcat vfiles vsamples vdata : pyval) (M : Z) :
  cfg !! "cat" = Some vcat ->
  cfg !! "max_class_files" = Some vfiles ->
  cfg !! "max_tack_samples" = Some vsamples ->
  cfg !! "max_data" = Some vdata ->
  is_count vcat = true -> is_count vfiles = true ->
  is_count vsamples = true -> is_count vdata = true ->
  getMaximumSamples cfg = Ok M ->
  let cat' := override_value (clamped vcat (llen classes)) in
  let files' := override_value (clamped vfiles (getSmallestDataset df classes)) in
  let samples' := override_value (clamped vsamples M) in
  let data' := override_value (clamped vdata (files' * cat' * samples')) in
  0 < cat' < 2 ^ 53 -> 0 < samples' < 2 ^ 53 -> 0 <= data' < 2 ^ 53 ->
  exists cfg' out,
    calculate_overrides df classes cfg = Ok (cfg', out) /\
    cfg' !! "max_data" = Some (VInt data') /\
    forall cfg'', same_off_id cfg' cfg'' ->
    exists files,
      (d ← getRefactoredData cfg'' (VInt data'); fixed_file_count cfg'' d) =
        Ok files /\
      files <= files' /\ files' <= getSmallestDataset df classes /\
      forall c i, In c classes -> (i < Z.to_nat files)%nat ->
        exists f, nth_error (files_of df c) i = Some f.
Proof.
  intros Hcat Hfiles Hsamples Hdata Ccat Cfiles Csamples Cdata HM
    cat' files' samples' data' Pcat Psamples Pdata.
  pose proof (calculate_overrides_run df classes cfg vcat vfiles vsamples vdata M
                Hcat Hfiles Hsamples Hdata (count_is_override _ Ccat)
                (count_is_override _ Cfiles) (count_is_override _ Csamples)
                (count_is_override _ Cdata) HM) as R.
  cbv zeta in R. fold cat' files' samples' in R.
  destruct (clamped_count vcat (llen classes) Ccat) as [Ecat _].
  destruct (clamped_count vfiles (getSmallestDataset df classes) Cfiles)
    as [Efiles Lfiles].
  destruct (clamped_count vsamples M Csamples) as [Esamples _].
  destruct (clamped_count vdata (files' * cat' * samples') Cdata) as [Edata Ldata].
  fold cat' in Ecat. fold files' in Efiles, Lfiles. fold samples' in Esamples.
  fold data' in Edata, Ldata.
  rewrite Ecat, Efiles, Esamples, Edata in R.
  eexists _, _. split; [exact R|].
  split; [apply lookup_insert_eq|].
  intros cfg'' Hsame.
  assert (Lcat : cfg'' !! "cat" = Some (VInt cat')).
  { rewrite <- (Hsame "cat"%string) by done.
    rewrite !lookup_insert_ne by done. apply lookup_insert_eq. }
  assert (Lsamples : cfg'' !! "max_tack_samples" = Some (VInt samples')).
  { rewrite <- (Hsame "max_tack_samples"%string) by done.
    rewrite lookup_insert_ne by done. apply lookup_insert_eq. }
  pose proof (refactored_bounds cat' data' ltac:(lia) ltac:(lia)) as Hd.
  rewrite (getRefactoredData_floor cfg'' cat' data' Lcat Pcat Pdata).
  cbn [mbind result_bind].
  rewrite (fixed_file_count_floor cfg'' _ samples' cat' Lsamples Lcat) by lia.
  eexists. split; [reflexivity|].
  assert (Hle : data' / cat' * cat' / samples' / cat' <= files').
  { rewrite Z.div_div by lia.
    transitivity (files' * cat' * samples' / (samples' * cat')).
    - apply Z.div_le_mono; lia.
    - replace (files' * cat' * samples') with (files' * (samples' * cat')) by lia.
      rewrite Z.div_mul by lia. lia. }
  split; [exact Hle|]. split; [exact Lfiles|].
  intros c i Hc Hi.
  pose proof (smallest_le df classes c Hc) as Hs.
  destruct (nth_error (files_of df c) i) as [f|] eqn:En; [exists f; reflexivity|].
  apply nth_error_None in En. unfold llen in Hs. lia.
Qed.

Lemma calculateConfigData_idempotent_witness :
  exists cfg' out s,
    calculateConfigData example_table example_classes example_overrides =
      Ok (cfg', out) /\
    calculateConfigData example_table example_classes cfg' = Ok (cfg', s).
Proof.
  destruct (calculateConfigData example_table example_classes example_overrides)
    as [[cfg' out]|e] eqn:E; [|vm_compute in E; discriminate E].
  destruct (calculateConfigData_idempotent example_table example_classes
              example_overrides (VBool false) (VInt 5) (VBool false) (VBool false) 3
              cfg' out eq_refl eq_refl eq_refl eq_refl eq_refl eq_refl eq_refl
              eq_refl eq_refl E) as (s & _ & Hs).
  exists cfg', out, s. split; [reflexivity|exact Hs].
Defined.

Lemma clamped_request_stays_in_range_witness :
  exists cfg' out files,
    calculate_overrides example_table example_classes example_overrides =
      Ok (cfg', out) /\
    cfg' !! "max_data" = Some (VInt 12) /\
    (d ← getRefactoredData cfg' (VInt 12); fixed_file_count cfg' d) = Ok files /\
    files <= 2.
Proof.
  destruct (clamped_request_stays_in_range example_table example_classes
              example_overrides (VBool false) (VInt 5) (VBool false) (VBool false) 3
              eq_refl eq_refl eq_refl eq_refl eq_refl eq_refl eq_refl eq_refl
              eq_refl) as (cfg' & out & E & Hd & H);
    [split; vm_compute; first [reflexivity | discriminate] ..|].
  destruct (H cfg' (same_off_id_refl cfg')) as (files & Ef & Hle & _).
  exists cfg', out, files. repeat split; assumption.
Defined.

(** ** Edges *)

Lemma scan_outcome (files : list Config) (cfg0 cfg : Config) :
  same_off_id cfg0 cfg ->
  files <> [] \/ (exists j, cfg !! "id" = Some j) ->
  exists r cfg' l,
    getTemporaryData files cfg = (Ok r, cfg', [l]) /\
    same_off_id cfg0 cfg' /\
    match r with
    | Some conf =>
        exists f i j,
          In f files /\ conf = <["id" := i]> f /\ cfg' !! "id" = Some j /\
          py_eq i j = true /\ l = LoadedConfig i
    | None => exists j, cfg' !! "id" = Some j /\ l = YourConfigId j
    end.
Proof.
  revert cfg. induction files as [|file rest IH]; intros cfg Hsame Hid.
  - destruct Hid as [Hne|(j & Hj)]; [congruence|].
    exists None, cfg, (YourConfigId j). cbn [getTemporaryData].
    unfold lookup_attr. rewrite Hj. repeat split; [exact Hsame|].
    exists j. split; reflexivity.
  - destruct (getTemporaryData_cons file rest cfg) as (i & j & _ & _ & _ & Eg).
    rewrite Eg. destruct (py_eq i j) eqn:Eij.
    + exists (Some (<["id" := i]> file)), (<["id" := j]> cfg), (LoadedConfig i).
      split; [reflexivity|]. split; [apply same_off_id_insert, Hsame|].
      exists file, i, j. repeat split;
        [left; reflexivity|apply lookup_insert_eq|exact Eij].
    + destruct (IH (<["id" := j]> cfg)) as (r & cfg' & l & E & Hs & Hr).
      { apply same_off_id_insert, Hsame. }
      { right. exists j. apply lookup_insert_eq. }
      exists r, cfg', l. split; [exact E|]. split; [exact Hs|].
      destruct r as [conf|]; [|exact Hr].
      destruct Hr as (f & i' & j' & Hf & Hr). exists f, i', j'.
      split; [right; exact Hf|exact Hr].
Qed.


Lemma range_pos (n : Z) : 0 < n -> exists l, range n = 0 :: l.
Proof.
  intros Hn. unfold range. destruct (Z.to_nat n) as [|k] eqn:E; [lia|].
  cbn [seq map]. eexists. reflexivity.
Qed.

Lemma random_sample_short
    (mfcc : Config -> list Z -> Z -> ndarray) (cfg : Config) (C : Corpus)
    (classes : list string) (c : string) (step : Z) (a : acc) (g : rng) :
  cfg !! "step" = Some (VInt step) ->
  files_of (df C) c <> [] ->
  (forall f, In f (files_of (df C) c) ->
     exists rate wav, wavs C !! f = Some (rate, wav) /\ 0 < llen wav <= step) ->
  random_sample mfcc cfg C classes c (a, g) = Raise ValueError.
Proof.
  intros Hstep Hfiles Hshort.
  destruct (random_choice_In (files_of (df C) c) g Hfiles) as (f & g1 & E1 & Hf).
  unfold random_sample. rewrite E1. cbn [mbind result_bind fst snd].
  destruct (Hshort f Hf) as (rate & wav & Ew & Hlen).
  unfold read_wav. rewrite Ew. cbn [mbind result_bind fst snd].
  replace (llen wav =? 0) with false by (symmetry; apply Z.eqb_neq; lia).
  unfold lookup_attr. rewrite Hstep. cbn [mbind result_bind].
  unfold py_sub. cbn [as_num mbind result_bind py_index].
  unfold random_randint.
  replace (llen wav - step <=? 0) with true by (symmetry; apply Z.leb_le; lia).
  reflexivity.
Qed.

(** X13. Random mode cannot draw from a file that is not longer than one
    window: [np.random.randint(0, wav.shape[0] - config.step)] raises a
    [ValueError] when its upper bound is not positive. So when every file
    of the first class has at most [step] values (and is not empty) and at
    least one round is run, [getRandomSamples] raises. *)
Theorem random_mode_short_file_raises
    (mfcc : Config -> list Z -> Z -> ndarray) (cfg : Config) (C : Corpus)
    (c : string) (rest : list string) (step cat n : Z) (g : rng) :
  cfg !! "step" = Some (VInt step) ->
  cfg !! "cat" = Some (VInt cat) ->
  0 < cat < 2 ^ 53 -> 0 <= n < 2 ^ 53 -> 3 <= n / cat * cat ->
  files_of (df C) c <> [] ->
  (forall f, In f (files_of (df C) c) ->
     exists rate wav, wavs C !! f = Some (rate, wav) /\ 0 < llen wav <= step) ->
  getRandomSamples mfcc cfg C (c :: rest) (VInt n) g = Raise ValueError.
Proof.
  intros Hstep Hcat Hc Hn Hd Hfiles Hshort.
  pose proof (refactored_bounds cat n ltac:(lia) ltac:(lia)) as Hb.
  unfold getRandomSamples.
  rewrite (getRefactoredData_floor cfg cat n Hcat Hc Hn). cbn [mbind result_bind].
  rewrite (random_round_count_floor (n / cat * cat)) by lia.
  cbn [mbind result_bind].
  assert (Hr : 0 < n / cat * cat / 3).
  { apply Z.div_str_pos. lia. }
  destruct (range_pos _ Hr) as (l & El).
  unfold random_loop. rewrite El. cbn [fold_result].
  rewrite (random_sample_short mfcc cfg C (c :: rest) c step acc0 g Hstep Hfiles
             Hshort).
  reflexivity.
Qed.

(** X14. A zero count stops the builders with a [ZeroDivisionError]: a
    category count of 0 in [getRefactoredData], in both modes, and a
    [max_tack_samples] of 0, which is what an audio window shorter than
    one sample is clamped to, in the file count of fixed mode. *)
Theorem zero_counts_raise
    (mfcc : Config -> list Z -> Z -> ndarray) (cfg : Config) (C : Corpus)
    (classes : list string) (cat n : Z) :
  cfg !! "cat" = Some (VInt cat) -> 0 <= n < 2 ^ 53 ->
  (cat = 0 ->
   getFixedSamples mfcc cfg C classes (VInt n) = Raise ZeroDivisionError /\
   forall g, getRandomSamples mfcc cfg C classes (VInt n) g =
             Raise ZeroDivisionError) /\
  (0 < cat < 2 ^ 53 -> cfg !! "max_tack_samples" = Some (VInt 0) ->
   getFixedSamples mfcc cfg C classes (VInt n) = Raise ZeroDivisionError).
Proof.
  intros Hcat Hn. split.
  - intros ->.
    assert (E : getRefactoredData cfg (VInt n) = Raise ZeroDivisionError).
    { unfold getRefactoredData, lookup_attr. rewrite Hcat. reflexivity. }
    split; [|intros g]; unfold getFixedSamples, getRandomSamples; rewrite E;
      reflexivity.
  - intros Hc Hzero. unfold getFixedSamples.
    rewrite (getRefactoredData_floor cfg cat n Hcat Hc Hn). cbn [mbind result_bind].
    unfold fixed_file_count, lookup_attr. rewrite Hzero. reflexivity.
Qed.

Lemma random_mode_short_file_raises_witness :
  getRandomSamples toy_mfcc wide_window toy_corpus example_classes (VInt 4) toy_rng =
  Raise ValueError.
Proof.
  apply (random_mode_short_file_raises toy_mfcc wide_window toy_corpus
           "a"%string ["b"%string] 5 2 4 toy_rng);
    try reflexivity; try lia; try discriminate.
  intros f Hf.
  destruct (toy_files_readable "a"%string f (or_introl eq_refl) Hf)
    as (rate & wav & Ew & Hlen).
  exists rate, wav. split; [exact Ew|lia].
Defined.

Lemma zero_counts_raise_witness :
  getFixedSamples toy_mfcc no_window toy_corpus example_classes (VInt 12) =
  Raise ZeroDivisionError.
Proof.
  apply (zero_counts_raise toy_mfcc no_window toy_corpus example_classes 2 12);
    try reflexivity; lia.
Defined.

(** ** Trainer: the data of every call of [model.fit] *)

Lemma st_bind_inv {S A B : Type} (m : ST S A) (f : A -> ST S B) s r s' :
  (x ← m; f x) s = (r, s') ->
  (exists e, m s = (Raise e, s') /\ r = Raise e) \/
  (exists a s1, m s = (Ok a, s1) /\ f a s1 = (r, s')).
Proof.
  unfold mbind, ST_bind. destruct (m s) as [[a|e] s1]; intros E.
  - right. exists a, s1. split; [reflexivity|exact E].
  - left. injection E as <- <-. exists e. split; reflexivity.
Qed.

Lemma st_for_inv {S A : Type} (Inv Q : S -> Prop) (body : A -> ST S unit)
    (l : list A) :
  (forall s, Inv s -> Q s) ->
  (forall x s r s', Inv s -> body x s = (r, s') ->
     Q s' /\ (r = Ok tt -> Inv s')) ->
  forall s r s', Inv s -> st_for l body s = (r, s') -> Q s'.
Proof.
  intros HQ Hbody. induction l as [|x l IH]; intros s r s' Hs E.
  - cbn [st_for] in E. injection E as _ <-. apply HQ, Hs.
  - cbn [st_for] in E.
    destruct (st_bind_inv _ _ _ _ _ E) as [(e & E1 & _)|(a & s1 & E1 & E2)].
    + apply (Hbody x s _ s' Hs E1).
    + destruct a. destruct (Hbody x s _ s1 Hs E1) as [_ Hinv].
      apply (IH s1 r s' (Hinv eq_refl) E2).
Qed.

Lemma take_cons {A : Type} (x : A) (l : list A) (idx : list nat) :
  take (x :: l) (map S idx) = take l idx.
Proof.
  unfold take. induction idx as [|i idx IH]; [reflexivity|].
  cbn [map flat_map nth_error]. rewrite IH. reflexivity.
Qed.

Lemma take_all {A : Type} (l : list A) : take l (seq 0 (List.length l)) = l.
Proof.
  induction l as [|x l IH]; [reflexivity|].
  cbn [List.length seq]. rewrite <- seq_shift.
  change (take (x :: l) (0%nat :: map S (seq 0 (List.length l))))
    with (x :: take (x :: l) (map S (seq 0 (List.length l)))).
  rewrite take_cons, IH. reflexivity.
Qed.

Lemma take_permutation {A : Type} (l : list A) (idx : list nat) :
  Permutation idx (seq 0 (List.length l)) -> Permutation (take l idx) l.
Proof.
  intros H. rewrite <- (take_all l) at 2. unfold take.
  apply Permutation_flat_map, H.
Qed.

Lemma nth_error_combine {A B : Type} (l : list A) (l' : list B) (i : nat) :
  nth_error (combine l l') i =
  match nth_error l i, nth_error l' i with
  | Some x, Some y => Some (x, y)
  | _, _ => None
  end.
Proof.
  revert l' i. induction l as [|x l IH]; intros l' i.
  - destruct i; reflexivity.
  - destruct l' as [|y l']; [destruct i; cbn; [reflexivity|];
      destruct (nth_error l i); reflexivity|].
    destruct i as [|i]; [reflexivity|]. cbn [combine nth_error]. apply IH.
Qed.

Lemma combine_take {A B : Type} (l : list A) (l' : list B) (idx : list nat) :
  List.length l = List.length l' ->
  combine (take l idx) (take l' idx) = take (combine l l') idx.
Proof.
  intros Hlen. unfold take. induction idx as [|i idx IH]; [reflexivity|].
  cbn [flat_map]. rewrite nth_error_combine.
  destruct (nth_error l i) as [x|] eqn:E1; destruct (nth_error l' i) as [y|] eqn:E2.
  - cbn [app combine]. rewrite IH. reflexivity.
  - apply nth_error_None in E2. assert (nth_error l i <> None) by congruence.
    apply nth_error_Some in H. lia.
  - apply nth_error_None in E1. assert (nth_error l' i <> None) by congruence.
    apply nth_error_Some in H. lia.
  - cbn [app]. exact IH.
Qed.

Section Trainer_facts.

Variables row label model metric score : Type.
Variable perm0 : nat -> list nat.
Variable fit :
  nat -> model -> list row -> list label -> list row -> list label ->
  pyval -> pyval -> result (model * history metric).
Variable evaluate :
  nat -> model -> list row -> list label -> pyval -> result score.
Variable load_model : option string -> result model.
Variable getLastModelFilename : Config -> result (option string).
Variable drawStatistics :
  Config -> temp metric -> temp metric -> temp metric -> temp metric ->
  result unit.
Variable save : Config -> model -> result unit.
Variable saveConfig :
  Config -> temp metric -> temp metric -> temp metric -> temp metric ->
  result unit.

Abbreviation trainer := (trainer row label model metric score).
Abbreviation event := (event row label metric score).
Abbreviation fit_calls := (fit_calls row label metric score).
Abbreviation quiet := (quiet row label model metric score).
Abbreviation shuffle := (shuffle row label perm0).
Abbreviation shuffle_times := (shuffle_times row label perm0).

Lemma fit_calls_app (tr tr' : list event) :
  fit_calls (tr ++ tr') = fit_calls tr ++ fit_calls tr'.
Proof.
  induction tr as [|e tr IH]; [reflexivity|].
  destruct e; cbn [app fit_calls]; rewrite IH; reflexivity.
Qed.

Lemma quiet_ret {A : Type} (a : A) : quiet (mret a).
Proof. intros s r s' E. injection E as _ <-. auto. Qed.

Lemma quiet_lift {A : Type} (x : result A) : quiet (st_lift x).
Proof. intros s r s' E. injection E as _ <-. auto. Qed.

Lemma quiet_bind {A B : Type} (m : ST trainer A) (f : A -> ST trainer B) :
  quiet m -> (forall a, quiet (f a)) -> quiet (x ← m; f x).
Proof.
  intros Hm Hf s r s' E.
  destruct (st_bind_inv _ _ _ _ _ E) as [(e & E1 & _)|(a & s1 & E1 & E2)].
  - apply (Hm _ _ _ E1).
  - destruct (Hm _ _ _ E1) as (H1 & H2 & H3).
    destruct (Hf a _ _ _ E2) as (K1 & K2 & K3).
    rewrite K1, K2, K3. auto.
Qed.

Lemma quiet_try (body handler : ST trainer unit) :
  quiet body -> quiet handler -> quiet (st_try body handler).
Proof.
  intros Hb Hh s r s' E. unfold st_try in E.
  destruct (body s) as [[a|e] s1] eqn:E1.
  - injection E as <- <-. apply (Hb _ _ _ E1).
  - destruct (Hb _ _ _ E1) as (H1 & H2 & H3).
    destruct (Hh _ _ _ E) as (K1 & K2 & K3). rewrite K1, K2, K3. auto.
Qed.

Lemma quiet_emit (e : event) : fit_calls [e] = [] -> quiet (emit _ _ _ _ _ e).
Proof.
  intros He s r s' E. injection E as _ <-. cbn [t_X t_y t_trace].
  rewrite fit_calls_app, He, app_nil_r. auto.
Qed.

Lemma quiet_attr (name : string) : quiet (attr _ _ _ _ _ name).
Proof. intros s r s' E. injection E as _ <-. auto. Qed.

Lemma quiet_set_attr (name : string) (v : pyval) :
  quiet (set_attr _ _ _ _ _ name v).
Proof. intros s r s' E. injection E as _ <-. auto. Qed.

Lemma quiet_read_temp (n : temp_name) : quiet (read_temp _ _ _ _ _ n).
Proof.
  intros s r s' E. unfold read_temp in E.
  destruct (get_temp _ _ _ _ _ n s); injection E as _ <-; auto.
Qed.

Lemma quiet_write_temp (n : temp_name) (t : temp metric) :
  quiet (write_temp _ _ _ _ _ n t).
Proof. intros s r s' E. injection E as _ <-. destruct n; auto. Qed.

Lemma quiet_set_model (m : model) : quiet (set_model _ _ _ _ _ m).
Proof. intros s r s' E. injection E as _ <-. auto. Qed.

Lemma quiet_get_model : quiet (get_model row label model metric score).
Proof. intros s r s' E. injection E as _ <-. auto. Qed.

Lemma quiet_get_data : quiet (get_data row label model metric score).
Proof. intros s r s' E. injection E as _ <-. auto. Qed.

Lemma quiet_get_config : quiet (get_config row label model metric score).
Proof. intros s r s' E. injection E as _ <-. auto. Qed.

Lemma quiet_field {A : Type} (f : trainer -> A) : quiet (fun s => (Ok (f s), s)).
Proof. intros s r s' E. injection E as _ <-. auto. Qed.

Ltac quiet_step :=
  first
    [ apply quiet_ret | apply quiet_lift | apply quiet_attr | apply quiet_set_attr
    | apply quiet_read_temp | apply quiet_write_temp | apply quiet_set_model
    | apply quiet_get_model | apply quiet_get_data | apply quiet_get_config
    | apply quiet_field
    | apply quiet_emit; reflexivity
    | apply quiet_try
    | apply quiet_bind; [|intros ?]
    | match goal with |- quiet (if ?b then _ else _) => destruct b end
    | match goal with |- quiet (match ?t with _ => _ end) => destruct t end ].

Lemma quiet_reset_temps : quiet (reset_temps row label model metric score).
Proof. unfold reset_temps. repeat quiet_step. Qed.

Lemma quiet_init_temps : quiet (init_temps row label model metric score).
Proof.
  unfold init_temps. apply quiet_try; [|apply quiet_reset_temps].
  apply quiet_bind; [apply quiet_read_temp|].
  intros [| |l]; first [apply quiet_reset_temps | apply quiet_ret].
Qed.

Lemma quiet_init_calls : quiet (init_calls row label model metric score).
Proof. unfold init_calls. repeat quiet_step. Qed.

Lemma quiet_load_checkpoint :
  quiet (load_checkpoint row label model metric score load_model
           getLastModelFilename).
Proof.
  unfold load_checkpoint. apply quiet_bind; [apply quiet_attr|]. intros u.
  destruct (py_truthy u); [|apply quiet_ret].
  apply quiet_bind.
  - intros s r s' E. injection E as _ <-. auto.
  - intros path. repeat quiet_step.
Qed.

Lemma quiet_announce (index : Z) :
  quiet (announce row label model metric score drawStatistics index).
Proof. unfold announce. repeat quiet_step. Qed.

Lemma quiet_extend_temp (n : temp_name) (h : history metric) (key : string) :
  quiet (extend_temp row label model metric score n h key).
Proof. unfold extend_temp. repeat quiet_step. Qed.

Lemma quiet_record_and_save (index : Z) (h : history metric) :
  quiet (record_and_save row label model metric score evaluate save saveConfig
           index h).
Proof.
  unfold record_and_save.
  repeat first [apply quiet_extend_temp | quiet_step].
Qed.

Abbreviation validates := (validates_on_training_data row label perm0).
Abbreviation between_calls := (between_calls row label model metric score perm0).

Lemma between_calls_quiet {A : Type} (c : ST trainer A) X0 y0 s r s' :
  quiet c -> c s = (r, s') -> between_calls X0 y0 s -> between_calls X0 y0 s'.
Proof.
  intros Hq E [H1 H2]. destruct (Hq s r s' E) as (K1 & K2 & K3).
  unfold between_calls. rewrite K1, K2, K3. split; assumption.
Qed.

Lemma validates_snoc X0 y0 calls c :
  validates X0 y0 calls ->
  shuffle_times (S (List.length calls)) X0 y0 = Ok (fst c) ->
  shuffle (fst (fst c)) (snd (fst c)) = Ok (snd c) ->
  validates X0 y0 (calls ++ [c]).
Proof.
  intros Hold H1 H2 j c' Hj.
  destruct (Nat.lt_ge_cases j (List.length calls)) as [Hlt|Hge].
  - rewrite nth_error_app1 in Hj by exact Hlt. apply Hold, Hj.
  - rewrite nth_error_app2 in Hj by exact Hge.
    destruct (j - List.length calls)%nat as [|k] eqn:Ek.
    + cbn [nth_error] in Hj. injection Hj as <-.
      replace j with (List.length calls) by lia. split; assumption.
    + cbn [nth_error] in Hj. destruct k; discriminate Hj.
Qed.

Lemma shuffle_and_fit_step X0 y0 index s r s' :
  between_calls X0 y0 s ->
  shuffle_and_fit row label model metric score perm0 fit index s = (r, s') ->
  validates X0 y0 (fit_calls (t_trace _ _ _ _ _ s')) /\
  (forall h, r = Ok h -> between_calls X0 y0 s').
Proof.
  intros [Hv Hd] E.
  unfold shuffle_and_fit, mbind, ST_bind, get_data, st_lift, set_data, attr,
    emit, get_model, set_model, mret, ST_ret in E.
  cbn [fst snd t_X t_y t_config t_trace t_model t_acc t_val_acc t_loss t_val_loss]
    in E.
  destruct (shuffle (t_X _ _ _ _ _ s) (t_y _ _ _ _ _ s)) as [[X1 y1]|e1] eqn:E1.
  2:{ injection E as <- <-. split; [exact Hv|discriminate]. }
  cbn [fst snd] in E.
  destruct (shuffle X1 y1) as [[vX vY]|e2] eqn:E2.
  2:{ injection E as <- <-. split; [exact Hv|discriminate]. }
  cbn [fst snd] in E.
  destruct (lookup_attr (t_config _ _ _ _ _ s) "epochs") as [epochs|e3].
  2:{ injection E as <- <-. split; [exact Hv|discriminate]. }
  destruct (lookup_attr (t_config _ _ _ _ _ s) "batch_size") as [batch|e4].
  2:{ injection E as <- <-. split; [exact Hv|discriminate]. }
  assert (Hnew : validates X0 y0
            (fit_calls (t_trace _ _ _ _ _ s ++
                        [FitCall _ _ _ _ X1 y1 vX vY epochs batch]))).
  { rewrite fit_calls_app. cbn [fit_calls].
    apply validates_snoc; [exact Hv| |exact E2].
    cbn [shuffle_times fst]. rewrite Hd. cbn [mbind result_bind fst snd].
    exact E1. }
  destruct (fit (Z.to_nat index) (t_model _ _ _ _ _ s) X1 y1 vX vY epochs batch)
    as [[m' h']|e5].
  2:{ injection E as <- <-. split; [exact Hnew|discriminate]. }
  cbn [fst snd] in E. injection E as <- <-.
  cbn [t_trace]. split; [exact Hnew|]. intros h _. split; [exact Hnew|].
  cbn [t_trace t_X t_y]. rewrite fit_calls_app. cbn [fit_calls].
  rewrite length_app. cbn [List.length].
  replace (List.length (fit_calls (t_trace _ _ _ _ _ s)) + 1)%nat
    with (S (List.length (fit_calls (t_trace _ _ _ _ _ s)))) by lia.
  cbn [shuffle_times]. rewrite Hd. cbn [mbind result_bind fst snd]. exact E1.
Qed.

Lemma fit_call_step X0 y0 index s r s' :
  between_calls X0 y0 s ->
  fit_call row label model metric score perm0 fit evaluate drawStatistics
    save saveConfig index s = (r, s') ->
  validates X0 y0 (fit_calls (t_trace _ _ _ _ _ s')) /\
  (r = Ok tt -> between_calls X0 y0 s').
Proof.
  intros Hs E. unfold fit_call in E.
  destruct (st_bind_inv _ _ _ _ _ E) as [(e & E1 & _)|([] & s1 & E1 & E2)].
  { pose proof (between_calls_quiet _ X0 y0 _ _ _ (quiet_announce index) E1 Hs)
      as [H _].
    split; [exact H|]. intros ->. 
    destruct (st_bind_inv _ _ _ _ _ E) as [(e' & E1' & He)|(a & s2 & E1' & _)];
      [discriminate He|congruence]. }
  pose proof (between_calls_quiet _ X0 y0 _ _ _ (quiet_announce index) E1 Hs)
    as Hs1.
  destruct (st_bind_inv _ _ _ _ _ E2) as [(e & E3 & ->)|(h & s2 & E3 & E4)].
  { destruct (shuffle_and_fit_step X0 y0 index s1 _ s' Hs1 E3) as [H _].
    split; [exact H|discriminate]. }
  destruct (shuffle_and_fit_step X0 y0 index s1 _ s2 Hs1 E3) as [_ Hs2].
  specialize (Hs2 h eq_refl).
  pose proof (between_calls_quiet _ X0 y0 _ _ _
                (quiet_record_and_save index h) E4 Hs2) as Hs'.
  split; [apply Hs'|]. intros _. exact Hs'.
Qed.

Lemma shuffle_permutation (X : list row) (y : list label) X' y' :
  (forall n, Permutation (perm0 n) (seq 0 n)) ->
  shuffle X y = Ok (X', y') ->
  Permutation (combine X' y') (combine X y).
Proof.
  intros Hperm E. unfold shuffle in E.
  destruct (Nat.eqb_spec (List.length X) (List.length y)) as [Hlen|]; [|discriminate].
  injection E as <- <-. rewrite (combine_take X y _ Hlen).
  apply take_permutation. rewrite length_combine, <- Hlen, Nat.min_id.
  apply Hperm.
Qed.

Lemma shuffle_times_permutation (k : nat) (X : list row) (y : list label) X' y' :
  (forall n, Permutation (perm0 n) (seq 0 n)) ->
  shuffle_times k X y = Ok (X', y') ->
  Permutation (combine X' y') (combine X y).
Proof.
  intros Hperm. revert X' y'. induction k as [|k IH]; intros X' y' E.
  - injection E as <- <-. reflexivity.
  - cbn [shuffle_times] in E.
    destruct (shuffle_times k X y) as [[X1 y1]|]; [|discriminate].
    cbn [mbind result_bind fst snd] in E.
    rewrite (shuffle_permutation X1 y1 X' y' Hperm E). apply IH. reflexivity.
Qed.

(** X15. [fitModel] never uses the [val_X] and [val_y] it is given. In
    every call of [model.fit], of a run that ends or of one that raises,
    the training data are the data given to [fitModel] shuffled once per
    call so far, this one included, and the validation data are the shuffle
    of these training data. Since a shuffle only reorders the pairs, each
    call validates on exactly the pairs it trains on, which are the pairs
    [fitModel] was given. *)
Theorem fitModel_validates_on_training_data
    (m : model) (X : list row) (y : list label) (val_X : list row)
    (val_y : list label) (cfg : Config) (acc val_acc loss val_loss : temp metric)
    (r : result unit) (s : trainer) :
  (forall n, Permutation (perm0 n) (seq 0 n)) ->
  fitModel row label model metric score perm0 fit evaluate load_model
    getLastModelFilename drawStatistics save saveConfig m X y val_X val_y cfg acc val_acc loss val_loss = (r, s) ->
  (forall val_X' val_y',
     fitModel row label model metric score perm0 fit evaluate load_model
    getLastModelFilename drawStatistics save saveConfig m X y val_X' val_y' cfg acc val_acc loss val_loss =
     (r, s)) /\
  forall j Xj yj vX vY,
    nth_error (fit_calls (t_trace _ _ _ _ _ s)) j = Some ((Xj, yj), (vX, vY)) ->
    shuffle_times (S j) X y = Ok (Xj, yj) /\
    shuffle Xj yj = Ok (vX, vY) /\
    Permutation (combine vX vY) (combine Xj yj) /\
    Permutation (combine Xj yj) (combine X y).
Proof.
  intros Hperm E. split; [intros val_X' val_y'; exact E|].
  assert (Hv : validates X y (fit_calls (t_trace _ _ _ _ _ s))).
  { unfold fitModel in E.
    set (s0 := Trainer row label model metric score cfg acc val_acc loss
                 val_loss m X y []) in E.
    assert (H0 : between_calls X y s0) by (split; [intros [|j] c Hc; discriminate Hc|reflexivity]).
    destruct (st_bind_inv _ _ _ _ _ E) as [(e & E1 & _)|([] & s1 & E1 & E2)].
    { apply (between_calls_quiet _ X y _ _ _ quiet_init_temps E1 H0). }
    pose proof (between_calls_quiet _ X y _ _ _ quiet_init_temps E1 H0) as H1.
    clear E. destruct (st_bind_inv _ _ _ _ _ E2) as [(e & E3 & _)|([] & s2 & E3 & E4)].
    { apply (between_calls_quiet _ X y _ _ _ quiet_init_calls E3 H1). }
    pose proof (between_calls_quiet _ X y _ _ _ quiet_init_calls E3 H1) as H2.
    clear E2. destruct (st_bind_inv _ _ _ _ _ E4) as [(e & E5 & _)|([] & s3 & E5 & E6)].
    { apply (between_calls_quiet _ X y _ _ _ quiet_load_checkpoint E5 H2). }
    pose proof (between_calls_quiet _ X y _ _ _ quiet_load_checkpoint E5 H2) as H3.
    clear E4. destruct (st_bind_inv _ _ _ _ _ E6) as [(e & E7 & _)|(calls & s4 & E7 & E8)].
    { apply (between_calls_quiet _ X y _ _ _ (quiet_attr "calls") E7 H3). }
    pose proof (between_calls_quiet _ X y _ _ _ (quiet_attr "calls") E7 H3) as H4.
    clear E6. destruct (st_bind_inv _ _ _ _ _ E8) as [(e & E9 & _)|(n & s5 & E9 & E10)].
    { apply (between_calls_quiet _ X y _ _ _ (quiet_lift _) E9 H4). }
    pose proof (between_calls_quiet _ X y _ _ _ (quiet_lift _) E9 H4) as H5.
    revert E10.
    apply (st_for_inv (between_calls X y)
             (fun t => validates X y (fit_calls (t_trace _ _ _ _ _ t))));
      [intros t Ht; apply Ht| |exact H5].
    intros index t r' t' Ht Et. apply (fit_call_step X y index t r' t' Ht Et). }
  intros j Xj yj vX vY Hj. destruct (Hv j _ Hj) as [H1 H2].
  cbn [fst snd] in H1, H2. split; [exact H1|]. split; [exact H2|].
  split.
  - apply (shuffle_permutation Xj yj vX vY Hperm H2).
  - apply (shuffle_times_permutation (S j) X y Xj yj Hperm H1).
Qed.

Lemma st_for_count {St A : Type} (size : St -> nat) (body : A -> ST St unit)
    (l : list A) :
  (forall x s s', body x s = (Ok tt, s') -> size s' = S (size s)) ->
  forall s s', st_for l body s = (Ok tt, s') ->
  size s' = (List.length l + size s)%nat.
Proof.
  intros Hbody. induction l as [|x l IH]; intros s s' E.
  - cbn [st_for] in E. injection E as <-. reflexivity.
  - cbn [st_for] in E.
    destruct (st_bind_inv _ _ _ _ _ E) as [(e & _ & He)|([] & s1 & E1 & E2)];
      [discriminate He|].
    rewrite (IH s1 s' E2), (Hbody x s s1 E1). cbn [List.length]. lia.
Qed.

Lemma shuffle_and_fit_count index s h s' :
  shuffle_and_fit row label model metric score perm0 fit index s = (Ok h, s') ->
  List.length (fit_calls (t_trace _ _ _ _ _ s')) =
  S (List.length (fit_calls (t_trace _ _ _ _ _ s))).
Proof.
  intros E.
  unfold shuffle_and_fit, mbind, ST_bind, get_data, st_lift, set_data, attr,
    emit, get_model, set_model, mret, ST_ret in E.
  cbn [fst snd t_X t_y t_config t_trace t_model t_acc t_val_acc t_loss t_val_loss]
    in E.
  destruct (shuffle (t_X _ _ _ _ _ s) (t_y _ _ _ _ _ s)) as [[X1 y1]|e1];
    [|discriminate E].
  cbn [fst snd] in E.
  destruct (shuffle X1 y1) as [[vX vY]|e2]; [|discriminate E].
  cbn [fst snd] in E.
  destruct (lookup_attr (t_config _ _ _ _ _ s) "epochs") as [epochs|e3];
    [|discriminate E].
  destruct (lookup_attr (t_config _ _ _ _ _ s) "batch_size") as [batch|e4];
    [|discriminate E].
  destruct (fit (Z.to_nat index) (t_model _ _ _ _ _ s) X1 y1 vX vY epochs batch)
    as [[m' h']|e5]; [|discriminate E].
  cbn [fst snd] in E. injection E as _ <-.
  cbn [t_trace]. rewrite fit_calls_app, length_app. cbn [fit_calls List.length].
  lia.
Qed.

Lemma fit_call_count index s s' :
  fit_call row label model metric score perm0 fit evaluate drawStatistics
    save saveConfig index s = (Ok tt, s') ->
  List.length (fit_calls (t_trace _ _ _ _ _ s')) =
  S (List.length (fit_calls (t_trace _ _ _ _ _ s))).
Proof.
  intros E. unfold fit_call in E.
  destruct (st_bind_inv _ _ _ _ _ E) as [(e & _ & He)|([] & s1 & E1 & E2)];
    [discriminate He|].
  destruct (st_bind_inv _ _ _ _ _ E2) as [(e & _ & He)|(h & s2 & E3 & E4)];
    [discriminate He|].
  destruct (quiet_announce index _ _ _ E1) as (_ & _ & K1).
  destruct (quiet_record_and_save index h _ _ _ E4) as (_ & _ & K2).
  rewrite K2, (shuffle_and_fit_count index s1 h s2 E3), K1. reflexivity.
Qed.

Lemma init_temps_config s r s' :
  init_temps row label model metric score s = (r, s') ->
  r = Ok tt /\ t_config _ _ _ _ _ s' = t_config _ _ _ _ _ s.
Proof.
  unfold init_temps, st_try, read_temp, reset_temps, mbind, ST_bind, write_temp,
    mret, ST_ret, get_temp.
  destruct (t_acc _ _ _ _ _ s); cbn; intros E; injection E as <- <-; auto.
Qed.

Lemma load_checkpoint_config s r s' :
  load_checkpoint row label model metric score load_model getLastModelFilename s =
    (r, s') ->
  t_config _ _ _ _ _ s' = t_config _ _ _ _ _ s.
Proof.
  unfold load_checkpoint, st_try, attr, mbind, ST_bind, st_lift, set_model, emit,
    mret, ST_ret.
  destruct (lookup_attr (t_config _ _ _ _ _ s) "use_checkpoints") as [u|];
    [|intros E; injection E as _ <-; reflexivity].
  destruct (py_truthy u); [|intros E; injection E as _ <-; reflexivity].
  destruct (getLastModelFilename (t_config _ _ _ _ _ s)) as [path|];
    [|intros E; injection E as _ <-; reflexivity].
  destruct (load_model path); cbn; intros E; injection E as _ <-; reflexivity.
Qed.

(** X18. A run of [fitModel] that returns has called [model.fit] once per
    value of [range(config.calls)]: [config.calls] times for a count, and
    [sys.maxsize] times when [config.calls] is [False]. *)
Theorem fitModel_number_of_calls
    (m : model) (X : list row) (y : list label) (val_X : list row)
    (val_y : list label) (cfg : Config) (acc val_acc loss val_loss : temp metric)
    (s : trainer) :
  fitModel row label model metric score perm0 fit evaluate load_model
    getLastModelFilename drawStatistics save saveConfig m X y val_X val_y cfg acc val_acc loss val_loss =
    (Ok tt, s) ->
  exists c n,
    cfg !! "calls" = Some c /\
    (if is_False c then n = maxsize else py_index c = Ok n) /\
    List.length (fit_calls (t_trace _ _ _ _ _ s)) = Z.to_nat n.
Proof.
  intros E. unfold fitModel in E.
  set (s0 := Trainer row label model metric score cfg acc val_acc loss
               val_loss m X y []) in E.
  destruct (st_bind_inv _ _ _ _ _ E) as [(e & _ & He)|([] & s1 & E1 & E2)];
    [discriminate He|].
  destruct (init_temps_config _ _ _ E1) as [_ C1].
  destruct (quiet_init_temps _ _ _ E1) as (_ & _ & F1).
  clear E. destruct (st_bind_inv _ _ _ _ _ E2) as [(e & _ & He)|([] & s2 & E3 & E4)];
    [discriminate He|].
  destruct (quiet_init_calls _ _ _ E3) as (_ & _ & F2).
  clear E2. destruct (st_bind_inv _ _ _ _ _ E4) as [(e & _ & He)|([] & s3 & E5 & E6)];
    [discriminate He|].
  pose proof (load_checkpoint_config _ _ _ E5) as C3.
  destruct (quiet_load_checkpoint _ _ _ E5) as (_ & _ & F3).
  clear E4. destruct (st_bind_inv _ _ _ _ _ E6) as [(e & _ & He)|(calls & s4 & E7 & E8)];
    [discriminate He|].
  clear E6. destruct (st_bind_inv _ _ _ _ _ E8) as [(e & _ & He)|(n & s5 & E9 & E10)];
    [discriminate He|].
  unfold attr in E7. injection E7 as E7 <-.
  unfold st_lift in E9. injection E9 as E9 <-.
  pose proof (st_for_count (fun t => List.length (fit_calls (t_trace _ _ _ _ _ t)))
                (fit_call row label model metric score perm0 fit evaluate drawStatistics
    save saveConfig)
                (range n) fit_call_count s3 s E10) as Hcount.
  rewrite length_range, F3, F2, F1 in Hcount. cbn [s0 t_trace fit_calls] in Hcount.
  rewrite C3 in E7.
  unfold init_calls, attr, set_attr, mbind, ST_bind, mret, ST_ret in E3.
  rewrite C1 in E3. cbn [s0 t_config] in E3.
  unfold lookup_attr in E3.
  destruct (cfg !! "calls") as [c|] eqn:Ec; [|discriminate E3].
  exists c, n. split; [reflexivity|].
  split; [|cbn [List.length] in Hcount; lia].
  destruct (is_False c) eqn:Ef.
  - injection E3 as <-. cbn [t_config] in E7. unfold lookup_attr in E7.
    rewrite lookup_insert_eq in E7. injection E7 as <-.
    cbn [py_index] in E9. injection E9 as <-. reflexivity.
  - injection E3 as <-. rewrite C1 in E7. cbn [s0 t_config] in E7.
    unfold lookup_attr in E7. rewrite Ec in E7. injection E7 as <-. exact E9.
Qed.

End Trainer_facts.

(** *** The trainer on a small run *)

Lemma fitModel_validates_on_training_data_witness :
  shuffle_times Z nat reverse_order 1 [10; 20; 30] [0; 1; 2]%nat =
    Ok ([30; 20; 10], [2; 1; 0]%nat) /\
  Permutation (combine [10; 20; 30] [0; 1; 2]%nat)
              (combine [30; 20; 10] [2; 1; 0]%nat).
Proof.
  pose (run := fitModel Z nat unit Z unit reverse_order idle_fit idle_evaluate no_checkpoint no_model_file idle_draw idle_save idle_draw tt [10; 20; 30] [0; 1; 2]%nat [] []
                 two_calls TMissing TMissing TMissing TMissing).
  assert (E : run = (fst run, snd run)) by (destruct run; reflexivity).
  destruct (fitModel_validates_on_training_data Z nat unit Z unit reverse_order
              idle_fit idle_evaluate no_checkpoint no_model_file idle_draw idle_save idle_draw tt
              [10; 20; 30] [0; 1; 2]%nat [] [] two_calls
              TMissing TMissing TMissing TMissing (fst run) (snd run))
    as [_ H].
  - intros n. unfold reverse_order. symmetry. apply Permutation_rev.
  - exact E.
  - destruct (H 0%nat [30; 20; 10] [2; 1; 0]%nat [10; 20; 30] [0; 1; 2]%nat)
      as (H1 & _ & H3 & _); [vm_compute; reflexivity|].
    split; [exact H1|exact H3].
Defined.

Lemma fitModel_number_of_calls_witness :
  exists s,
    fitModel Z nat unit Z unit reverse_order idle_fit idle_evaluate no_checkpoint no_model_file idle_draw idle_save idle_draw tt [10; 20; 30] [0; 1; 2]%nat [] []
      two_calls TMissing TMissing TMissing TMissing = (Ok tt, s) /\
    List.length (fit_calls Z nat Z unit (t_trace Z nat unit Z unit s)) = 2%nat.
Proof.
  eexists. split; [vm_compute; reflexivity|].
  match goal with
  | |- List.length (fit_calls _ _ _ _ (t_trace _ _ _ _ _ ?s)) = _ =>
      destruct (fitModel_number_of_calls Z nat unit Z unit reverse_order idle_fit
                  idle_evaluate no_checkpoint no_model_file idle_draw idle_save idle_draw tt [10; 20; 30]
                  [0; 1; 2]%nat [] [] two_calls TMissing TMissing TMissing
                  TMissing s) as (c & n & Hc & Hn & Hlen);
        [vm_compute; reflexivity|]
  end.
  rewrite Hlen. vm_compute in Hc. injection Hc as <-. cbn in Hn.
  injection Hn as <-. reflexivity.
Defined.

(** ** The class list: [list(np.unique(df.label))] *)

Lemma ascii_compare_lt_trans (a b c : Ascii.ascii) :
  Ascii.compare a b = Lt -> Ascii.compare b c = Lt -> Ascii.compare a c = Lt.
Proof.
  unfold Ascii.compare. rewrite !N.compare_lt_iff. apply N.lt_trans.
Qed.

Lemma string_compare_refl (s : string) : String.compare s s = Eq.
Proof.
  pose proof (String.compare_antisym s s) as H.
  destruct (String.compare s s); [reflexivity|discriminate H|discriminate H].
Qed.

Lemma string_compare_lt_trans (s t u : string) :
  String.compare s t = Lt -> String.compare t u = Lt -> String.compare s u = Lt.
Proof.
  revert t u. induction s as [|a s IH]; intros [|b t] [|c u]; cbn [String.compare];
    try discriminate; try reflexivity.
  destruct (Ascii.compare a b) eqn:Eab; [|intros _|discriminate].
  - apply Ascii.compare_eq_iff in Eab. subst b.
    destruct (Ascii.compare a c); [apply IH|reflexivity|discriminate].
  - destruct (Ascii.compare b c) eqn:Ebc; [|intros _|discriminate].
    + apply Ascii.compare_eq_iff in Ebc. subst c. rewrite Eab. reflexivity.
    + rewrite (ascii_compare_lt_trans a b c Eab Ebc). reflexivity.
Qed.

Lemma insert_sorted_In (s x : string) (l : list string) :
  In x (insert_sorted s l) <-> x = s \/ In x l.
Proof.
  induction l as [|y l IH]; cbn [insert_sorted].
  - cbn. intuition.
  - destruct (String.compare s y) eqn:E.
    + apply String.compare_eq_iff in E. subst y. cbn. intuition.
    + cbn. intuition.
    + cbn [In]. rewrite IH. intuition.
Qed.

Lemma insert_sorted_sorted (s : string) (l : list string) :
  increasing l -> increasing (insert_sorted s l).
Proof.
  induction l as [|y l IH]; cbn [insert_sorted increasing].
  - intros _. split; constructor.
  - intros [Hy Hl]. destruct (String.compare s y) eqn:E; cbn [increasing].
    + split; assumption.
    + split; [|split; assumption].
      constructor; [exact E|].
      eapply List.Forall_impl; [|exact Hy].
      intros z Hz. apply (string_compare_lt_trans s y z E Hz).
    + split; [|apply IH, Hl].
      apply List.Forall_forall. intros z Hz. apply insert_sorted_In in Hz.
      destruct Hz as [->|Hz].
      * rewrite String.compare_antisym, E. reflexivity.
      * rewrite List.Forall_forall in Hy. apply Hy, Hz.
Qed.

Lemma sorted_NoDup (l : list string) : increasing l -> List.NoDup l.
Proof.
  induction l as [|y l IH]; cbn [increasing]; [constructor|].
  intros [Hy Hl]. constructor; [|apply IH, Hl].
  intros Hin. rewrite List.Forall_forall in Hy. specialize (Hy y Hin).
  rewrite string_compare_refl in Hy. discriminate.
Qed.

Lemma np_unique_sorted (l : list string) : increasing (np_unique l).
Proof.
  unfold np_unique. induction l as [|x l IH]; cbn [fold_right].
  - exact I.
  - apply insert_sorted_sorted, IH.
Qed.

Lemma np_unique_In (l : list string) (x : string) :
  In x (np_unique l) <-> In x l.
Proof.
  unfold np_unique. induction l as [|y l IH]; cbn [fold_right]; [reflexivity|].
  rewrite insert_sorted_In, IH. cbn. intuition.
Qed.

Lemma files_of_label (table : ClassTable) (c : string) :
  In c (map snd table) -> 1 <= llen (files_of table c) <= llen table.
Proof.
  intros Hin. unfold files_of, llen. rewrite length_map. split.
  - apply in_map_iff in Hin. destruct Hin as ([f c'] & Hc & Hrow). cbn in Hc. subst c'.
    assert (Hf : In (f, c) (List.filter (fun row => String.eqb (snd row) c) table)).
    { apply filter_In. split; [exact Hrow|]. cbn. apply String.eqb_refl. }
    destruct (List.filter _ table); [destruct Hf|cbn [List.length]; lia].
  - pose proof (List.filter_length_le (fun row => String.eqb (snd row) c) table).
    lia.
Qed.

(** X16. The class list the script builds, [list(np.unique(df.label))],
    is strictly increasing, so without duplicates; it holds exactly the
    labels of the table; every class of it has at least one file; and for
    a table that is not empty [getSmallestDataset] over it lies between 1
    and the number of rows. *)
Theorem classes_of_table (table : ClassTable) :
  increasing (classes_of table) /\
  List.NoDup (classes_of table) /\
  (forall c, In c (classes_of table) <-> In c (map snd table)) /\
  (forall c, In c (classes_of table) -> 1 <= llen (files_of table c)) /\
  (table <> [] ->
   1 <= getSmallestDataset table (classes_of table) <= llen table).
Proof.
  unfold classes_of.
  split; [apply np_unique_sorted|].
  split; [apply sorted_NoDup, np_unique_sorted|].
  split; [intros c; apply np_unique_In|].
  split; [intros c Hc; apply files_of_label, np_unique_In, Hc|].
  intros Hne.
  destruct (smallest_fold table (np_unique (map snd table)) maxsize)
    as (H1 & H2 & H3).
  change (fold_left _ (np_unique (map snd table)) maxsize)
    with (getSmallestDataset table (np_unique (map snd table))) in H1, H2, H3.
  destruct table as [|[f c] table]; [congruence|].
  assert (Hc : In c (np_unique (map snd ((f, c) :: table))))
    by (apply np_unique_In; left; reflexivity).
  split.
  - destruct H3 as [->|(c' & Hc' & ->)]; [unfold maxsize; lia|].
    apply files_of_label, np_unique_In, Hc'.
  - specialize (H2 c Hc).
    pose proof (files_of_label ((f, c) :: table) c (or_introl eq_refl)). lia.
Qed.

(** ** SampleBuilder: what random mode returns *)

(** X17. Random mode returns, with [X] of shape [(N, h, w, 1)], [y] of
    shape [(N, cat)], [N = floor(d / 3) * classCount] and nothing printed,
    under these conditions: the feature matrix of a full window is [h] by
    [w] and not empty; [cat] is a positive integer below [2^53]; at least
    one round is run; there are classes, not more than [cat]; every class
    has a file and every file of a class has more than [step] values. The
    window drawn is then always a full one, whatever the random draws. *)
Theorem getRandomSamples_returns
    (mfcc : Config -> list Z -> Z -> ndarray) (cfg : Config) (C : Corpus)
    (classes : list string) (step cat n : Z) (h w : nat) (g : rng) :
  (forall sample rate, List.length sample = Z.to_nat step ->
     shape (mfcc cfg sample rate) = [h; w] /\
     List.length (data (mfcc cfg sample rate)) = (h * w)%nat) ->
  (0 < h * w)%nat ->
  cfg !! "step" = Some (VInt step) -> 0 <= step ->
  cfg !! "cat" = Some (VInt cat) ->
  0 < cat < 2 ^ 53 -> 0 <= n < 2 ^ 53 ->
  let rounds := n / cat * cat / 3 in
  let N := (Z.to_nat rounds * List.length classes)%nat in
  0 < rounds -> classes <> [] -> llen classes <= cat ->
  (forall c, In c classes -> files_of (df C) c <> []) ->
  (forall c f, In c classes -> In f (files_of (df C) c) ->
     exists rate wav, wavs C !! f = Some (rate, wav) /\ step < llen wav) ->
  exists s g',
    getRandomSamples mfcc cfg C classes (VInt n) g = Ok (s, g') /\
    shape (samples_X s) = [N; h; w; 1%nat] /\
    shape (samples_y s) = [N; Z.to_nat cat] /\
    printed s = [].
Proof.
  intros Hshape Hhw Hstep Hs0 Hcat Hc Hn rounds N Hrounds Hclasses Hle Hfiles
    Hread.
  pose proof (refactored_bounds cat n ltac:(lia) ltac:(lia)) as Hd.
  destruct (random_loop_grown mfcc cfg C classes
              (fun sample => List.length sample = Z.to_nat step)
              (fun x => shape x = [h; w] /\ List.length (data x) = (h * w)%nat))
    with (step := step) (rounds := rounds) (g := g)
    as (a & g' & E & (GX & Gy & Gout & Glab) & K); try assumption.
  { intros sample rate Hlen. split; [|apply Hshape, Hlen].
    destruct (Hshape sample rate Hlen) as [_ Hdata].
    destruct (data (mfcc cfg sample rate)); [simpl in Hdata; lia|discriminate]. }
  { intros c f Hc' Hf. destruct (Hread c f Hc' Hf) as (rate & wav & Ew & Hlen).
    exists rate, wav. repeat split; try assumption; try lia.
    intros k Hk. apply py_slice_full; lia. }
  fold N in GX, Gy. cbn [acc0 acc_X acc_y acc_out List.length Nat.add] in *.
  assert (HN : (0 < N)%nat).
  { unfold N. destruct classes; [congruence|]. cbn [List.length].
    apply Nat.mul_pos_pos; lia. }
  assert (Hne : acc_X a <> []).
  { intros Ha. rewrite Ha in GX. simpl in GX. lia. }
  assert (Hu : uniform h w a) by (apply K; constructor).
  assert (Hy : Forall (fun label => (label < Z.to_nat cat)%nat) (acc_y a)).
  { eapply List.Forall_impl; [|apply Glab; constructor].
    intros label Hl. unfold llen in Hle. cbn beta in Hl. lia. }
  eexists _, g'. split.
  { unfold getRandomSamples.
    rewrite (getRefactoredData_floor cfg cat n Hcat Hc Hn).
    cbn [mbind result_bind].
    rewrite (random_round_count_floor (n / cat * cat)) by lia.
    cbn [mbind result_bind]. fold rounds. rewrite E.
    cbn [mbind result_bind fst snd].
    rewrite (assemble_ok cfg a h w cat Hu Hne Hcat ltac:(lia) Hy).
    reflexivity. }
  cbn [samples_X samples_y printed shape]. rewrite GX, Gy, Gout.
  repeat split.
Qed.

Lemma getRandomSamples_returns_witness :
  exists s g',
    getRandomSamples toy_mfcc toy_config toy_corpus example_classes (VInt 12)
      toy_rng = Ok (s, g') /\
    shape (samples_X s) = [8%nat; 1%nat; 2%nat; 1%nat] /\
    shape (samples_y s) = [8%nat; 2%nat] /\
    printed s = [].
Proof.
  apply (getRandomSamples_returns toy_mfcc toy_config toy_corpus example_classes
           2 2 12 1 2 toy_rng); try reflexivity; try lia; try discriminate.
  - intros sample rate _. apply toy_mfcc_shape.
  - intros c Hc. destruct Hc as [<-|[<-|[]]]; discriminate.
  - intros c f Hc Hf.
    destruct (toy_files_readable c f Hc Hf) as (rate & wav & Ew & Hlen).
    exists rate, wav. split; [exact Ew|lia].
Defined.
